(** * Style resolution and figure composition of the plotly backend

    A shallow embedding of [holoviews/plotting/plotly/element.py]:
    [ElementPlot] ([graph_options], [init_graph], [_apply_transforms],
    [init_layout], [_get_ticks], [generate_plot]), [ColorbarPlot]
    ([get_color_opts]) and [OverlayPlot] ([generate_plot]).

    Python dictionaries that are iterated are association lists in
    insertion order; tables that are only looked up are [gmap]s.  A
    dictionary object that a callee mutates is threaded through the
    callee and handed back, so that the caller's view after the call is
    explicit. *)

From Stdlib Require Import ZArith.
From stdpp Require Import base gmap strings list.

Local Open Scope string_scope.
#[local] Set Warnings "-register-all".

(** ** Numbers, scalars and values *)

(** Colour bounds are numbers or [np.nan].  Negation, absolute value and
    maximum are exact on machine numbers, so the finite ones are
    integers here. *)
Inductive num : Type :=
| Fin (z : Z)
| NaN.

Definition num_neg (n : num) : num :=
  match n with Fin z => Fin (- z) | NaN => NaN end.

Definition num_abs (n : num) : num :=
  match n with Fin z => Fin (Z.abs z) | NaN => NaN end.

(** [ndarray.max] of a two element array: [nan] propagates. *)
Definition num_max (a b : num) : num :=
  match a, b with
  | Fin x, Fin y => Fin (Z.max x y)
  | _, _ => NaN
  end.

Inductive scalar : Type :=
| SNum (n : num)
| SStr (s : string)
| SBool (b : bool).

(** A [dim] transform: the dimension it starts from and its chained
    operations (opaque identifiers here, the operations themselves live
    in [util.transform]). *)
Record dim : Type := Dim { dimension : string; ops : list nat }.

Inductive value : Type :=
| VNone
| VScalar (s : scalar)
| VArr (xs : list scalar)
| VDim (d : dim)
| VList (xs : list value)
| VTuple (xs : list value)
| VDict (d : list (string * value)).

Definition VNum (n : num) : value := VScalar (SNum n).
Definition VStr (s : string) : value := VScalar (SStr s).
Definition VBool (b : bool) : value := VScalar (SBool b).

(** What [dim.apply] and an overlay binding yield: a scalar or an array
    aligned with the element's data. *)
Inductive evalue : Type :=
| EScalar (s : scalar)
| EArr (xs : list scalar).

Definition to_value (e : evalue) : value :=
  match e with EScalar s => VScalar s | EArr xs => VArr xs end.

Global Instance num_eq_dec : EqDecision num.
Proof. solve_decision. Defined.

Global Instance scalar_eq_dec : EqDecision scalar.
Proof. solve_decision. Defined.

Global Instance dim_eq_dec : EqDecision dim.
Proof. solve_decision. Defined.

(** ** Dictionaries in insertion order *)

Definition pydict : Type := list (string * value).

Fixpoint dict_get {A} (k : string) (d : list (string * A)) : option A :=
  match d with
  | [] => None
  | (k', v) :: d' => if decide (k = k') then Some v else dict_get k d'
  end.

Definition dict_mem {A} (k : string) (d : list (string * A)) : bool :=
  match dict_get k d with Some _ => true | None => false end.

(** [d[k] = v]: an existing key keeps its position, a new one goes last. *)
Fixpoint dict_set {A} (k : string) (v : A) (d : list (string * A))
  : list (string * A) :=
  match d with
  | [] => [(k, v)]
  | (k', v') :: d' =>
      if decide (k = k') then (k', v) :: d' else (k', v') :: dict_set k v d'
  end.

(** [d.pop(k, default)], the dictionary that is left. *)
Fixpoint dict_pop {A} (k : string) (d : list (string * A))
  : list (string * A) :=
  match d with
  | [] => []
  | (k', v) :: d' =>
      if decide (k = k') then dict_pop k d' else (k', v) :: dict_pop k d'
  end.

(** [d.update(u)] *)
Definition dict_update {A} (d u : list (string * A)) : list (string * A) :=
  fold_left (fun acc kv => dict_set kv.1 kv.2 acc) u d.

Definition dict_keys {A} (d : list (string * A)) : list string := d.*1.

(** ** Strings *)

Fixpoint is_prefix (p s : string) : bool :=
  match p, s with
  | EmptyString, _ => true
  | String a p', String b s' =>
      if decide (a = b) then is_prefix p' s' else false
  | String _ _, EmptyString => false
  end.

(** [sub in s] for Python strings. *)
Fixpoint contains (sub s : string) : bool :=
  is_prefix sub s ||
  match s with
  | EmptyString => false
  | String _ s' => contains sub s'
  end.

(** ** Helpers of [core.util] *)

(** [util.unique_array]: the distinct values in order of appearance. *)
Fixpoint unique_array (xs : list scalar) : list scalar :=
  match xs with
  | [] => []
  | x :: xs' => x :: filter (fun y => y <> x) (unique_array xs')
  end.

(** [util.isscalar] on an evaluated style. *)
Definition isscalar (e : evalue) : bool :=
  match e with EScalar _ => true | EArr _ => false end.

(** [val.dtype.kind in 'uifMm'] *)
Definition is_num (s : scalar) : bool :=
  match s with SNum _ => true | _ => false end.

Definition numeric (e : evalue) : bool :=
  match e with EArr xs => forallb is_num xs | EScalar _ => false end.

(** ** Exceptions *)

Inductive exn : Type :=
| NonVectorized (style dim_name element backend : string)
  (** the [ValueError] of [_apply_transforms]: its four format fields *)
| ValueError
| TypeError
| KeyError (k : string)
| IndexError
| AttributeError.

Inductive result (A : Type) : Type :=
| Ok (a : A)
| Raise (e : exn).
Arguments Ok {A} a.
Arguments Raise {A} e.

Global Instance result_ret : MRet result := fun _ a => Ok a.
Global Instance result_bind : MBind result := fun _ _ f m =>
  match m with Ok a => f a | Raise e => Raise e end.

(** ** Collaborators' data *)

(** An [Element] as this module reads it: its type name, label and
    group, its dimension names, and its declared range per dimension. *)
Record Element : Type := {
  el_type : string;
  el_label : string;
  el_group : string;
  el_dims : list string;
  el_range : string -> num * num
}.

(** One entry of the range table. *)
Record range_entry : Type := { combined : num * num }.

Abbreviation range_table := (gmap string range_entry).

(** What [get_color_opts] is handed as [eldim]: a [dim] transform, a
    plain [Dimension] (name and label) or [None]. *)
Inductive eldim : Type :=
| ElDim (d : dim)
| ElDimension (name label : string)
| ElNone.

(** [if eldim:] - objects are true, [None] is false. *)
Definition truthy (e : eldim) : bool :=
  match e with ElNone => false | _ => true end.

(** ** The plot instance *)

(** The parameters and attributes of a plot that this module reads.
    [trace_kwargs] holds the flat trace keywords of the plot class
    ([type], [mode], ...); [overlay_dims] binds overlay dimensions, by
    name, to the value of this plot's branch; [backend] is
    [self.renderer.backend]. *)
Record Plot : Type := {
  invert_axes : bool;
  labelled : list string;
  logx : bool;
  logy : bool;
  margins : Z * Z * Z * Z;
  show_legend : bool;
  xticks : value;
  yticks : value;
  bgcolor : value;
  width : Z;
  height : Z;
  trace_kwargs : list (string * scalar);
  _style_key : option string;
  _per_trace : bool;
  _nonvectorized_styles : list string;
  overlay_dims : list (string * scalar);
  backend : string;
  cyclic_index : nat;
  (* ColorbarPlot *)
  colorbar : bool;
  color_levels : value;
  colorbar_opts : pydict;
  symmetric : bool
}.

(** [s[1:-1]] *)
Definition strip_ends (s : string) : string :=
  match s with
  | EmptyString => EmptyString
  | String _ s' => String.substring 0 (String.length s' - 1) s'
  end.

(** ** ColorbarPlot.get_color_opts *)

Section ColorOpts.

(** [plotting.util.dim_range_key], [str] of a [dim] and
    [plotly.util.get_colorscale] are defined outside this module. *)
Variable dim_range_key : eldim -> string.
Variable dim_str : dim -> string.
Variable get_colorscale : value -> value -> option num -> option num -> value.

(** The [colorbar]/[showscale] entry (lines 344-351). *)
Definition colorbar_entry (self : Plot) (e : eldim) : result pydict :=
  if colorbar self then
    title ← match e with
            | ElDim d =>
                Ok (match ops d with
                    | [] => strip_ends (dim_str d)
                    | _ => dim_str d
                    end)
            | ElDimension _ label => Ok label
            | ElNone => Raise AttributeError
            end;
    if dict_mem "title" (colorbar_opts self) then Raise TypeError
    else Ok [("colorbar", VDict (("title", VStr title) :: colorbar_opts self))]
  else Ok [("showscale", VBool false)].

(** The bounds before the symmetric option (lines 355-361). *)
Definition color_bounds (e : eldim) (element : Element)
    (ranges : range_table) : bool * (num * num) :=
  let dim_name := dim_range_key e in
  match ranges !! dim_name with
  | Some r => (false, combined r)
  | None =>
      match e with
      | ElDim _ => (true, (NaN, NaN))
      | _ => (false, el_range element dim_name)
      end
  end.

(** Lines 362-364. *)
Definition symmetric_bounds (b : num * num) : num * num :=
  let cabs := (num_abs b.1, num_abs b.2) in
  (num_neg (num_max cabs.1 cabs.2), num_max cabs.1 cabs.2).

(** Lines 353-367: the [auto] flag and the bounds, [None] for
    [cmin, cmax = None, None]. *)
Definition resolve_bounds (self : Plot) (e : eldim) (element : Element)
    (ranges : range_table) : bool * option (num * num) :=
  if truthy e then
    let '(auto, b) := color_bounds e element ranges in
    (auto, Some (if symmetric self then symmetric_bounds b else b))
  else (true, None).

(** The whole method.  It returns the options and the [style]
    dictionary as the call leaves it ([style.pop('cmap', 'viridis')]
    acts on the caller's object). *)
Definition get_color_opts (self : Plot) (e : eldim) (element : Element)
    (ranges : range_table) (style : pydict) : result (pydict * pydict) :=
  opts ← colorbar_entry self e;
  let '(auto, b) := resolve_bounds self e element ranges in
  let cmap := default (VStr "viridis") (dict_get "cmap" style) in
  let style' := dict_pop "cmap" style in
  let colorscale := get_colorscale cmap (color_levels self) (fst <$> b) (snd <$> b) in
  let opts := match b with
              | Some (cmin, cmax) =>
                  dict_set "cmax" (VNum cmax) (dict_set "cmin" (VNum cmin) opts)
              | None => opts
              end in
  let opts := dict_set "cauto" (VBool auto) opts in
  let opts := dict_set "colorscale" colorscale opts in
  Ok (opts, style').

End ColorOpts.

(** A [for] loop whose body may raise. *)
Fixpoint for_each {A S} (body : S -> A -> result S) (xs : list A) (s : S)
  : result S :=
  match xs with
  | [] => Ok s
  | x :: xs' =>
      match body s x with
      | Ok s' => for_each body xs' s'
      | Raise e => Raise e
      end
  end.

(** ** ElementPlot._apply_transforms *)

(** The loop state: the copy being built ([new_style]), the caller's
    [style] object as it currently is, and the warnings emitted so far
    (attribute name and transform of each). *)
Record tstate : Type := {
  new_style : pydict;
  cur_style : pydict;
  warnings : list (string * dim)
}.

(** Line 209: [new_style = dict(style)]. *)
Definition start (style : pydict) : tstate :=
  {| new_style := style; cur_style := style; warnings := [] |}.

Section Transforms.

Variable dim_range_key : eldim -> string.
Variable dim_str : dim -> string.
Variable get_colorscale : value -> value -> option num -> option num -> value.
(** [dim.applies] and [dim.apply(element, ranges=ranges, flat=True)]
    of [util.transform]. *)
Variable dim_applies : dim -> Element -> bool.
Variable dim_apply : dim -> Element -> range_table -> evalue.

(** Lines 211-215: a string naming a dimension of the element or an
    overlay dimension becomes a transform. *)
Definition coerce (self : Plot) (element : Element) (v : value) : value :=
  match v with
  | VScalar (SStr s) =>
      if bool_decide (s ∈ el_dims element) then VDim (Dim s [])
      else if dict_mem s (overlay_dims self) then VDim (Dim s [])
      else v
  | _ => v
  end.

(** Line 219. *)
Definition applicable (self : Plot) (element : Element) (d : dim) : bool :=
  dim_applies d element || dict_mem (dimension d) (overlay_dims self).

(** Lines 225-228. *)
Definition evaluate (self : Plot) (element : Element)
    (ranges : range_table) (d : dim) : evalue :=
  match ops d, dict_get (dimension d) (overlay_dims self) with
  | [], Some bound => EScalar bound
  | _, _ => dim_apply d element ranges
  end.

(** Lines 230-232. *)
Definition collapse (k : string) (val : evalue) : evalue :=
  match val with
  | EArr (x :: xs) =>
      if bool_decide (length (unique_array (x :: xs)) = 1)
         && negb (contains "color" k)
      then EScalar x else val
  | _ => val
  end.

(** One iteration of the loop over [dict(style).items()]. *)
Definition transform_step (self : Plot) (element : Element)
    (ranges : range_table) (st : tstate) (kv : string * value)
  : result tstate :=
  let '(k, v) := kv in
  match coerce self element v with
  | VDim d =>
      if negb (applicable self element d) then
        if dict_mem k (new_style st) then
          Ok {| new_style := dict_pop k (new_style st);
                cur_style := cur_style st;
                warnings := app (warnings st) [(k, d)] |}
        else Raise (KeyError k)
      else
        let val := collapse k (evaluate self element ranges d) in
        if negb (isscalar val)
           && bool_decide (k ∈ _nonvectorized_styles self)
        then Raise (NonVectorized k (dimension d) (el_type element)
                      (backend self))
        else if contains "color" k && numeric val then
          '(copts, style') ←
            get_color_opts dim_range_key dim_str get_colorscale
              self (ElDim d) element ranges (cur_style st);
          Ok {| new_style :=
                  dict_set k (to_value val)
                    (dict_update (dict_pop "cmap" (new_style st)) copts);
                cur_style := style';
                warnings := warnings st |}
        else
          Ok {| new_style := dict_set k (to_value val) (new_style st);
                cur_style := cur_style st;
                warnings := warnings st |}
  | _ => Ok st
  end.

Definition _apply_transforms (self : Plot) (element : Element)
    (ranges : range_table) (style : pydict) : result tstate :=
  for_each (transform_step self element ranges) style (start style).

End Transforms.

(** ** ElementPlot._get_axis_dims, _get_ticks and init_layout *)

(** [element.dimensions()[:2]] padded with [None]. *)
Definition _get_axis_dims (element : Element) : list (option string) :=
  let dims := Some <$> take 2 (el_dims element) in
  if bool_decide (length dims = 1) then app dims [None; None]
  else app dims [None].

Definition is_tuple (v : value) : bool :=
  match v with VTuple _ => true | _ => false end.

Section Layout.

(** [str] of a tick label, [GenericElementPlot.get_extents],
    [_get_axis_labels] and [_format_title] are defined elsewhere. *)
Variable py_str : value -> string.
Variable get_extents : Plot -> Element -> range_table -> list num.
Variable _get_axis_labels : Plot -> list (option string) -> string * string * string.
Variable _format_title : Plot -> value -> string.

Definition tick_label (l : value) : value :=
  match l with
  | VScalar (SStr _) => l
  | _ => VStr (py_str l)
  end.

(** [ticks, labels = zip] of the unpacked ticker, a sequence of tuples:
    [zip] yields as many sequences as the shortest tuple has items, and
    the assignment needs exactly two. *)
Definition unzip_ticks (ticker : list value) : result (list value * list value) :=
  let items := (fun t => match t with VTuple xs => xs | _ => [] end) <$> ticker in
  match items with
  | [] => Raise ValueError
  | first :: rest =>
      if bool_decide (foldr Nat.min (length first) (length <$> rest) = 2)
      then Ok ((fun xs => default VNone (xs !! 0)) <$> items,
               (fun xs => default VNone (xs !! 1)) <$> items)
      else Raise ValueError
  end.

(** [_get_ticks] returns the axis record as [axis.update] leaves it. *)
Definition _get_ticks (axis : pydict) (ticker : value) : result pydict :=
  let with_ticks (xs : list value) :=
    if forallb is_tuple xs then
      '(ticks, labels) ← unzip_ticks xs;
      Ok (dict_update axis
            [("tickvals", VTuple ticks);
             ("ticktext", VList (tick_label <$> labels))])
    else Ok (dict_update axis [("tickvals", ticker)]) in
  match ticker with
  | VList xs => with_ticks xs
  | VTuple xs => with_ticks xs
  | _ => Ok axis
  end.

(** Lines 259-262: a 2D extent has four entries, a 3D one six. *)
Definition unpack_extent (extent : list num) : result (num * num * num * num) :=
  match extent with
  | [l; b; r; t] => Ok (l, b, r, t)
  | [l; b; z0; r; t; z1] => Ok (l, b, r, t)
  | _ => Raise ValueError
  end.

(** Lines 266-270. *)
Definition unpack_dims (dims : list (option string))
  : result (option string * option string) :=
  match dims with
  | [xdim; ydim; _] => Ok (xdim, ydim)
  | [xdim; ydim] => Ok (xdim, ydim)
  | _ => Raise ValueError
  end.

(** Lines 273-275: the inversion of labels and extent. *)
Definition invert (self : Plot)
    (labels : string * string) (ext : num * num * num * num)
  : (string * string) * (num * num * num * num) :=
  if invert_axes self then
    let '(xlabel, ylabel) := labels in
    let '(l, b, r, t) := ext in
    ((ylabel, xlabel), (b, l, t, r))
  else (labels, ext).

(** Lines 282-294, for one axis. *)
Definition axis_record (lo hi : num) (title : string) (log : bool)
    (ticker : value) : result pydict :=
  let axis := [("range", VList [VNum lo; VNum hi]); ("title", VStr title)] in
  let axis := if log then dict_set "type" (VStr "log") axis else axis in
  _get_ticks axis ticker.

Definition init_layout (self : Plot) (key : value) (element : Element)
    (ranges : range_table) : result pydict :=
  let extent := get_extents self element ranges in
  ext ← unpack_extent extent;
  let dims := _get_axis_dims element in
  xy ← unpack_dims dims;
  let xdim : option string := xy.1 in
  let ydim : option string := xy.2 in
  let '(xlabel, ylabel, zlabel) := _get_axis_labels self dims in
  let '((xlabel, ylabel), (l, b, r, t)) := invert self (xlabel, ylabel) ext in
  let xlabel := if bool_decide ("x" ∈ labelled self) then xlabel else "" in
  let ylabel := if bool_decide ("y" ∈ labelled self) then ylabel else "" in
  options ← (if is_Some_dec xdim then
               xaxis ← axis_record l r xlabel (logx self) (xticks self);
               Ok [("xaxis", VDict xaxis)]
             else Ok []);
  options ← (if is_Some_dec ydim then
               yaxis ← axis_record b t ylabel (logy self) (yticks self);
               Ok (dict_set "yaxis" (VDict yaxis) options)
             else Ok options);
  let '(l, b, r, t) := margins self in
  let margin := [("l", VNum (Fin l)); ("r", VNum (Fin r));
                 ("b", VNum (Fin b)); ("t", VNum (Fin t));
                 ("pad", VNum (Fin 4))] in
  Ok (app [("width", VNum (Fin (width self)));
       ("height", VNum (Fin (height self)));
       ("title", VStr (_format_title self key));
       ("plot_bgcolor", bgcolor self);
       ("margin", VDict margin)] options).

End Layout.

(** ** ElementPlot.init_graph

    [trace = dict(options)] copies the top level only: a nested record of
    [options] is the same object in [options] and in every trace made
    from it.  A trace entry is therefore either a value of its own or
    [Shared], the nested record that [options] holds under the same key;
    [init_graph] returns the trace together with [options] as the call
    leaves it, and [read_trace] gives what a trace shows. *)

Inductive tval : Type :=
| Own (v : value)
| Shared.

Definition trace : Type := list (string * tval).

Definition read_trace (options : pydict) (t : trace) : pydict :=
  (fun kv : string * tval =>
     match kv.2 with
     | Own v => (kv.1, v)
     | Shared => (kv.1, default VNone (dict_get kv.1 options))
     end) <$> t.

(** [dict(options)] *)
Definition shallow_copy (options : pydict) : trace :=
  (fun kv : string * value =>
     match kv.2 with
     | VDict _ => (kv.1, Shared)
     | v => (kv.1, Own v)
     end) <$> options.

(** [x.update(v)] for a dictionary [x] (line 170), with [x] as the
    call leaves it.  A mapping is merged in.  Anything else is iterated
    as a sequence of key and value pairs, each entered when it is met:
    an element that cannot be iterated is a [TypeError], one that has
    not two entries a [ValueError], a key that cannot be hashed a
    [TypeError], and the pairs before it stay entered.  So [None] and a
    number raise [TypeError], a string raises [ValueError] unless it is
    empty, and an empty list, tuple or array changes nothing.

    The records of this development have strings as keys: a pair whose
    key is a number, [None], a tuple or a transform is beyond them, and
    so is a transform given in place of a sequence or of a pair; they
    are taken to raise, and no property here relies on that. *)
Definition pair_of (x : value) : result (string * value) :=
  let keyed (a b : value) : result (string * value) :=
    match a with
    | VScalar (SStr k) => Ok (k, b)
    | _ => Raise TypeError
    end in
  match x with
  | VScalar (SStr s) =>
      match s with
      | String a (String b EmptyString) =>
          Ok (String a EmptyString, VStr (String b EmptyString))
      | _ => Raise ValueError
      end
  | VArr [a; b] => keyed (VScalar a) (VScalar b)
  | VList [a; b] | VTuple [a; b] => keyed a b
  | VDict [(k1, _); (k2, _)] => Ok (k1, VStr k2)
  | VArr _ | VList _ | VTuple _ | VDict _ => Raise ValueError
  | VNone | VScalar _ | VDim _ => Raise TypeError
  end.

Fixpoint update_seq (d : pydict) (xs : list value) : option exn * pydict :=
  match xs with
  | [] => (None, d)
  | x :: xs' =>
      match pair_of x with
      | Ok (k, y) => update_seq (dict_set k y d) xs'
      | Raise e => (Some e, d)
      end
  end.

Definition py_update (d : pydict) (v : value) : option exn * pydict :=
  match v with
  | VDict u => (None, dict_update d u)
  | VScalar (SStr s) =>
      update_seq d
        ((fun c => VStr (String c EmptyString)) <$> String.list_ascii_of_string s)
  | VArr xs => update_seq d (VScalar <$> xs)
  | VList xs | VTuple xs => update_seq d xs
  | VNone | VScalar _ | VDim _ => (Some TypeError, d)
  end.

(** Lines 168-172, one data item, with the trace and the options as it
    leaves them and the exception, if it raises. *)
Definition merge_item (st : trace * pydict) (kv : string * value)
  : option exn * (trace * pydict) :=
  let '(t, options) := st in
  let '(k, v) := kv in
  match dict_get k t with
  | Some Shared =>
      match dict_get k options with
      | Some (VDict d) =>
          let '(e, d') := py_update d v in
          (e, (t, dict_set k (VDict d') options))
      | _ => (Some TypeError, (t, options))
      end
  | Some (Own (VDict d)) =>
      let '(e, d') := py_update d v in
      (e, (dict_set k (Own (VDict d')) t, options))
  | _ => (None, (dict_set k (Own v) t, options))
  end.

Definition is_array (v : value) : bool :=
  match v with VArr _ => true | _ => false end.

(** Lines 178-179: [trace[style_key][s] = val[index]] for the array
    valued styles. *)
Definition select_index (index : nat) (d : pydict) (sv : string * value)
  : result pydict :=
  match sv.2 with
  | VArr xs =>
      match xs !! index with
      | Some x => Ok (dict_set sv.1 (VScalar x) d)
      | None => Raise IndexError
      end
  | _ => Ok d
  end.

(** Lines 174-179.  [options] is only read here. *)
Definition per_trace_styles (self : Plot) (index : nat)
    (t : trace) (options : pydict) : result trace :=
  match _style_key self with
  | Some sk =>
      if bool_decide (sk <> "") && _per_trace self then
        match dict_get sk options with
        | None => Raise (KeyError sk)
        | Some (VDict styles) =>
            let vectorized := filter (fun sv => is_array sv.2) styles in
            copy ← match dict_get sk t with
                   | Some Shared => Ok styles
                   | Some (Own (VDict d)) => Ok d
                   | Some (Own _) => Raise TypeError
                   | None => Raise (KeyError sk)
                   end;
            copy ← for_each (select_index index) vectorized copy;
            Ok (dict_set sk (Own (VDict copy)) t)
        | Some _ => Raise AttributeError
        end
      else Ok t
  | None => Ok t
  end.

(** A loop over a mutable object: when the body raises, the object stays
    as the body left it. *)
Fixpoint for_each_st {A S} (body : S -> A -> option exn * S) (xs : list A)
    (s : S) : option exn * S :=
  match xs with
  | [] => (None, s)
  | x :: xs' =>
      match body s x with
      | (None, s') => for_each_st body xs' s'
      | (Some e, s') => (Some e, s')
      end
  end.

(** The method returns the trace, or raises; in both cases the second
    component is [options] as the call leaves it. *)
Definition init_graph (self : Plot) (data options : pydict) (index : nat)
  : result trace * pydict :=
  match for_each_st merge_item data (shallow_copy options, options) with
  | (None, (t, options')) => (per_trace_styles self index t options', options')
  | (Some e, (_, options')) => (Raise e, options')
  end.

(** ** ElementPlot.graph_options *)

Section Graph.

Variable dim_range_key : eldim -> string.
Variable dim_str : dim -> string.
Variable get_colorscale : value -> value -> option num -> option num -> value.
Variable dim_applies : dim -> Element -> bool.
Variable dim_apply : dim -> Element -> range_table -> evalue.
(** The alias table of [plotly.util] and [Dimension.pprint_value_string]. *)
Variable STYLE_ALIASES : list (string * string).
Variable pprint_value_string : string -> scalar -> string.

(** [{STYLE_ALIASES.get(k, k): v for k, v in d.items()}] *)
Definition aliased (d : pydict) : pydict :=
  fold_left
    (fun acc kv => dict_set (default kv.1 (dict_get kv.1 STYLE_ALIASES)) kv.2 acc)
    d [].

Definition legend (self : Plot) (element : Element) : string :=
  match overlay_dims self with
  | [] => el_label element
  | ods => String.concat ", " ((fun dv => pprint_value_string dv.1 dv.2) <$> ods)
  end.

(** [dict(showlegend=..., legendgroup=..., name=..., **self.trace_kwargs)]:
    a keyword given twice is a [TypeError]. *)
Definition base_options (self : Plot) (element : Element) : result pydict :=
  let fixed := [("showlegend", VBool (show_legend self));
                ("legendgroup", VStr (el_group element));
                ("name", VStr (legend self element))] in
  if existsb (fun k => dict_mem k (trace_kwargs self)) (dict_keys fixed)
  then Raise TypeError
  else Ok (app fixed ((fun kv => (kv.1, VScalar kv.2)) <$> trace_kwargs self)).

(** The options, with the transform state ([style] as the call leaves
    it and the warnings). *)
Definition graph_options (self : Plot) (element : Element)
    (ranges : range_table) (style : pydict) : result (pydict * tstate) :=
  opts ← base_options self element;
  match _style_key self with
  | Some sk =>
      st ← _apply_transforms dim_range_key dim_str get_colorscale
             dim_applies dim_apply self element ranges style;
      Ok (dict_set sk (VDict (aliased (new_style st))) opts, st)
  | None =>
      Ok (dict_update opts
            (aliased (filter (fun kv => kv.1 <> "cmap") style)),
          start style)
  end.

End Graph.

(** ** Plot options and set_param *)

(** The [plot] options looked up for an element: a value for some of the
    declared parameters. *)
Record PlotOpts : Type := {
  o_invert_axes : option bool;
  o_labelled : option (list string);
  o_logx : option bool;
  o_logy : option bool;
  o_margins : option (Z * Z * Z * Z);
  o_show_legend : option bool;
  o_xticks : option value;
  o_yticks : option value;
  o_bgcolor : option value;
  o_width : option Z;
  o_height : option Z;
  o_colorbar : option bool;
  o_color_levels : option value;
  o_colorbar_opts : option pydict;
  o_symmetric : option bool
}.

(** [self.set_param] with the looked up options: the given parameters are assigned,
    the attributes that are not parameters are left alone. *)
Definition set_param (o : PlotOpts) (self : Plot) : Plot :=
  {| invert_axes := default (invert_axes self) (o_invert_axes o);
     labelled := default (labelled self) (o_labelled o);
     logx := default (logx self) (o_logx o);
     logy := default (logy self) (o_logy o);
     margins := default (margins self) (o_margins o);
     show_legend := default (show_legend self) (o_show_legend o);
     xticks := default (xticks self) (o_xticks o);
     yticks := default (yticks self) (o_yticks o);
     bgcolor := default (bgcolor self) (o_bgcolor o);
     width := default (width self) (o_width o);
     height := default (height self) (o_height o);
     trace_kwargs := trace_kwargs self;
     _style_key := _style_key self;
     _per_trace := _per_trace self;
     _nonvectorized_styles := _nonvectorized_styles self;
     overlay_dims := overlay_dims self;
     backend := backend self;
     cyclic_index := cyclic_index self;
     colorbar := default (colorbar self) (o_colorbar o);
     color_levels := default (color_levels self) (o_color_levels o);
     colorbar_opts := default (colorbar_opts self) (o_colorbar_opts o);
     symmetric := default (symmetric self) (o_symmetric o) |}.

(** ** Figures and ElementPlot.generate_plot *)

Record figure : Type := { fig_data : list pydict; fig_layout : pydict }.

(** The state of a plot instance that [generate_plot] reads and writes:
    its parameters and attributes and [handles['fig']]. *)
Record pstate : Type := { plot : Plot; fig_handle : option figure }.

(** Everything [generate_plot] calls outside this module.  The style
    lookup [self.lookup_options(element, 'style')[self.cyclic_index]]
    builds its dictionary on every call. *)
Record Externals : Type := {
  ext_dim_range_key : eldim -> string;
  ext_dim_str : dim -> string;
  ext_get_colorscale : value -> value -> option num -> option num -> value;
  ext_dim_applies : dim -> Element -> bool;
  ext_dim_apply : dim -> Element -> range_table -> evalue;
  ext_STYLE_ALIASES : list (string * string);
  ext_pprint_value_string : string -> scalar -> string;
  ext_py_str : value -> string;
  ext_get_extents : Plot -> Element -> range_table -> list num;
  ext_get_axis_labels : Plot -> list (option string) -> string * string * string;
  ext_format_title : Plot -> value -> string;
  ext_get_frame : value -> option Element;
  ext_plot_options : Element -> PlotOpts;
  ext_compute_ranges : value -> range_table -> range_table;
  ext_match_spec : Element -> range_table -> range_table;
  ext_lookup_style : Element -> nat -> pydict;
  ext_get_data : Plot -> Element -> range_table -> pydict -> list pydict
}.

(** Lines 127-131: the loop over [enumerate(data)], threading the
    [opts] object through the [init_graph] calls. *)
Fixpoint init_graphs (self : Plot) (data : list pydict) (index : nat)
    (opts : pydict) : result (list trace) * pydict :=
  match data with
  | [] => (Ok [], opts)
  | d :: data' =>
      match init_graph self d opts index with
      | (Ok t, opts') =>
          let '(r, opts'') := init_graphs self data' (S index) opts' in
          (match r with Ok ts => Ok (t :: ts) | Raise e => Raise e end, opts'')
      | (Raise e, opts') => (Raise e, opts')
      end
  end.

Section GeneratePlot.

Variable X : Externals.

Definition graph_options_of :=
  graph_options (ext_dim_range_key X) (ext_dim_str X) (ext_get_colorscale X)
    (ext_dim_applies X) (ext_dim_apply X) (ext_STYLE_ALIASES X)
    (ext_pprint_value_string X).

Definition init_layout_of :=
  init_layout (ext_py_str X) (ext_get_extents X) (ext_get_axis_labels X)
    (ext_format_title X).

(** Lines 111-141, for a frame that exists.  The figure is returned
    as it reads when the method returns. *)
Definition build_figure (self : Plot) (key : value) (element : Element)
    (ranges : range_table) : result figure :=
  let ranges := ext_match_spec X element (ext_compute_ranges X key ranges) in
  let style := ext_lookup_style X element (cyclic_index self) in
  let data := ext_get_data X self element ranges style in
  '(opts, _) ← graph_options_of self element ranges style;
  let '(graphs, opts') := init_graphs self data 0 opts in
  graphs ← graphs;
  layout ← init_layout_of self key element ranges;
  Ok {| fig_data := read_trace opts' <$> graphs; fig_layout := layout |}.

Definition generate_plot (st : pstate) (key : value) (ranges : range_table)
  : result figure * pstate :=
  match ext_get_frame X key with
  | None =>
      (match fig_handle st with
       | Some fig => Ok fig
       | None => Raise (KeyError "fig")
       end, st)
  | Some element =>
      let self := set_param (ext_plot_options X element) (plot st) in
      match build_figure self key element ranges with
      | Ok fig => (Ok fig, {| plot := self; fig_handle := Some fig |})
      | Raise e => (Raise e, {| plot := self; fig_handle := fig_handle st |})
      end
  end.

End GeneratePlot.

(** ** OverlayPlot.generate_plot *)

(** Modelled from the spec: [plotly.util.merge_figure] is imported by
    this module and defined outside it.  "The first child's figure seeds
    the combined trace list; every subsequent child's traces and layout
    are merged into it (trace lists concatenate in iteration order)".
    How two layouts merge is left to [merge_layout]. *)
Definition merge_figure (merge_layout : pydict -> pydict -> pydict)
    (fig subfig : figure) : figure :=
  {| fig_data := app (fig_data fig) (fig_data subfig);
     fig_layout := merge_layout (fig_layout fig) (fig_layout subfig) |}.

(** An overlay: its own parameters, its subplots in iteration order
    (each with its own collaborators) and [handles['fig']].
    [handle_shared] tells that the overlay's [handles['fig']] is the
    very object the first subplot holds in its own [handles['fig']], as
    a call that returned leaves them: what is merged into the one shows
    in the other. *)
Record ostate : Type := {
  oplot : Plot;
  subplots : list (Externals * pstate);
  ofig_handle : option figure;
  handle_shared : bool
}.

(** The first subplot has no frame for the key: its [generate_plot]
    returns the figure object it holds in [handles['fig']] (line 109)
    instead of a new one. *)
Definition first_is_stored (key : value)
    (subs : list (Externals * pstate)) : bool :=
  match subs with
  | (X, _) :: _ =>
      match ext_get_frame X key with None => true | Some _ => false end
  | [] => false
  end.

Module OverlayPlot.
Section Overlay.

Variable merge_layout : pydict -> pydict -> pydict.
(** The collaborators of the overlay itself. *)
Variable XO : Externals.

(** Lines 401-407.  [acc] is the figure being composed, [None] before
    the first subplot.  The subplots come back as the loop leaves
    them. *)
Fixpoint compose (key : value) (ranges : range_table)
    (subs : list (Externals * pstate)) (acc : option figure)
  : result (option figure) * option figure * list (Externals * pstate) :=
  match subs with
  | [] => (Ok acc, acc, [])
  | (X, st) :: subs' =>
      match generate_plot X st key ranges with
      | (Ok fig, st') =>
          let acc' := match acc with
                      | None => fig
                      | Some figure => merge_figure merge_layout figure fig
                      end in
          let '(r, final, rest) := compose key ranges subs' (Some acc') in
          (r, final, (X, st') :: rest)
      | (Raise e, st') => (Raise e, acc, (X, st') :: subs')
      end
  end.

(** [figure = fig] makes the composed figure the very object the
    first subplot keeps in [handles['fig']]: what the overlay does to
    the figure shows there. *)
Definition seed_alias (final : option figure)
    (subs : list (Externals * pstate)) : list (Externals * pstate) :=
  match final, subs with
  | Some figure, (X, st) :: subs' =>
      (X, {| plot := plot st; fig_handle := Some figure |}) :: subs'
  | _, _ => subs
  end.

Definition generate_plot (st : ostate) (key : value)
    (ranges : range_table) : result figure * ostate :=
  let element := ext_get_frame XO key in
  let ranges := ext_compute_ranges XO key ranges in
  let '(r, acc, subs) := compose key ranges (subplots st) None in
  (* the figure composed into is the object in the overlay's handles *)
  let same := handle_shared st && first_is_stored key (subplots st) in
  let fail e acc :=
    (Raise e, {| oplot := oplot st; subplots := seed_alias acc subs;
                 ofig_handle := match acc with
                                | Some figure =>
                                    if same then Some figure
                                    else ofig_handle st
                                | None => ofig_handle st
                                end;
                 handle_shared := match acc with
                                  | Some _ => same
                                  | None => handle_shared st
                                  end |}) in
  match r with
  | Raise e => fail e acc
  | Ok figure =>
      match
        match element with
        | Some el => init_layout_of XO (oplot st) key el ranges
        | None => Raise AttributeError
        end
      with
      | Raise e => fail e acc
      | Ok layout =>
          match figure with
          | None => fail TypeError acc
          | Some figure =>
              let figure :=
                {| fig_data := fig_data figure;
                   fig_layout := dict_update (fig_layout figure) layout |} in
              (Ok figure,
               {| oplot := oplot st;
                  subplots := seed_alias (Some figure) subs;
                  ofig_handle := Some figure;
                  handle_shared := true |})
          end
      end
  end.

End Overlay.
End OverlayPlot.

(** ** Concrete collaborators and inputs

    Instances used to run the definitions: a scatter element with the
    dimensions x, y, size and z, a plot with the declared defaults, and
    collaborators that read the element's columns. *)

Module Demo.

Definition points : Element :=
  {| el_type := "Scatter"; el_label := "pts"; el_group := "Scatter";
     el_dims := ["x"; "y"; "size"; "z"];
     el_range := fun d => if decide (d = "size") then (Fin 1, Fin 9)
                          else (Fin 0, Fin 10) |}.

Definition mk_plot (inv : bool) (sk : option string) (pt : bool)
    (nonvec : list string) (ov : list (string * scalar))
    (cb sym : bool) : Plot :=
  {| invert_axes := inv; labelled := ["x"; "y"]; logx := false;
     logy := false; margins := (50, 50, 50, 50)%Z; show_legend := false;
     xticks := VNone; yticks := VNone; bgcolor := VNone;
     width := 400; height := 300; trace_kwargs := [("type", SStr "scatter")];
     _style_key := sk; _per_trace := pt; _nonvectorized_styles := nonvec;
     overlay_dims := ov; backend := "plotly"; cyclic_index := 0;
     colorbar := cb; color_levels := VNone; colorbar_opts := [];
     symmetric := sym |}.

Definition plot0 : Plot := mk_plot false (Some "marker") false [] [] false false.

Definition n (z : Z) : scalar := SNum (Fin z).

Definition column (name : string) : list scalar :=
  if decide (name = "size") then [n 5; n 5; n 5]
  else if decide (name = "z") then [n (-3); n 1; n 2]
  else [n 0; n 5; n 10].

Definition dim_range_key (e : eldim) : string :=
  match e with
  | ElDim d => dimension d
  | ElDimension name _ => name
  | ElNone => ""
  end.

Definition dim_str (d : dim) : string := "'" +:+ dimension d +:+ "'".

Definition get_colorscale (cmap levels : value) (cmin cmax : option num)
  : value := cmap.

Definition dim_applies (d : dim) (element : Element) : bool :=
  bool_decide (dimension d ∈ el_dims element).

Definition dim_apply (d : dim) (element : Element) (ranges : range_table)
  : evalue := EArr (column (dimension d)).

Definition STYLE_ALIASES : list (string * string) :=
  [("line_width", "width"); ("alpha", "opacity");
   ("cell_height", "height"); ("marker", "symbol")].

Definition no_opts : PlotOpts :=
  {| o_invert_axes := None; o_labelled := None; o_logx := None;
     o_logy := None; o_margins := None; o_show_legend := None;
     o_xticks := None; o_yticks := None; o_bgcolor := None;
     o_width := None; o_height := None; o_colorbar := None;
     o_color_levels := None; o_colorbar_opts := None;
     o_symmetric := None |}.

(** Collaborators of a plot that shows [points] with the given style
    and data. *)
Definition externals (style : pydict) (data : list pydict) : Externals :=
  {| ext_dim_range_key := dim_range_key;
     ext_dim_str := dim_str;
     ext_get_colorscale := get_colorscale;
     ext_dim_applies := dim_applies;
     ext_dim_apply := dim_apply;
     ext_STYLE_ALIASES := STYLE_ALIASES;
     ext_pprint_value_string := fun d _ => d;
     ext_py_str := fun _ => "";
     ext_get_extents := fun _ _ _ => [Fin 0; Fin 0; Fin 10; Fin 20];
     ext_get_axis_labels := fun _ _ => ("x", "y", "");
     ext_format_title := fun _ _ => "";
     ext_get_frame := fun _ => Some points;
     ext_plot_options := fun _ => no_opts;
     ext_compute_ranges := fun _ r => r;
     ext_match_spec := fun _ r => r;
     ext_lookup_style := fun _ _ => style;
     ext_get_data := fun _ _ _ _ => data |}.

End Demo.

(** ** The specification's reading of the colour bounds

    Section 4.2 of the specification, word for word, to compare with
    [color_bounds]: the range table's combined bounds if present; else,
    for a derived (non-bare) transform, [auto] with undefined bounds;
    else the element's declared range. *)
Definition spec_color_bounds (dim_range_key : eldim -> string) (e : eldim)
    (element : Element) (ranges : range_table) : bool * (num * num) :=
  let dim_name := dim_range_key e in
  match ranges !! dim_name with
  | Some r => (false, combined r)
  | None =>
      match e with
      | ElDim (Dim _ (_ :: _)) => (true, (NaN, NaN))
      | _ => (false, el_range element dim_name)
      end
  end.

Definition is_transform (e : eldim) : bool :=
  match e with ElDim _ => true | _ => false end.

(** The keys that colour mapping writes into, or removes from, the
    resolved style (lines 250-251 with the keys of [get_color_opts]). *)
Definition color_keys : list string :=
  ["cmap"; "colorbar"; "showscale"; "cmin"; "cmax"; "cauto"; "colorscale"].

(** Lines 220-223: the attribute leaves the copy and a warning names it
    and its transform. *)
Definition dropped (st : tstate) (k : string) (d : dim) : tstate :=
  {| new_style := dict_pop k (new_style st);
     cur_style := cur_style st;
     warnings := app (warnings st) [(k, d)] |}.

(** The only change [get_color_opts] makes to a style. *)
Definition popped_or_same (style style' : pydict) : Prop :=
  style' = style \/ style' = dict_pop "cmap" style.

(** Reading an axis of a layout. *)
Definition axis_of (layout : pydict) (name : string) : option pydict :=
  match dict_get name layout with
  | Some (VDict axis) => Some axis
  | _ => None
  end.

Definition shown_label (self : Plot) (letter label : string) : string :=
  if bool_decide (letter ∈ labelled self) then label else "".

(** The trace list of a figure under composition. *)
Definition traces_of (acc : option figure) : list pydict :=
  from_option fig_data [] acc.

(** The child [sub] produces [fig] for this key and range table. *)
Definition produces (key : value) (ranges : range_table)
    (sub : Externals * pstate) (fig : figure) : Prop :=
  (generate_plot sub.1 sub.2 key ranges).1 = Ok fig.

(** An overlay of two scatter plots, the second with two traces. *)
Module DemoOverlay.

Definition fresh : pstate := {| plot := Demo.plot0; fig_handle := None |}.

Definition child_a : Externals :=
  Demo.externals [("size", VStr "size")]
    [[("x", VArr [Demo.n 0; Demo.n 1])]].

Definition child_b : Externals :=
  Demo.externals [] [[("x", VArr [Demo.n 2])]; [("x", VArr [Demo.n 3])]].

Definition overlay : ostate :=
  {| oplot := Demo.plot0;
     subplots := [(child_a, fresh); (child_b, fresh)];
     ofig_handle := None; handle_shared := false |}.

Definition figure_of (X : Externals) : figure :=
  match (generate_plot X fresh VNone ∅).1 with
  | Ok fig => fig
  | Raise _ => {| fig_data := []; fig_layout := [] |}
  end.

End DemoOverlay.


(** [isinstance(v, dict)] *)
Definition is_dict (v : value) : bool :=
  match v with VDict _ => true | _ => false end.

(** What a run of [init_graph] may do to the options: the keys stay, and
    an entry changes only from one nested record to another, under a key
    of the data. *)
Definition nested_update (keys : list string) (o o' : pydict) : Prop :=
  dict_keys o' = dict_keys o /\
  forall k, dict_get k o' = dict_get k o \/
            (k ∈ keys /\ exists d d', dict_get k o = Some (VDict d) /\
                                      dict_get k o' = Some (VDict d')).

(** During [init_graph] a trace entry is the shared record exactly when
    the options hold a nested record under that key. *)
Definition shared_inv (t : trace) (o : pydict) : Prop :=
  forall k, dict_get k t = Some Shared <->
            exists d, dict_get k o = Some (VDict d).

(** Every data field that meets a nested record of the options is a
    mapping itself, as in [marker=dict(...)]. *)
Definition merges_mappings (options data : pydict) : Prop :=
  forall k v d,
    (k, v) ∈ data -> dict_get k options = Some (VDict d) -> is_dict v = true.

(** A curve over a single dimension, and plots with logarithmic x axis
    and with tick overrides. *)
Module DemoLayout.

Definition series : Element :=
  {| el_type := "Curve"; el_label := "s"; el_group := "Curve";
     el_dims := ["t"]; el_range := fun _ => (Fin 0, Fin 1) |}.

Definition with_params (o : PlotOpts) : Plot := set_param o Demo.plot0.

Definition log_inverted : Plot :=
  with_params
    {| o_invert_axes := Some true; o_labelled := None; o_logx := Some true;
       o_logy := None; o_margins := None; o_show_legend := None;
       o_xticks := None; o_yticks := None; o_bgcolor := None;
       o_width := None; o_height := None; o_colorbar := None;
       o_color_levels := None; o_colorbar_opts := None;
       o_symmetric := None |}.

Definition with_xticks (ticks : value) : Plot :=
  with_params
    {| o_invert_axes := None; o_labelled := None; o_logx := None;
       o_logy := None; o_margins := None; o_show_legend := None;
       o_xticks := Some ticks; o_yticks := None; o_bgcolor := None;
       o_width := None; o_height := None; o_colorbar := None;
       o_color_levels := None; o_colorbar_opts := None;
       o_symmetric := None |}.

End DemoLayout.

(** ** ElementPlot.get_data, initialize_plot and update_frame *)

(** Lines 183-184: the base class has no data. *)
Definition get_data (element : Element) (ranges : range_table)
    (style : pydict) : list pydict := [].

(** A plot with its frame keys and the [drawn] flag. *)
Record eplot : Type := {
  state : pstate;
  keys : list value;
  drawn : bool
}.

(** Lines 96-103: the last key is drawn ([self.keys[-1]] needs a key);
    [drawn] is set once the figure is there. *)
Definition initialize_plot (X : Externals) (p : eplot) (ranges : range_table)
  : result figure * eplot :=
  match last (keys p) with
  | None => (Raise IndexError, p)
  | Some key =>
      match generate_plot X (state p) key ranges with
      | (Ok fig, st') =>
          (Ok fig, {| state := st'; keys := keys p; drawn := true |})
      | (Raise e, st') =>
          (Raise e, {| state := st'; keys := keys p; drawn := drawn p |})
      end
  end.

(** Lines 316-321: the figure is regenerated and not returned. *)
Definition update_frame (X : Externals) (p : eplot) (key : value)
    (ranges : range_table) : result unit * eplot :=
  match generate_plot X (state p) key ranges with
  | (Ok _, st') => (Ok (), {| state := st'; keys := keys p; drawn := drawn p |})
  | (Raise e, st') =>
      (Raise e, {| state := st'; keys := keys p; drawn := drawn p |})
  end.

(** A plot that has a frame for key 0 only, with one data record. *)
Module DemoFrames.

Definition with_frames (X : Externals) (frames : value -> option Element)
  : Externals :=
  {| ext_dim_range_key := ext_dim_range_key X;
     ext_dim_str := ext_dim_str X;
     ext_get_colorscale := ext_get_colorscale X;
     ext_dim_applies := ext_dim_applies X;
     ext_dim_apply := ext_dim_apply X;
     ext_STYLE_ALIASES := ext_STYLE_ALIASES X;
     ext_pprint_value_string := ext_pprint_value_string X;
     ext_py_str := ext_py_str X;
     ext_get_extents := ext_get_extents X;
     ext_get_axis_labels := ext_get_axis_labels X;
     ext_format_title := ext_format_title X;
     ext_get_frame := frames;
     ext_plot_options := ext_plot_options X;
     ext_compute_ranges := ext_compute_ranges X;
     ext_match_spec := ext_match_spec X;
     ext_lookup_style := ext_lookup_style X;
     ext_get_data := ext_get_data X |}.

Definition only_zero (key : value) : option Element :=
  match key with
  | VScalar (SNum (Fin 0)) => Some Demo.points
  | _ => None
  end.

Definition sparse : Externals :=
  with_frames
    (Demo.externals [("size", VStr "size")] [[("x", VArr [Demo.n 0; Demo.n 1])]])
    only_zero.

Definition fresh : pstate := {| plot := Demo.plot0; fig_handle := None |}.

Definition drawn_once : figure * pstate :=
  match generate_plot sparse fresh (VNum (Fin 0)) ∅ with
  | (Ok fig, st) => (fig, st)
  | (Raise _, st) => ({| fig_data := []; fig_layout := [] |}, st)
  end.

End DemoFrames.

(** Overlays that fail: one without subplots, and one whose second
    subplot has neither a frame for the key nor a figure yet. *)
Module DemoOverlayErrors.

Definition empty : ostate :=
  {| oplot := Demo.plot0; subplots := []; ofig_handle := None;
     handle_shared := false |}.

Definition broken : ostate :=
  {| oplot := Demo.plot0;
     subplots := [(DemoOverlay.child_a, DemoOverlay.fresh);
                  (DemoFrames.sparse, DemoFrames.fresh);
                  (DemoOverlay.child_b, DemoOverlay.fresh)];
     ofig_handle := None; handle_shared := false |}.

(** An overlay over several keys: the first subplot has a frame for key
    0 only, the last has for every other key an element without
    dimensions, for which no layout can be built. *)
Definition no_dims : Element :=
  {| el_type := "Scatter"; el_label := "none"; el_group := "Scatter";
     el_dims := []; el_range := fun _ => (Fin 0, Fin 1) |}.

Definition zero_or_no_dims (key : value) : option Element :=
  match key with
  | VScalar (SNum (Fin 0)) => Some Demo.points
  | _ => Some no_dims
  end.

Definition fails_later : Externals :=
  DemoFrames.with_frames
    (Demo.externals [] [[("x", VArr [Demo.n 4])]]) zero_or_no_dims.

Definition animated : ostate :=
  {| oplot := Demo.plot0;
     subplots := [(DemoFrames.sparse, DemoFrames.fresh);
                  (DemoOverlay.child_b, DemoOverlay.fresh);
                  (fails_later, DemoOverlay.fresh)];
     ofig_handle := None; handle_shared := false |}.

(** The overlay as drawing key 0 leaves it. *)
Definition drawn : ostate :=
  (OverlayPlot.generate_plot dict_update (Demo.externals [] []) animated
     (VNum (Fin 0)) ∅).2.

End DemoOverlayErrors.

(** * Properties *)

(** ** Dictionary lemmas *)

Section DictLemmas.

Context {A : Type}.
Implicit Types (d u : list (string * A)) (k : string).

Lemma dict_get_set_eq k (v : A) d : dict_get k (dict_set k v d) = Some v.
Proof.
  induction d as [|[k' v'] d IH]; simpl.
  - by rewrite decide_True.
  - destruct (decide (k = k')) as [->|Hne]; simpl.
    + by rewrite decide_True.
    + by rewrite decide_False.
Qed.

Lemma dict_get_set_ne k k' (v : A) d :
  k <> k' -> dict_get k (dict_set k' v d) = dict_get k d.
Proof.
  intros Hne. induction d as [|[k0 v0] d IH]; simpl.
  - by rewrite decide_False.
  - destruct (decide (k' = k0)) as [->|Hne0]; simpl.
    + by rewrite !decide_False.
    + destruct (decide (k = k0)); [done|apply IH].
Qed.

Lemma dict_get_pop_eq k d : dict_get k (dict_pop k d) = None.
Proof.
  induction d as [|[k' v'] d IH]; simpl; [done|].
  destruct (decide (k = k')) as [->|Hne]; simpl; [done|].
  by rewrite decide_False.
Qed.

Lemma dict_get_pop_ne k k' d :
  k <> k' -> dict_get k (dict_pop k' d) = dict_get k d.
Proof.
  intros Hne. induction d as [|[k0 v0] d IH]; simpl; [done|].
  destruct (decide (k' = k0)) as [->|Hne0]; simpl.
  - by rewrite decide_False.
  - destruct (decide (k = k0)); [done|apply IH].
Qed.

Lemma dict_get_update_None k d u :
  dict_get k u = None -> dict_get k (dict_update d u) = dict_get k d.
Proof.
  unfold dict_update. revert d.
  induction u as [|[k' v'] u IH]; intros d Hk; simpl in *; [done|].
  destruct (decide (k = k')) as [->|Hne]; [done|].
  rewrite IH; [|done]. by apply dict_get_set_ne.
Qed.

Lemma dict_get_None_notin k d :
  dict_get k d = None <-> k ∉ dict_keys d.
Proof.
  unfold dict_keys. induction d as [|[k' v'] d IH]; simpl.
  - split; [intros _; apply not_elem_of_nil|done].
  - rewrite not_elem_of_cons. destruct (decide (k = k')) as [->|Hne].
    + split; [done|]. by intros [? _].
    + rewrite IH. tauto.
Qed.

Lemma dict_get_app_notin k d u :
  dict_get k d = None -> dict_get k (app d u) = dict_get k u.
Proof.
  induction d as [|[k' v'] d IH]; simpl; [done|].
  destruct (decide (k = k')); [done|apply IH].
Qed.

End DictLemmas.

(** ** Colour options *)

Section ColorOptsFacts.

Variable dim_range_key : eldim -> string.
Variable dim_str : dim -> string.
Variable get_colorscale : value -> value -> option num -> option num -> value.

Local Abbreviation color_opts :=
  (get_color_opts dim_range_key dim_str get_colorscale).
Local Abbreviation bounds := (resolve_bounds dim_range_key).

(** The keys [colorbar_entry] may set. *)
Lemma colorbar_entry_keys self e opts k :
  colorbar_entry dim_str self e = Ok opts ->
  k <> "colorbar" -> k <> "showscale" -> dict_get k opts = None.
Proof.
  unfold colorbar_entry. intros H Hc Hs.
  destruct (colorbar self).
  - destruct e as [d| |]; simpl in H; try discriminate;
      destruct (dict_mem "title" (colorbar_opts self)); try discriminate;
      injection H as <-; simpl; by rewrite decide_False.
  - injection H as <-. simpl. by rewrite decide_False.
Qed.

(** What a successful call returns, field by field. *)
Lemma get_color_opts_Ok self e element ranges style opts style' :
  color_opts self e element ranges style = Ok (opts, style') ->
  style' = dict_pop "cmap" style /\
  dict_get "cauto" opts = Some (VBool (bounds self e element ranges).1) /\
  match (bounds self e element ranges).2 with
  | Some (cmin, cmax) =>
      dict_get "cmin" opts = Some (VNum cmin) /\
      dict_get "cmax" opts = Some (VNum cmax)
  | None => dict_get "cmin" opts = None /\ dict_get "cmax" opts = None
  end.
Proof.
  unfold get_color_opts. intros H.
  destruct (colorbar_entry dim_str self e) as [opts0|] eqn:Hcb;
    simpl in H; [|discriminate].
  destruct (resolve_bounds dim_range_key self e element ranges)
    as [auto b] eqn:Hb.
  injection H as <- <-. split; [done|]. simpl.
  assert (Hk : forall k, k <> "colorbar" -> k <> "showscale" ->
                         dict_get k opts0 = None)
    by (intros; by eapply colorbar_entry_keys).
  split.
  - rewrite dict_get_set_ne by done. by rewrite dict_get_set_eq.
  - destruct b as [[cmin cmax]|].
    + split.
      * rewrite !dict_get_set_ne by done. by rewrite dict_get_set_eq.
      * rewrite !dict_get_set_ne by done. by rewrite dict_get_set_eq.
    + split; rewrite !dict_get_set_ne by done; by apply Hk.
Qed.

Lemma resolve_bounds_auto self e element ranges :
  (bounds self e element ranges).1 = true <->
  truthy e = false \/
  (ranges !! dim_range_key e = None /\ is_transform e = true).
Proof.
  unfold resolve_bounds, color_bounds.
  destruct e as [d|nm lb|]; simpl;
    destruct (ranges !! _); simpl; intuition congruence.
Qed.

(** C6 (amended).  The [cauto] entry is true exactly when there is no
    dimension context, or the range table has no entry for the backing
    dimension and the attribute is a [dim] transform (bare or derived).
    With a dimension context and without the symmetric option, the
    bounds are the table's combined entry if there is one, else
    [nan, nan] for any transform, else the element's declared range. *)
Theorem color_bounds_resolved self e element ranges style opts style' :
  color_opts self e element ranges style = Ok (opts, style') ->
  (exists auto,
      dict_get "cauto" opts = Some (VBool auto) /\
      (auto = true <->
       truthy e = false \/
       (ranges !! dim_range_key e = None /\ is_transform e = true))) /\
  (truthy e = true -> symmetric self = false ->
   exists cmin cmax,
     dict_get "cmin" opts = Some (VNum cmin) /\
     dict_get "cmax" opts = Some (VNum cmax) /\
     match ranges !! dim_range_key e with
     | Some r => (cmin, cmax) = combined r
     | None =>
         if is_transform e then (cmin, cmax) = (NaN, NaN)
         else (cmin, cmax) = el_range element (dim_range_key e)
     end).
Proof.
  intros H. apply get_color_opts_Ok in H as (_ & Hauto & Hb). split.
  - eexists. split; [exact Hauto|]. apply resolve_bounds_auto.
  - intros Ht Hs. revert Hb. unfold resolve_bounds, color_bounds.
    rewrite Ht, Hs.
    destruct (ranges !! dim_range_key e) as [r|] eqn:Hr.
    + destruct (combined r) as [c0 c1] eqn:Hc. simpl. intros [? ?].
      by exists c0, c1.
    + destruct e as [d|nm lb|]; simpl in *; try discriminate.
      * intros [? ?]. by exists NaN, NaN.
      * destruct (el_range element (dim_range_key (ElDimension nm lb)))
          as [c0 c1] eqn:Hc. simpl. intros [? ?]. by exists c0, c1.
Qed.

(** C7.  With the symmetric option and a dimension context, the
    resolved pair is [(-m, m)] for [m] the larger absolute value of
    the bounds found before the option is applied. *)
Theorem symmetric_bounds_resolved self e element ranges style opts style' :
  symmetric self = true -> truthy e = true ->
  color_opts self e element ranges style = Ok (opts, style') ->
  let orig := (color_bounds dim_range_key e element ranges).2 in
  let m := num_max (num_abs orig.1) (num_abs orig.2) in
  dict_get "cmax" opts = Some (VNum m) /\
  dict_get "cmin" opts = Some (VNum (num_neg m)) /\
  (forall a b, orig = (Fin a, Fin b) ->
     m = Fin (Z.max (Z.abs a) (Z.abs b)) /\
     num_neg m = Fin (- Z.max (Z.abs a) (Z.abs b))).
Proof.
  intros Hs Ht H. apply get_color_opts_Ok in H as (_ & _ & Hb).
  revert Hb. unfold resolve_bounds. rewrite Ht, Hs.
  destruct (color_bounds dim_range_key e element ranges) as [auto [c0 c1]].
  simpl. intros [Hmin Hmax]. split; [done|]. split; [done|].
  by intros a b [= -> ->].
Qed.

End ColorOptsFacts.

(** C6, as the specification words it, fails in both directions.  A
    bare transform [dim('size')] without a range table entry gets [auto]
    and [nan] bounds although the element declares the finite range
    (1, 9) for size; and a range table entry that is not finite is used
    as it is, with [auto] false. *)
Lemma auto_is_not_finiteness :
  let bare := ElDim (Dim "size" []) in
  let undefined : range_table := {[ "size" := {| combined := (NaN, NaN) |} ]} in
  (color_bounds Demo.dim_range_key bare Demo.points ∅ = (true, (NaN, NaN)) /\
   el_range Demo.points "size" = (Fin 1, Fin 9) /\
   color_bounds Demo.dim_range_key bare Demo.points ∅
   <> spec_color_bounds Demo.dim_range_key bare Demo.points ∅) /\
  (resolve_bounds Demo.dim_range_key Demo.plot0 (ElDimension "size" "Size")
     Demo.points undefined = (false, Some (NaN, NaN))).
Proof. by vm_compute. Qed.

Lemma color_bounds_resolved_witness :
  let e := ElDimension "size" "Size" in
  let ranges : range_table := {[ "size" := {| combined := (Fin 2, Fin 7) |} ]} in
  exists opts style',
    get_color_opts Demo.dim_range_key Demo.dim_str Demo.get_colorscale
      Demo.plot0 e Demo.points ranges [("cmap", VStr "reds")]
    = Ok (opts, style') /\
    dict_get "cauto" opts = Some (VBool false) /\
    dict_get "cmin" opts = Some (VNum (Fin 2)) /\
    dict_get "cmax" opts = Some (VNum (Fin 7)).
Proof.
  intros e ranges. eexists _, _. split; [reflexivity|].
  destruct (color_bounds_resolved Demo.dim_range_key Demo.dim_str
              Demo.get_colorscale Demo.plot0 e Demo.points ranges
              [("cmap", VStr "reds")] _ _ eq_refl)
    as [(auto & Ha & Hiff) Hb].
  destruct (Hb eq_refl eq_refl) as (cmin & cmax & Hmin & Hmax & Heq).
  vm_compute in Heq. injection Heq as -> ->.
  split; [|by split].
  destruct auto; [|exact Ha].
  destruct (proj1 Hiff eq_refl) as [Hf|[Hn _]];
    [vm_compute in Hf|vm_compute in Hn]; discriminate.
Defined.

Lemma symmetric_bounds_witness :
  let self := Demo.mk_plot false (Some "marker") false [] [] false true in
  let e := ElDimension "z" "Z" in
  let ranges : range_table := {[ "z" := {| combined := (Fin (-3), Fin 2) |} ]} in
  exists opts style',
    get_color_opts Demo.dim_range_key Demo.dim_str Demo.get_colorscale
      self e Demo.points ranges [] = Ok (opts, style') /\
    dict_get "cmax" opts = Some (VNum (Fin 3)) /\
    dict_get "cmin" opts = Some (VNum (Fin (-3))).
Proof.
  intros self e ranges. eexists _, _. split; [reflexivity|].
  destruct (symmetric_bounds_resolved Demo.dim_range_key Demo.dim_str
              Demo.get_colorscale self e Demo.points ranges [] _ _
              eq_refl eq_refl eq_refl) as (Hmax & Hmin & _).
  split; [exact Hmax|exact Hmin].
Defined.

(** Closed decidable facts, by evaluation. *)
Ltac by_evaluation := apply (bool_decide_unpack _); vm_compute; exact I.

(** ** Loops *)

Lemma for_each_app {A S} (body : S -> A -> result S) xs ys s :
  for_each body (app xs ys) s =
  match for_each body xs s with
  | Ok s' => for_each body ys s'
  | Raise e => Raise e
  end.
Proof.
  revert s. induction xs as [|x xs IH]; intros s; simpl; [done|].
  destruct (body s x); [apply IH|done].
Qed.

(** An invariant of the body holds after the loop. *)
Lemma for_each_invariant {A S} (body : S -> A -> result S) (P : S -> Prop) xs :
  (forall s x s', x ∈ xs -> P s -> body s x = Ok s' -> P s') ->
  forall s s', P s -> for_each body xs s = Ok s' -> P s'.
Proof.
  induction xs as [|x xs IH]; intros Hstep s s' Hs; simpl.
  - by intros [= <-].
  - destruct (body s x) as [s1|] eqn:Hb; [|done].
    apply IH.
    + intros ? ? ? Hin. apply Hstep. by apply list_elem_of_further.
    + eapply Hstep; [apply list_elem_of_here|done..].
Qed.

Section DictMore.

Context {A : Type}.
Implicit Types (d u : list (string * A)) (k : string).

Lemma dict_get_set_is_Some k k' (v : A) d :
  is_Some (dict_get k d) -> is_Some (dict_get k (dict_set k' v d)).
Proof.
  intros H. destruct (decide (k = k')) as [->|Hne].
  - rewrite dict_get_set_eq. by eexists.
  - by rewrite dict_get_set_ne.
Qed.

Lemma dict_get_update_is_Some k d u :
  is_Some (dict_get k d) -> is_Some (dict_get k (dict_update d u)).
Proof.
  unfold dict_update. revert d.
  induction u as [|[k' v'] u IH]; intros d H; simpl; [done|].
  apply IH. by apply dict_get_set_is_Some.
Qed.

Lemma dict_pop_pop k d : dict_pop k (dict_pop k d) = dict_pop k d.
Proof.
  induction d as [|[k' v'] d IH]; simpl; [done|].
  destruct (decide (k = k')) as [->|Hne]; simpl; [done|].
  rewrite decide_False by done. by rewrite IH.
Qed.

Lemma dict_pop_notin k d : dict_get k d = None -> dict_pop k d = d.
Proof.
  induction d as [|[k' v'] d IH]; simpl; [done|].
  destruct (decide (k = k')) as [->|Hne]; [done|].
  intros H. by rewrite IH.
Qed.

End DictMore.

(** ** Style transforms *)

Section TransformFacts.

Variable dim_range_key : eldim -> string.
Variable dim_str : dim -> string.
Variable get_colorscale : value -> value -> option num -> option num -> value.
Variable dim_applies : dim -> Element -> bool.
Variable dim_apply : dim -> Element -> range_table -> evalue.

Local Abbreviation step :=
  (transform_step dim_range_key dim_str get_colorscale dim_applies dim_apply).
Local Abbreviation apply_transforms :=
  (_apply_transforms dim_range_key dim_str get_colorscale dim_applies dim_apply).
Local Abbreviation eval := (evaluate dim_apply).
Local Abbreviation applic := (applicable dim_applies).

Lemma get_color_opts_keys self e element ranges style opts style' k :
  get_color_opts dim_range_key dim_str get_colorscale
    self e element ranges style = Ok (opts, style') ->
  k ∉ color_keys -> dict_get k opts = None.
Proof.
  unfold get_color_opts, color_keys. intros H Hk.
  rewrite !not_elem_of_cons in Hk.
  destruct Hk as (_ & ? & ? & ? & ? & ? & ? & _).
  destruct (colorbar_entry dim_str self e) as [opts0|] eqn:Hcb;
    simpl in H; [|discriminate].
  destruct (resolve_bounds dim_range_key self e element ranges) as [auto b].
  injection H as <- <-.
  destruct b as [[cmin cmax]|]; rewrite !dict_get_set_ne by done;
    by eapply colorbar_entry_keys.
Qed.

(** An iteration leaves the other attributes of the copy alone,
    except for the keys of colour mapping. *)
Lemma transform_step_frame self element ranges st k' v' st' k :
  step self element ranges st (k', v') = Ok st' ->
  k <> k' -> k ∉ color_keys ->
  dict_get k (new_style st') = dict_get k (new_style st).
Proof.
  unfold transform_step. intros H Hne Hk.
  assert (k <> "cmap") as Hcmap
    by (intros ->; apply Hk; apply list_elem_of_here).
  destruct (coerce self element v') as [| | |d| | |]; try by injection H as <-.
  destruct (negb (applicable dim_applies self element d)).
  { destruct (dict_mem k' (new_style st)); [|done].
    injection H as <-. simpl. by apply dict_get_pop_ne. }
  destruct (negb _ && bool_decide _); [done|].
  destruct (contains "color" k' && numeric _).
  - destruct (get_color_opts _ _ _ _ _ _ _ _) as [[copts style']|] eqn:Hco;
      simpl in H; [|done].
    injection H as <-. simpl.
    rewrite dict_get_set_ne by done.
    rewrite dict_get_update_None by (by eapply get_color_opts_keys).
    by apply dict_get_pop_ne.
  - injection H as <-. simpl. by apply dict_get_set_ne.
Qed.

(** What an iteration assigns to the attribute it resolves. *)
Lemma transform_step_assigns self element ranges st k v st' d :
  step self element ranges st (k, v) = Ok st' ->
  coerce self element v = VDim d ->
  applic self element d = true ->
  dict_get k (new_style st')
  = Some (to_value (collapse k (eval self element ranges d))).
Proof.
  unfold transform_step. intros H Hc Ha. rewrite Hc, Ha in H. simpl in H.
  destruct (negb _ && bool_decide _); [done|].
  destruct (contains "color" k && numeric _).
  - destruct (get_color_opts _ _ _ _ _ _ _ _) as [[copts style']|];
      simpl in H; [|done].
    injection H as <-. simpl. apply dict_get_set_eq.
  - injection H as <-. simpl. apply dict_get_set_eq.
Qed.

Lemma apply_transforms_frame self element ranges items st st' k :
  for_each (step self element ranges) items st = Ok st' ->
  k ∉ dict_keys items -> k ∉ color_keys ->
  dict_get k (new_style st') = dict_get k (new_style st).
Proof.
  revert st. induction items as [|[k' v'] items IH]; intros st H Hin Hk;
    cbn [for_each] in H.
  - by injection H as <-.
  - unfold dict_keys in Hin. simpl in Hin.
    apply not_elem_of_cons in Hin as [Hne Hin].
    destruct (step self element ranges st (k', v')) as [st1|] eqn:Hs; [|done].
    rewrite (IH st1) by done.
    by eapply transform_step_frame.
Qed.

Lemma keys_after_unique {A} (pre post : list (string * A)) k (v : A) :
  NoDup (dict_keys (app pre ((k, v) :: post))) ->
  (k ∉ dict_keys pre) /\ (k ∉ dict_keys post).
Proof.
  unfold dict_keys. rewrite fmap_app, fmap_cons. simpl.
  intros (_ & Hdisj & Hnd)%NoDup_app.
  apply NoDup_cons in Hnd as [Hpost _]. split; [|done].
  intros Hin. apply (Hdisj _ Hin). apply list_elem_of_here.
Qed.

(** The run of the whole loop, split at one attribute. *)
Lemma apply_transforms_split self element ranges pre kv post :
  apply_transforms self element ranges (app pre (kv :: post)) =
  match for_each (step self element ranges) pre
          (start (app pre (kv :: post))) with
  | Ok st =>
      match step self element ranges st kv with
      | Ok st' => for_each (step self element ranges) post st'
      | Raise e => Raise e
      end
  | Raise e => Raise e
  end.
Proof. unfold _apply_transforms. by rewrite for_each_app. Qed.

(** C3.  An attribute whose transform evaluates to an array with one
    distinct value resolves to that scalar when its name does not
    contain [color], and to the whole array when it does.  (The
    attribute is not itself one of the keys colour mapping writes.) *)
Theorem collapse_resolved self element ranges style k v d x xs st :
  NoDup (dict_keys style) -> (k, v) ∈ style -> k ∉ color_keys ->
  coerce self element v = VDim d ->
  applic self element d = true ->
  eval self element ranges d = EArr (x :: xs) ->
  length (unique_array (x :: xs)) = 1 ->
  apply_transforms self element ranges style = Ok st ->
  dict_get k (new_style st) =
    Some (if contains "color" k then VArr (x :: xs) else VScalar x).
Proof.
  intros Hnd (pre & post & ->)%list_elem_of_split Hk Hc Ha He Hu.
  apply keys_after_unique in Hnd as [_ Hpost].
  rewrite apply_transforms_split.
  destruct (for_each _ pre _) as [st1|]; [|done].
  destruct (step self element ranges st1 (k, v)) as [st2|] eqn:Hs; [|done].
  intros Hrun.
  rewrite (apply_transforms_frame _ _ _ _ _ _ _ Hrun Hpost Hk).
  rewrite (transform_step_assigns _ _ _ _ _ _ _ _ Hs Hc Ha), He.
  unfold collapse. rewrite bool_decide_true by done.
  by destruct (contains "color" k).
Qed.

End TransformFacts.

Lemma collapse_resolved_witness :
  exists st,
    _apply_transforms Demo.dim_range_key Demo.dim_str Demo.get_colorscale
      Demo.dim_applies Demo.dim_apply Demo.plot0 Demo.points ∅
      [("size", VStr "size"); ("color", VStr "size")] = Ok st /\
    dict_get "size" (new_style st) = Some (VScalar (Demo.n 5)).
Proof.
  eexists. split; [reflexivity|].
  apply (collapse_resolved Demo.dim_range_key Demo.dim_str Demo.get_colorscale
           Demo.dim_applies Demo.dim_apply Demo.plot0 Demo.points ∅
           [("size", VStr "size"); ("color", VStr "size")]
           "size" (VStr "size") (Dim "size" []) (Demo.n 5)
           [Demo.n 5; Demo.n 5]).
  - by_evaluation.
  - apply list_elem_of_here.
  - by_evaluation.
  - reflexivity.
  - reflexivity.
  - reflexivity.
  - reflexivity.
  - reflexivity.
Defined.

Section TransformClaims.

Variable dim_range_key : eldim -> string.
Variable dim_str : dim -> string.
Variable get_colorscale : value -> value -> option num -> option num -> value.
Variable dim_applies : dim -> Element -> bool.
Variable dim_apply : dim -> Element -> range_table -> evalue.

Local Abbreviation step :=
  (transform_step dim_range_key dim_str get_colorscale dim_applies dim_apply).
Local Abbreviation apply_transforms :=
  (_apply_transforms dim_range_key dim_str get_colorscale dim_applies dim_apply).
Local Abbreviation eval := (evaluate dim_apply).
Local Abbreviation applic := (applicable dim_applies).

(** *** The fatal guard *)

Lemma transform_step_raises self element ranges st k v d xs :
  coerce self element v = VDim d ->
  applic self element d = true ->
  collapse k (eval self element ranges d) = EArr xs ->
  k ∈ _nonvectorized_styles self ->
  step self element ranges st (k, v)
  = Raise (NonVectorized k (dimension d) (el_type element) (backend self)).
Proof.
  unfold transform_step. intros -> -> -> Hk. simpl.
  by rewrite bool_decide_true.
Qed.

(** C4.  An attribute on the non-vectorizable list whose value is still
    an array after the collapse makes [_apply_transforms] raise: no
    resolved style is returned, and when the attributes before it
    resolve, the error is the one naming the attribute, the dimension,
    the element type and the backend. *)
Theorem nonvectorized_raises self element ranges pre k v post d xs :
  coerce self element v = VDim d ->
  applic self element d = true ->
  collapse k (eval self element ranges d) = EArr xs ->
  k ∈ _nonvectorized_styles self ->
  (forall st,
      apply_transforms self element ranges (app pre ((k, v) :: post))
      <> Ok st) /\
  (forall st,
      for_each (step self element ranges) pre
        (start (app pre ((k, v) :: post))) = Ok st ->
      apply_transforms self element ranges (app pre ((k, v) :: post))
      = Raise (NonVectorized k (dimension d) (el_type element)
                 (backend self))).
Proof.
  intros Hc Ha Hv Hk.
  pose proof (fun st => transform_step_raises self element ranges st
                          k v d xs Hc Ha Hv Hk) as Hraise.
  split; intros st; rewrite apply_transforms_split.
  - destruct (for_each _ pre _) as [st1|]; [|done]. by rewrite Hraise.
  - intros ->. by rewrite Hraise.
Qed.

End TransformClaims.

Lemma nonvectorized_raises_witness :
  let self := Demo.mk_plot false (Some "marker") false ["symbol"] [] false false in
  _apply_transforms Demo.dim_range_key Demo.dim_str Demo.get_colorscale
    Demo.dim_applies Demo.dim_apply self Demo.points ∅
    [("size", VStr "size"); ("symbol", VStr "z"); ("alpha", VNum (Fin 1))]
  = Raise (NonVectorized "symbol" "z" "Scatter" "plotly").
Proof.
  intros self.
  exact (proj2
           (nonvectorized_raises Demo.dim_range_key Demo.dim_str
              Demo.get_colorscale Demo.dim_applies Demo.dim_apply self
              Demo.points ∅ [("size", VStr "size")] "symbol" (VStr "z")
              [("alpha", VNum (Fin 1))] (Dim "z" [])
              [Demo.n (-3); Demo.n 1; Demo.n 2]
              eq_refl eq_refl eq_refl ltac:(by_evaluation))
           _ eq_refl).
Defined.

Section TransformRecovery.

Variable dim_range_key : eldim -> string.
Variable dim_str : dim -> string.
Variable get_colorscale : value -> value -> option num -> option num -> value.
Variable dim_applies : dim -> Element -> bool.
Variable dim_apply : dim -> Element -> range_table -> evalue.

Local Abbreviation step :=
  (transform_step dim_range_key dim_str get_colorscale dim_applies dim_apply).
Local Abbreviation apply_transforms :=
  (_apply_transforms dim_range_key dim_str get_colorscale dim_applies dim_apply).
Local Abbreviation applic := (applicable dim_applies).

(** *** Unresolvable transforms *)

Lemma transform_step_drops self element ranges st k v d :
  coerce self element v = VDim d ->
  applic self element d = false ->
  is_Some (dict_get k (new_style st)) ->
  step self element ranges st (k, v) = Ok (dropped st k d).
Proof.
  unfold transform_step. intros -> -> [x Hx]. simpl.
  unfold dict_mem. by rewrite Hx.
Qed.

(** An attribute stays in the copy until its own iteration, unless it
    is [cmap]. *)
Lemma transform_step_keeps self element ranges st k' v' st' k :
  step self element ranges st (k', v') = Ok st' ->
  k <> k' -> k <> "cmap" ->
  is_Some (dict_get k (new_style st)) ->
  is_Some (dict_get k (new_style st')).
Proof.
  unfold transform_step. intros H Hne Hcmap Hin.
  destruct (coerce self element v') as [| | |d| | |]; try by injection H as <-.
  destruct (negb (applicable dim_applies self element d)).
  { destruct (dict_mem k' (new_style st)); [|done].
    injection H as <-. simpl. by rewrite dict_get_pop_ne. }
  destruct (negb _ && bool_decide _); [done|].
  destruct (contains "color" k' && numeric _).
  - destruct (get_color_opts _ _ _ _ _ _ _ _) as [[copts style']|];
      simpl in H; [|done].
    injection H as <-. simpl.
    apply dict_get_set_is_Some, dict_get_update_is_Some.
    by rewrite dict_get_pop_ne.
  - injection H as <-. simpl. by apply dict_get_set_is_Some.
Qed.

Lemma apply_transforms_keeps self element ranges items st st' k :
  for_each (step self element ranges) items st = Ok st' ->
  k ∉ dict_keys items -> k <> "cmap" ->
  is_Some (dict_get k (new_style st)) ->
  is_Some (dict_get k (new_style st')).
Proof.
  revert st. induction items as [|[k' v'] items IH]; intros st H Hin Hk Hs;
    cbn [for_each] in H.
  - by injection H as <-.
  - unfold dict_keys in Hin. simpl in Hin.
    apply not_elem_of_cons in Hin as [Hne Hin].
    destruct (step self element ranges st (k', v')) as [st1|] eqn:Hst; [|done].
    apply (IH st1); [done..|]. by eapply transform_step_keeps.
Qed.

(** Warnings are only ever added. *)
Lemma transform_step_warnings self element ranges st kv st' w :
  step self element ranges st kv = Ok st' ->
  w ∈ warnings st -> w ∈ warnings st'.
Proof.
  unfold transform_step. destruct kv as [k v]. intros H Hw.
  destruct (coerce self element v) as [| | |d| | |]; try by injection H as <-.
  destruct (negb (applicable dim_applies self element d)).
  { destruct (dict_mem k (new_style st)); [|done].
    injection H as <-. simpl. apply elem_of_app. by left. }
  destruct (negb _ && bool_decide _); [done|].
  destruct (contains "color" k && numeric _).
  - destruct (get_color_opts _ _ _ _ _ _ _ _) as [[copts style']|];
      simpl in H; [|done].
    by injection H as <-.
  - by injection H as <-.
Qed.

Lemma apply_transforms_warnings self element ranges items st st' w :
  for_each (step self element ranges) items st = Ok st' ->
  w ∈ warnings st -> w ∈ warnings st'.
Proof.
  intros H Hw. revert H.
  apply (for_each_invariant (step self element ranges)
           (fun s => w ∈ warnings s)); [|done].
  intros s x s' _ Hs Hx. by eapply transform_step_warnings.
Qed.

(** A transform that is not applicable, under an attribute other than
    [cmap], is dropped from the resolved style with a warning naming the
    attribute and the transform, and the loop goes on with the remaining
    attributes: the iteration raises nothing.  In any style the call
    then returns, the warning is recorded and the attribute is absent. *)
Lemma inapplicable_dropped self element ranges pre k v post d st :
  NoDup (dict_keys (app pre ((k, v) :: post))) ->
  k <> "cmap" ->
  coerce self element v = VDim d ->
  applic self element d = false ->
  for_each (step self element ranges) pre
    (start (app pre ((k, v) :: post))) = Ok st ->
  step self element ranges st (k, v) = Ok (dropped st k d) /\
  apply_transforms self element ranges (app pre ((k, v) :: post))
  = for_each (step self element ranges) post (dropped st k d) /\
  (forall st',
      apply_transforms self element ranges (app pre ((k, v) :: post))
      = Ok st' ->
      (k, d) ∈ warnings st' /\
      (k ∉ color_keys -> dict_get k (new_style st') = None)).
Proof.
  intros Hnd Hcmap Hc Ha Hpre.
  destruct (keys_after_unique _ _ _ _ Hnd) as [Hk_pre Hk_post].
  assert (step self element ranges st (k, v) = Ok (dropped st k d)) as Hs.
  { apply transform_step_drops; [done..|].
    eapply apply_transforms_keeps; [exact Hpre|done..|].
    simpl. rewrite dict_get_app_notin by (by apply dict_get_None_notin).
    simpl. rewrite decide_True by done. by eexists. }
  assert (apply_transforms self element ranges (app pre ((k, v) :: post))
          = for_each (step self element ranges) post (dropped st k d)) as Hrun.
  { by rewrite apply_transforms_split, Hpre, Hs. }
  split; [done|]. split; [done|].
  intros st' Hok. rewrite Hrun in Hok. split.
  - eapply apply_transforms_warnings; [exact Hok|].
    simpl. apply elem_of_app. right. apply list_elem_of_here.
  - intros Hk.
    rewrite (apply_transforms_frame _ _ _ _ _ _ _ _ _ _ _ _ Hok Hk_post Hk).
    simpl. apply dict_get_pop_eq.
Qed.

(** C5.  An unresolvable transform is to be dropped with a warning,
    without an exception.  Under the attribute [cmap] this fails once an
    earlier attribute was colour mapped: the colour mapping has removed
    [cmap] from the resolved style ([new_style.pop('cmap', None)]), and
    dropping the attribute ([new_style.pop(k)], without a default) raises
    [KeyError]: no style is returned and the attributes after it are not
    looked at. *)
Theorem unresolvable_cmap_aborts self element ranges pre v post d st :
  coerce self element v = VDim d ->
  applic self element d = false ->
  for_each (step self element ranges) pre
    (start (app pre (("cmap", v) :: post))) = Ok st ->
  dict_get "cmap" (new_style st) = None ->
  apply_transforms self element ranges (app pre (("cmap", v) :: post))
  = Raise (KeyError "cmap").
Proof.
  intros Hc Ha Hpre Hnone.
  rewrite apply_transforms_split, Hpre. unfold transform_step.
  rewrite Hc, Ha. simpl. unfold dict_mem. by rewrite Hnone.
Qed.

End TransformRecovery.

Lemma unresolvable_cmap_aborts_witness :
  let style := [("color", VStr "z"); ("cmap", VDim (Dim "w" []));
                ("size", VStr "size")] in
  applicable Demo.dim_applies Demo.plot0 Demo.points (Dim "w" []) = false /\
  _apply_transforms Demo.dim_range_key Demo.dim_str Demo.get_colorscale
    Demo.dim_applies Demo.dim_apply Demo.plot0 Demo.points ∅ style
  = Raise (KeyError "cmap").
Proof.
  intros style. split; [reflexivity|].
  assert (exists st,
             for_each (transform_step Demo.dim_range_key Demo.dim_str
                         Demo.get_colorscale Demo.dim_applies Demo.dim_apply
                         Demo.plot0 Demo.points ∅)
               [("color", VStr "z")] (start style) = Ok st /\
             dict_get "cmap" (new_style st) = None)
    as (st & Hpre & Hnone) by (eexists; split; reflexivity).
  exact (unresolvable_cmap_aborts Demo.dim_range_key Demo.dim_str
           Demo.get_colorscale Demo.dim_applies Demo.dim_apply Demo.plot0
           Demo.points ∅ [("color", VStr "z")] (VDim (Dim "w" []))
           [("size", VStr "size")] (Dim "w" []) st eq_refl eq_refl Hpre Hnone).
Defined.

Lemma inapplicable_dropped_witness :
  exists st',
    _apply_transforms Demo.dim_range_key Demo.dim_str Demo.get_colorscale
      Demo.dim_applies Demo.dim_apply Demo.plot0 Demo.points ∅
      [("size", VStr "size"); ("alpha", VDim (Dim "w" [])); ("symbol", VStr "z")]
    = Ok st' /\
    new_style st' = [("size", VScalar (Demo.n 5));
                     ("symbol", VArr [Demo.n (-3); Demo.n 1; Demo.n 2])] /\
    (("alpha", Dim "w" []) ∈ warnings st').
Proof.
  eexists. split; [reflexivity|]. split; [reflexivity|].
  destruct (inapplicable_dropped Demo.dim_range_key Demo.dim_str
              Demo.get_colorscale Demo.dim_applies Demo.dim_apply Demo.plot0
              Demo.points ∅ [("size", VStr "size")] "alpha"
              (VDim (Dim "w" [])) [("symbol", VStr "z")] (Dim "w" []) _
              ltac:(by_evaluation) ltac:(done) eq_refl eq_refl eq_refl)
    as (_ & _ & Hfinal).
  exact (proj1 (Hfinal _ eq_refl)).
Defined.

(** ** What resolution does to the caller's style *)

Section StyleEffect.

Variable dim_range_key : eldim -> string.
Variable dim_str : dim -> string.
Variable get_colorscale : value -> value -> option num -> option num -> value.
Variable dim_applies : dim -> Element -> bool.
Variable dim_apply : dim -> Element -> range_table -> evalue.

Local Abbreviation step :=
  (transform_step dim_range_key dim_str get_colorscale dim_applies dim_apply).
Local Abbreviation apply_transforms :=
  (_apply_transforms dim_range_key dim_str get_colorscale dim_applies dim_apply).

Lemma transform_step_style self element ranges st kv st' :
  step self element ranges st kv = Ok st' ->
  popped_or_same (cur_style st) (cur_style st').
Proof.
  unfold transform_step, popped_or_same. destruct kv as [k v]. intros H.
  destruct (coerce self element v) as [| | |d| | |];
    try (injection H as <-; by left).
  destruct (negb (applicable dim_applies self element d)).
  { destruct (dict_mem k (new_style st)); [|done].
    injection H as <-. by left. }
  destruct (negb _ && bool_decide _); [done|].
  destruct (contains "color" k && numeric _).
  - destruct (get_color_opts _ _ _ _ _ _ _ _) as [[copts style']|] eqn:Hco;
      simpl in H; [|done].
    apply get_color_opts_Ok in Hco as (-> & _).
    injection H as <-. by right.
  - injection H as <-. by left.
Qed.

(** The extent of the effect.  The element and the range table are only
    read.  The style dictionary the caller passed is, when the call
    returns, either unchanged or has lost its [cmap] entry and nothing
    else; without a [cmap] entry it is unchanged. *)
Theorem style_after_transforms self element ranges style st :
  apply_transforms self element ranges style = Ok st ->
  (cur_style st = style \/ cur_style st = dict_pop "cmap" style) /\
  (forall k, k <> "cmap" -> dict_get k (cur_style st) = dict_get k style) /\
  (dict_get "cmap" style = None -> cur_style st = style).
Proof.
  intros H.
  assert (popped_or_same style (cur_style st)) as Hinv.
  { revert H. unfold _apply_transforms.
    apply (for_each_invariant (step self element ranges)
             (fun s => popped_or_same style (cur_style s))); [|by left].
    intros s x s' _ Hs Hx. apply transform_step_style in Hx.
    destruct Hs as [Hs|Hs], Hx as [Hx|Hx]; rewrite Hx, Hs;
      [by left|by right|by right|right; apply dict_pop_pop]. }
  split; [exact Hinv|]. split.
  - intros k Hk. destruct Hinv as [->| ->]; [done|].
    by apply dict_get_pop_ne.
  - intros Hnone. destruct Hinv as [->| ->]; [done|].
    by apply dict_pop_notin.
Qed.

End StyleEffect.

Lemma style_after_transforms_witness :
  exists st,
    _apply_transforms Demo.dim_range_key Demo.dim_str Demo.get_colorscale
      Demo.dim_applies Demo.dim_apply Demo.plot0 Demo.points ∅
      [("size", VStr "size"); ("color", VStr "z")] = Ok st /\
    cur_style st = [("size", VStr "size"); ("color", VStr "z")].
Proof.
  eexists. split; [reflexivity|].
  exact (proj2 (proj2
    (style_after_transforms Demo.dim_range_key Demo.dim_str
       Demo.get_colorscale Demo.dim_applies Demo.dim_apply Demo.plot0
       Demo.points ∅ [("size", VStr "size"); ("color", VStr "z")] _ eq_refl))
    eq_refl).
Defined.

(** C2.  The style passed in is to be equal before and after
    resolution.  [_apply_transforms] builds its result in a copy, but
    hands the caller's dictionary itself to [get_color_opts], which pops
    [cmap] from it: for a colour mapped attribute and a [cmap] entry the
    caller's style comes back without the entry. *)
Lemma style_is_mutated :
  let style := [("color", VStr "z"); ("cmap", VStr "reds")] in
  exists st,
    _apply_transforms Demo.dim_range_key Demo.dim_str Demo.get_colorscale
      Demo.dim_applies Demo.dim_apply Demo.plot0 Demo.points ∅ style = Ok st /\
    cur_style st = [("color", VStr "z")] /\
    cur_style st <> style.
Proof. intros style. eexists. split; [reflexivity|]. by split. Qed.

(** ** Layout *)

Section LayoutFacts.

Variable py_str : value -> string.
Variable get_extents : Plot -> Element -> range_table -> list num.
Variable _get_axis_labels : Plot -> list (option string) -> string * string * string.
Variable _format_title : Plot -> value -> string.

Lemma get_ticks_frame axis ticker axis' k :
  _get_ticks py_str axis ticker = Ok axis' ->
  k <> "tickvals" -> k <> "ticktext" ->
  dict_get k axis' = dict_get k axis.
Proof.
  intros H Hv Ht.
  assert (forall xs,
             (if forallb is_tuple xs
              then '(ticks, labels) ← unzip_ticks xs;
                   Ok (dict_update axis
                         [("tickvals", VTuple ticks);
                          ("ticktext", VList (tick_label py_str <$> labels))])
              else Ok (dict_update axis [("tickvals", ticker)])) = Ok axis' ->
             dict_get k axis' = dict_get k axis) as Hwith.
  { intros xs Hx. destruct (forallb is_tuple xs).
    - destruct (unzip_ticks xs) as [[ticks labels]|]; simpl in Hx; [|done].
      injection Hx as <-. by rewrite !dict_get_set_ne.
    - injection Hx as <-. unfold dict_update. simpl.
      by rewrite dict_get_set_ne. }
  unfold _get_ticks in H.
  destruct ticker; try (by injection H as <-); by eapply Hwith.
Qed.

Lemma axis_record_fields lo hi title log ticker axis :
  axis_record py_str lo hi title log ticker = Ok axis ->
  dict_get "range" axis = Some (VList [VNum lo; VNum hi]) /\
  dict_get "title" axis = Some (VStr title).
Proof.
  unfold axis_record. intros H.
  rewrite !(get_ticks_frame _ _ _ _ H) by done.
  by destruct log.
Qed.

Lemma axis_dims_two element :
  2 <= length (el_dims element) ->
  exists d1 d2, _get_axis_dims element = [Some d1; Some d2; None].
Proof.
  unfold _get_axis_dims.
  destruct (el_dims element) as [|d1 [|d2 rest]]; simpl; try lia.
  intros _. by exists d1, d2.
Qed.

(** C8.  For an element with an x and a y dimension, the layout with
    axis inversion has the x axis carry the vertical extent and the y
    label and the y axis carry the horizontal extent and the x label;
    without inversion neither is exchanged.  (A label shows only if its
    axis letter is in [labelled].) *)
Theorem inversion_swaps_both self key element ranges layout l b r t xl yl zl :
  unpack_extent (get_extents self element ranges) = Ok (l, b, r, t) ->
  _get_axis_labels self (_get_axis_dims element) = (xl, yl, zl) ->
  2 <= length (el_dims element) ->
  init_layout py_str get_extents _get_axis_labels _format_title
    self key element ranges = Ok layout ->
  exists xaxis yaxis,
    axis_of layout "xaxis" = Some xaxis /\
    axis_of layout "yaxis" = Some yaxis /\
    if invert_axes self then
      dict_get "range" xaxis = Some (VList [VNum b; VNum t]) /\
      dict_get "title" xaxis = Some (VStr (shown_label self "x" yl)) /\
      dict_get "range" yaxis = Some (VList [VNum l; VNum r]) /\
      dict_get "title" yaxis = Some (VStr (shown_label self "y" xl))
    else
      dict_get "range" xaxis = Some (VList [VNum l; VNum r]) /\
      dict_get "title" xaxis = Some (VStr (shown_label self "x" xl)) /\
      dict_get "range" yaxis = Some (VList [VNum b; VNum t]) /\
      dict_get "title" yaxis = Some (VStr (shown_label self "y" yl)).
Proof.
  intros Hext Hlab Hdims H.
  destruct (axis_dims_two element Hdims) as (d1 & d2 & Hd).
  unfold init_layout in H. rewrite Hext, Hd in H. rewrite Hd in Hlab.
  simpl in H. rewrite Hlab in H.
  destruct (margins self) as [[[ml mb] mr] mt].
  unfold invert, shown_label in *.
  destruct (invert_axes self); simpl in H.
  - destruct (axis_record py_str b t _ (logx self) (xticks self))
      as [xaxis|] eqn:Hx; simpl in H; [|done].
    destruct (axis_record py_str l r _ (logy self) (yticks self))
      as [yaxis|] eqn:Hy; simpl in H; [|done].
    injection H as <-. exists xaxis, yaxis.
    apply axis_record_fields in Hx as [? ?].
    apply axis_record_fields in Hy as [? ?]. by repeat split.
  - destruct (axis_record py_str l r _ (logx self) (xticks self))
      as [xaxis|] eqn:Hx; simpl in H; [|done].
    destruct (axis_record py_str b t _ (logy self) (yticks self))
      as [yaxis|] eqn:Hy; simpl in H; [|done].
    injection H as <-. exists xaxis, yaxis.
    apply axis_record_fields in Hx as [? ?].
    apply axis_record_fields in Hy as [? ?]. by repeat split.
Qed.

End LayoutFacts.

Lemma inversion_swaps_both_witness :
  let self := Demo.mk_plot true (Some "marker") false [] [] false false in
  let X := Demo.externals [] [] in
  exists layout xaxis yaxis,
    init_layout (ext_py_str X) (ext_get_extents X) (ext_get_axis_labels X)
      (ext_format_title X) self VNone Demo.points ∅ = Ok layout /\
    axis_of layout "xaxis" = Some xaxis /\
    axis_of layout "yaxis" = Some yaxis /\
    dict_get "range" xaxis = Some (VList [VNum (Fin 0); VNum (Fin 20)]) /\
    dict_get "title" xaxis = Some (VStr "y") /\
    dict_get "range" yaxis = Some (VList [VNum (Fin 0); VNum (Fin 10)]) /\
    dict_get "title" yaxis = Some (VStr "x").
Proof.
  intros self X.
  destruct (inversion_swaps_both (ext_py_str X) (ext_get_extents X)
              (ext_get_axis_labels X) (ext_format_title X) self VNone
              Demo.points ∅ _ (Fin 0) (Fin 0) (Fin 10) (Fin 20) "x" "y" ""
              eq_refl eq_refl ltac:(simpl; lia) eq_refl)
    as (xaxis & yaxis & Hx & Hy & Hinv).
  eexists _, xaxis, yaxis. split; [reflexivity|].
  split; [exact Hx|]. split; [exact Hy|]. exact Hinv.
Defined.

(** ** Traces and the shared options record *)

Lemma dict_get_update_Some {A} (d u : list (string * A)) k (x : A) :
  NoDup (dict_keys u) -> dict_get k u = Some x ->
  dict_get k (dict_update d u) = Some x.
Proof.
  unfold dict_update, dict_keys. revert d.
  induction u as [|[k' x'] u IH]; intros d Hnd Hk; simpl in *; [done|].
  apply NoDup_cons in Hnd as [Hnotin Hnd].
  destruct (decide (k = k')) as [->|Hne].
  - injection Hk as ->.
    pose proof (dict_get_update_None k' (dict_set k' x d) u) as Hfr.
    unfold dict_update in Hfr. rewrite Hfr.
    + apply dict_get_set_eq.
    + by apply dict_get_None_notin.
  - by apply IH.
Qed.

Lemma dict_get_shallow_copy k options :
  dict_get k (shallow_copy options) =
  (fun v => match v with VDict _ => Shared | _ => Own v end)
    <$> dict_get k options.
Proof.
  unfold shallow_copy. induction options as [|[k' v'] o IH]; simpl; [done|].
  destruct v'; simpl; destruct (decide (k = k')); by simpl.
Qed.

Lemma dict_get_read_trace k options t :
  dict_get k (read_trace options t) =
  (fun tv => match tv with
             | Own v => v
             | Shared => default VNone (dict_get k options)
             end) <$> dict_get k t.
Proof.
  unfold read_trace. induction t as [|[k' tv] t IH]; simpl; [done|].
  destruct tv; simpl; destruct (decide (k = k')) as [->|]; by simpl.
Qed.

(** Merging one data item touches that item's key only. *)
Lemma merge_item_frame t o k' v' e t' o' k :
  merge_item (t, o) (k', v') = (e, (t', o')) -> k <> k' ->
  dict_get k t' = dict_get k t /\ dict_get k o' = dict_get k o.
Proof.
  unfold merge_item. intros H Hne.
  destruct (dict_get k' t) as [[v|]|].
  - destruct v; try (injection H as <- <- <-; by rewrite dict_get_set_ne).
    destruct (py_update d v') as [e' d'].
    injection H as <- <- <-. by rewrite dict_get_set_ne.
  - destruct (dict_get k' o) as [[]|]; try (by injection H as <- <- <-).
    destruct (py_update d v') as [e' d'].
    injection H as <- <- <-. by rewrite dict_get_set_ne.
  - injection H as <- <- <-. by rewrite dict_get_set_ne.
Qed.

Lemma merge_loop_frame items t o t' o' k :
  for_each_st merge_item items (t, o) = (None, (t', o')) ->
  k ∉ dict_keys items ->
  dict_get k t' = dict_get k t /\ dict_get k o' = dict_get k o.
Proof.
  revert t o. induction items as [|[k' v'] items IH]; intros t o H Hin;
    cbn [for_each_st] in H.
  - by injection H as <- <-.
  - unfold dict_keys in Hin. simpl in Hin.
    apply not_elem_of_cons in Hin as [Hne Hin].
    destruct (merge_item (t, o) (k', v')) as [[e|] [t1 o1]] eqn:Hm; [done|].
    destruct (IH _ _ H Hin) as [-> ->].
    by eapply merge_item_frame.
Qed.

(** The item under a key whose option value is a nested record is merged
    into that record, which the trace goes on sharing. *)
Lemma merge_item_shared t o k d u :
  dict_get k t = Some Shared -> dict_get k o = Some (VDict d) ->
  merge_item (t, o) (k, VDict u)
  = (None, (t, dict_set k (VDict (dict_update d u)) o)).
Proof. unfold merge_item. by intros -> ->. Qed.

Lemma merge_loop_shared data t o t' o' k d u :
  for_each_st merge_item data (t, o) = (None, (t', o')) ->
  NoDup (dict_keys data) ->
  dict_get k data = Some (VDict u) ->
  dict_get k t = Some Shared -> dict_get k o = Some (VDict d) ->
  dict_get k t' = Some Shared /\
  dict_get k o' = Some (VDict (dict_update d u)).
Proof.
  revert t o. induction data as [|[k' v'] data IH]; intros t o H Hnd Hk Ht Ho;
    [done|].
  cbn [for_each_st] in H. unfold dict_keys in Hnd. simpl in Hnd, Hk.
  apply NoDup_cons in Hnd as [Hnotin Hnd].
  destruct (decide (k = k')) as [<-|Hne].
  - injection Hk as ->. rewrite (merge_item_shared _ _ _ _ _ Ht Ho) in H.
    destruct (merge_loop_frame _ _ _ _ _ k H Hnotin) as [-> ->].
    by rewrite dict_get_set_eq.
  - destruct (merge_item (t, o) (k', v')) as [[e|] [t1 o1]] eqn:Hm; [done|].
    destruct (merge_item_frame _ _ _ _ _ _ _ k Hm Hne) as [Ht1 Ho1].
    apply (IH t1 o1); try done; congruence.
Qed.

(** [init_graph] returns exactly when the merge loop and the per-trace
    step do. *)
Lemma init_graph_Ok self data options index t options' :
  init_graph self data options index = (Ok t, options') ->
  exists t0,
    for_each_st merge_item data (shallow_copy options, options)
    = (None, (t0, options')) /\
    per_trace_styles self index t0 options' = Ok t.
Proof.
  unfold init_graph.
  destruct (for_each_st _ _ _) as [[e|] [t0 o]]; intros [= H <-].
  by exists t0.
Qed.

(** The per-trace step replaces the style key's entry only. *)
Lemma per_trace_styles_frame self index t0 options t k :
  per_trace_styles self index t0 options = Ok t ->
  _style_key self <> Some k \/ _per_trace self = false ->
  dict_get k t = dict_get k t0.
Proof.
  unfold per_trace_styles. intros H Hk.
  destruct (_style_key self) as [sk|]; [|by injection H as <-].
  destruct (bool_decide (sk <> "") && _per_trace self) eqn:Hcond;
    [|by injection H as <-].
  apply andb_true_iff in Hcond as [_ Hpt].
  assert (k <> sk) as Hne by (destruct Hk; congruence).
  destruct (dict_get sk options) as [[]|]; try done.
  destruct (match dict_get sk t0 with
            | Some Shared => _ | Some (Own (VDict d0)) => _
            | Some (Own _) => _ | None => _ end) as [copy|];
    simpl in H; [|done].
  destruct (for_each _ _ copy) as [copy'|]; simpl in H; [|done].
  injection H as <-. by apply dict_get_set_ne.
Qed.

(** C10.  The copy [init_graph] makes of the options is shallow.  When a
    data field has the key of an option whose value is a nested record,
    and that key is not the style key of a per-trace plot, the data's
    fields are written into the record that [options] holds, the trace
    shares that record, and a later [init_graph] call over the same
    options shows the merged record in its own trace. *)
Theorem init_graph_shares_nested self data options index k d u t options' :
  NoDup (dict_keys data) ->
  dict_get k options = Some (VDict d) ->
  dict_get k data = Some (VDict u) ->
  _style_key self <> Some k \/ _per_trace self = false ->
  init_graph self data options index = (Ok t, options') ->
  dict_get k options' = Some (VDict (dict_update d u)) /\
  dict_get k t = Some Shared /\
  (forall f x, NoDup (dict_keys u) -> dict_get f u = Some x ->
               dict_get f (dict_update d u) = Some x) /\
  (forall data2 index2 t2 options2,
      dict_get k data2 = None ->
      init_graph self data2 options' index2 = (Ok t2, options2) ->
      dict_get k (read_trace options2 t2) = Some (VDict (dict_update d u))).
Proof.
  intros Hnd Ho Hd Hsk H.
  apply init_graph_Ok in H as (t0 & Hloop & Hpt).
  assert (dict_get k (shallow_copy options) = Some Shared) as Hsh
    by (by rewrite dict_get_shallow_copy, Ho).
  destruct (merge_loop_shared _ _ _ _ _ _ _ _ Hloop Hnd Hd Hsh Ho)
    as [Ht0 Ho'].
  split; [done|]. split.
  { by rewrite (per_trace_styles_frame _ _ _ _ _ _ Hpt Hsk). }
  split.
  { intros f x Hu Hf. by apply dict_get_update_Some. }
  intros data2 index2 t2 options2 Hk2 H2.
  apply init_graph_Ok in H2 as (t1 & Hloop2 & Hpt2).
  apply dict_get_None_notin in Hk2.
  destruct (merge_loop_frame _ _ _ _ _ k Hloop2 Hk2) as [Ht1 Ho2].
  rewrite dict_get_read_trace.
  rewrite (per_trace_styles_frame _ _ _ _ _ _ Hpt2 Hsk), Ht1.
  rewrite dict_get_shallow_copy, Ho2, Ho'. done.
Qed.

Lemma init_graph_shares_nested_witness :
  let options := [("name", VStr "pts"); ("marker", VDict [("size", VNum (Fin 5))])] in
  let data := [("x", VArr [Demo.n 0; Demo.n 1]);
               ("marker", VDict [("color", VStr "red")])] in
  exists t options' t2 options2,
    init_graph Demo.plot0 data options 0 = (Ok t, options') /\
    dict_get "marker" options'
    = Some (VDict [("size", VNum (Fin 5)); ("color", VStr "red")]) /\
    init_graph Demo.plot0 [("x", VArr [Demo.n 2])] options' 1
    = (Ok t2, options2) /\
    dict_get "marker" (read_trace options2 t2)
    = Some (VDict [("size", VNum (Fin 5)); ("color", VStr "red")]).
Proof.
  intros options data. eexists _, _, _, _. split; [reflexivity|].
  destruct (init_graph_shares_nested Demo.plot0 data options 0 "marker"
              [("size", VNum (Fin 5))] [("color", VStr "red")] _ _
              ltac:(by_evaluation) eq_refl eq_refl
              ltac:(by right) eq_refl)
    as (Hin_place & _ & _ & Hlater).
  split; [exact Hin_place|]. split; [reflexivity|].
  exact (Hlater [("x", VArr [Demo.n 2])] 1 _ _ eq_refl eq_refl).
Defined.

(** ** Overlays *)

Section OverlayFacts.

Variable merge_layout : pydict -> pydict -> pydict.
Variable XO : Externals.

Lemma compose_traces key ranges subs figs acc :
  Forall2 (produces key ranges) subs figs ->
  exists final rest,
    OverlayPlot.compose merge_layout key ranges subs acc = (Ok final, final, rest) /\
    traces_of final = app (traces_of acc) (concat (fig_data <$> figs)) /\
    (is_Some acc \/ subs <> [] -> is_Some final).
Proof.
  intros Hall. revert acc.
  induction Hall as [|[X st] fig subs figs Hfig _ IH]; intros acc.
  - exists acc, []. simpl. rewrite app_nil_r. split; [done|].
    split; [done|]. by intros [?|?].
  - unfold produces in Hfig. simpl in Hfig. cbn [OverlayPlot.compose].
    destruct (generate_plot X st key ranges) as [r st'].
    simpl in Hfig. subst r.
    destruct (IH (Some (match acc with
                        | None => fig
                        | Some figure => merge_figure merge_layout figure fig
                        end))) as (final & rest & -> & Htr & Hsome).
    exists final, ((X, st') :: rest). split; [done|]. split.
    + rewrite Htr. simpl. destruct acc; simpl; [|done].
      by rewrite <- app_assoc.
    + intros _. apply Hsome. left. by eexists.
Qed.

(** C9.  When every child produces its figure and the overlay's own
    layout is built, the composed figure's trace list is the children's
    trace lists concatenated in iteration order. *)
Theorem overlay_traces_in_order st key ranges figs el layout :
  subplots st <> [] ->
  Forall2 (produces key (ext_compute_ranges XO key ranges))
    (subplots st) figs ->
  ext_get_frame XO key = Some el ->
  init_layout_of XO (oplot st) key el (ext_compute_ranges XO key ranges)
  = Ok layout ->
  exists figure st',
    OverlayPlot.generate_plot merge_layout XO st key ranges = (Ok figure, st') /\
    fig_data figure = concat (fig_data <$> figs).
Proof.
  intros Hne Hall Hel Hlay. unfold OverlayPlot.generate_plot.
  destruct (compose_traces key _ _ _ None Hall)
    as (final & rest & -> & Htr & Hsome).
  rewrite Hel, Hlay.
  destruct Hsome as [figure ->]; [by right|].
  eexists _, _. split; [reflexivity|]. simpl. exact Htr.
Qed.

End OverlayFacts.

Lemma overlay_traces_in_order_witness :
  exists figure st',
    OverlayPlot.generate_plot dict_update (Demo.externals [] [])
      DemoOverlay.overlay VNone ∅ = (Ok figure, st') /\
    length (fig_data (DemoOverlay.figure_of DemoOverlay.child_a)) = 1 /\
    length (fig_data (DemoOverlay.figure_of DemoOverlay.child_b)) = 2 /\
    fig_data figure
    = app (fig_data (DemoOverlay.figure_of DemoOverlay.child_a))
          (fig_data (DemoOverlay.figure_of DemoOverlay.child_b)).
Proof.
  destruct (overlay_traces_in_order dict_update (Demo.externals [] [])
              DemoOverlay.overlay VNone ∅
              [DemoOverlay.figure_of DemoOverlay.child_a;
               DemoOverlay.figure_of DemoOverlay.child_b]
              Demo.points _ ltac:(done)
              ltac:(repeat constructor; reflexivity) eq_refl eq_refl)
    as (figure & st' & Hrun & Hdata).
  exists figure, st'. split; [exact Hrun|].
  split; [reflexivity|]. split; [reflexivity|].
  rewrite Hdata. reflexivity.
Defined.

(** ** Regeneration *)

Lemma default_default {A} (a : A) (o : option A) :
  default (default a o) o = default a o.
Proof. by destruct o. Qed.

(** Assigning the same plot options again changes nothing. *)
Lemma set_param_idempotent o self :
  set_param o (set_param o self) = set_param o self.
Proof. unfold set_param. simpl. by rewrite !default_default. Qed.


(** ** The fatal guard stops the figure *)

(** When the guard of [_apply_transforms] fires, [generate_plot] raises
    the same error: no figure is built and [handles['fig']] keeps what it
    had. *)
Lemma generate_plot_aborts X st key ranges0 element pre k v post d xs sk
    opts0 st_pre :
  let self := set_param (ext_plot_options X element) (plot st) in
  let ranges := ext_match_spec X element (ext_compute_ranges X key ranges0) in
  let style := app pre ((k, v) :: post) in
  ext_get_frame X key = Some element ->
  ext_lookup_style X element (cyclic_index self) = style ->
  _style_key self = Some sk ->
  base_options (ext_pprint_value_string X) self element = Ok opts0 ->
  for_each (transform_step (ext_dim_range_key X) (ext_dim_str X)
              (ext_get_colorscale X) (ext_dim_applies X) (ext_dim_apply X)
              self element ranges) pre (start style) = Ok st_pre ->
  coerce self element v = VDim d ->
  applicable (ext_dim_applies X) self element d = true ->
  collapse k (evaluate (ext_dim_apply X) self element ranges d) = EArr xs ->
  k ∈ _nonvectorized_styles self ->
  generate_plot X st key ranges0
  = (Raise (NonVectorized k (dimension d) (el_type element) (backend self)),
     {| plot := self; fig_handle := fig_handle st |}).
Proof.
  intros self ranges style Hel Hstyle Hsk Hbase Hpre Hc Ha Hv Hk.
  unfold generate_plot. rewrite Hel. fold self.
  unfold build_figure, graph_options_of, graph_options. fold ranges.
  rewrite Hstyle, Hbase, Hsk. simpl.
  unfold style. rewrite apply_transforms_split. fold style. rewrite Hpre.
  by rewrite (transform_step_raises _ _ _ _ _ _ _ _ st_pre _ _ _ xs Hc Ha Hv Hk).
Qed.

(** ** The scenarios of the specification *)

(** Scenario 9: [color] mapped to the size dimension, colorbar off.
    Without a range table entry the colour scale is automatic. *)
Example scenario_color_without_range :
  (st ← _apply_transforms Demo.dim_range_key Demo.dim_str Demo.get_colorscale
          Demo.dim_applies Demo.dim_apply Demo.plot0 Demo.points ∅
          [("color", VStr "z")];
   Ok (dict_get "showscale" (new_style st), dict_get "cauto" (new_style st)))
  = Ok (Some (VBool false), Some (VBool true)).
Proof. reflexivity. Qed.

(** Scenario 9, with a range table entry: its bounds are used. *)
Example scenario_color_with_range :
  (st ← _apply_transforms Demo.dim_range_key Demo.dim_str Demo.get_colorscale
          Demo.dim_applies Demo.dim_apply Demo.plot0 Demo.points
          {[ "z" := {| combined := (Fin (-3), Fin 2) |} ]}
          [("color", VStr "z")];
   Ok (dict_get "cauto" (new_style st), dict_get "cmin" (new_style st),
       dict_get "cmax" (new_style st)))
  = Ok (Some (VBool false), Some (VNum (Fin (-3))), Some (VNum (Fin 2))).
Proof. reflexivity. Qed.

(** Two colour mapped attributes and one [cmap]: the first consumes the
    entry, the second is given the default colour scale. *)
Example second_color_attribute_gets_default :
  (st ← _apply_transforms Demo.dim_range_key Demo.dim_str Demo.get_colorscale
          Demo.dim_applies Demo.dim_apply Demo.plot0 Demo.points ∅
          [("color", VStr "z"); ("line_color", VStr "z"); ("cmap", VStr "reds")];
   Ok (dict_get "colorscale" (new_style st)))
  = Ok (Some (VStr "viridis")).
Proof. reflexivity. Qed.

(** A caller that hands the same style object to [_apply_transforms]
    again gets another colour scale: the first call took the [cmap]
    entry.  [generate_plot] looks the style up on every call instead. *)
Example reused_style_object_differs :
  let run := _apply_transforms Demo.dim_range_key Demo.dim_str
               Demo.get_colorscale Demo.dim_applies Demo.dim_apply
               Demo.plot0 Demo.points ∅ in
  let style := [("color", VStr "z"); ("cmap", VStr "reds")] in
  (st1 ← run style; st2 ← run (cur_style st1);
   Ok (dict_get "colorscale" (new_style st1),
       dict_get "colorscale" (new_style st2)))
  = Ok (Some (VStr "reds"), Some (VStr "viridis")).
Proof. reflexivity. Qed.

(** Scenario 10: an overlay with axis inversion over the aggregated
    extent (0, 0, 10, 20).  The x range of the composed layout is the
    vertical extent and the y range the horizontal one. *)
Example scenario_overlay_inversion :
  let inverted :=
    {| oplot := Demo.mk_plot true (Some "marker") false [] [] false false;
       subplots := subplots DemoOverlay.overlay;
       ofig_handle := None; handle_shared := false |} in
  match (OverlayPlot.generate_plot dict_update (Demo.externals [] [])
           inverted VNone ∅).1 with
  | Ok figure =>
      (axis_of (fig_layout figure) "xaxis" ≫= dict_get "range",
       axis_of (fig_layout figure) "yaxis" ≫= dict_get "range")
  | Raise _ => (None, None)
  end
  = (Some (VList [VNum (Fin 0); VNum (Fin 20)]),
     Some (VList [VNum (Fin 0); VNum (Fin 10)])).
Proof. reflexivity. Qed.

(** Two data records that both carry marker fields: the traces are made
    from one options record, so each trace shows the fields of both. *)
Example traces_share_nested_record :
  let X := Demo.externals []
             [[("marker", VDict [("color", VStr "red")])];
              [("marker", VDict [("size", VNum (Fin 3))])]] in
  match (generate_plot X DemoOverlay.fresh VNone ∅).1 with
  | Ok figure => dict_get "marker" <$> fig_data figure
  | Raise _ => []
  end
  = [Some (VDict [("color", VStr "red"); ("size", VNum (Fin 3))]);
     Some (VDict [("color", VStr "red"); ("size", VNum (Fin 3))])].
Proof. reflexivity. Qed.

(** * Further properties *)

(** ** More on colour options *)

Section ColorOptsMore.

Variable dim_range_key : eldim -> string.
Variable dim_str : dim -> string.
Variable get_colorscale : value -> value -> option num -> option num -> value.

Local Abbreviation color_opts :=
  (get_color_opts dim_range_key dim_str get_colorscale).

(** The shape of a successful result: the entry of [colorbar_entry], then
    the bounds, [cauto] and [colorscale]. *)
Lemma get_color_opts_shape self e element ranges style opts style' :
  color_opts self e element ranges style = Ok (opts, style') ->
  exists opts0,
    colorbar_entry dim_str self e = Ok opts0 /\
    forall k, k <> "cmin" -> k <> "cmax" -> k <> "cauto" ->
              k <> "colorscale" -> dict_get k opts = dict_get k opts0.
Proof.
  unfold get_color_opts. intros H.
  destruct (colorbar_entry dim_str self e) as [opts0|] eqn:Hcb;
    simpl in H; [|discriminate].
  destruct (resolve_bounds dim_range_key self e element ranges) as [auto b].
  injection H as <- <-. exists opts0. split; [done|].
  intros k ? ? ? ?.
  destruct b as [[cmin cmax]|]; by rewrite !dict_get_set_ne.
Qed.

(** X1.  The options carry either a [colorbar] record or
    [showscale = False], never both: with the colorbar parameter on, the
    record is the title followed by [colorbar_opts], the title being the
    transform's text (without its quotes when it has no operations) or
    the dimension's label; with it off, [showscale] is false. *)
Theorem colorbar_or_showscale self e element ranges style opts style' :
  color_opts self e element ranges style = Ok (opts, style') ->
  if colorbar self then
    dict_get "showscale" opts = None /\
    exists title,
      dict_get "colorbar" opts
      = Some (VDict (("title", VStr title) :: colorbar_opts self)) /\
      match e with
      | ElDim d => title = match ops d with
                           | [] => strip_ends (dim_str d)
                           | _ => dim_str d
                           end
      | ElDimension _ label => title = label
      | ElNone => False
      end
  else
    dict_get "showscale" opts = Some (VBool false) /\
    dict_get "colorbar" opts = None.
Proof.
  intros H. apply get_color_opts_shape in H as (opts0 & Hcb & Hsame).
  rewrite !Hsame by done. unfold colorbar_entry in Hcb.
  destruct (colorbar self).
  - destruct e as [d|nm lb|]; simpl in Hcb; try discriminate;
      destruct (dict_mem "title" (colorbar_opts self)); try discriminate;
      injection Hcb as <-; (split; [done|]); by eexists.
  - by injection Hcb as <-.
Qed.

(** X2.  With the colorbar on, a [title] entry in [colorbar_opts] makes
    the call raise [TypeError] (the keyword is given twice), whatever
    the element, ranges and style. *)
Theorem colorbar_title_clash self e element ranges style :
  colorbar self = true ->
  dict_mem "title" (colorbar_opts self) = true ->
  e <> ElNone ->
  color_opts self e element ranges style = Raise TypeError.
Proof.
  intros Hc Ht He. unfold get_color_opts, colorbar_entry. rewrite Hc.
  destruct e as [d|nm lb|]; [| |done]; simpl; by rewrite Ht.
Qed.

End ColorOptsMore.

Lemma colorbar_or_showscale_witness :
  let self := Demo.mk_plot false (Some "marker") false [] [] true false in
  exists opts style',
    get_color_opts Demo.dim_range_key Demo.dim_str Demo.get_colorscale
      self (ElDim (Dim "z" [])) Demo.points ∅ [] = Ok (opts, style') /\
    dict_get "showscale" opts = None /\
    dict_get "colorbar" opts = Some (VDict [("title", VStr "z")]).
Proof.
  intros self.
  pose (opts := [("colorbar", VDict [("title", VStr "z")]);
                 ("cmin", VNum NaN); ("cmax", VNum NaN);
                 ("cauto", VBool true); ("colorscale", VStr "viridis")]).
  assert (get_color_opts Demo.dim_range_key Demo.dim_str Demo.get_colorscale
            self (ElDim (Dim "z" [])) Demo.points ∅ [] = Ok (opts, []))
    as Hrun by reflexivity.
  exists opts, []. split; [exact Hrun|].
  destruct (colorbar_or_showscale Demo.dim_range_key Demo.dim_str
              Demo.get_colorscale self (ElDim (Dim "z" [])) Demo.points ∅ []
              opts [] Hrun) as (Hs & title & Hc & ->).
  split; [exact Hs|exact Hc].
Defined.

Lemma colorbar_title_clash_witness :
  let self :=
    set_param
      {| o_invert_axes := None; o_labelled := None; o_logx := None;
         o_logy := None; o_margins := None; o_show_legend := None;
         o_xticks := None; o_yticks := None; o_bgcolor := None;
         o_width := None; o_height := None; o_colorbar := Some true;
         o_color_levels := None;
         o_colorbar_opts := Some [("title", VStr "depth")];
         o_symmetric := None |} Demo.plot0 in
  get_color_opts Demo.dim_range_key Demo.dim_str Demo.get_colorscale
    self (ElDimension "z" "Z") Demo.points ∅ [] = Raise TypeError.
Proof.
  intros self.
  exact (colorbar_title_clash Demo.dim_range_key Demo.dim_str
           Demo.get_colorscale self (ElDimension "z" "Z") Demo.points ∅ []
           eq_refl eq_refl ltac:(done)).
Defined.

Section ColorScale.

Variable dim_range_key : eldim -> string.
Variable dim_str : dim -> string.
Variable get_colorscale : value -> value -> option num -> option num -> value.

Local Abbreviation color_opts :=
  (get_color_opts dim_range_key dim_str get_colorscale).

(** X3.  With the symmetric option and finite bounds [a], [b], the
    resolved range is centred at zero, encloses both bounds and is tight:
    its half width is the absolute value of one of them. *)
Theorem symmetric_range_encloses self e element ranges style opts style'
    auto a b :
  symmetric self = true -> truthy e = true ->
  color_bounds dim_range_key e element ranges = (auto, (Fin a, Fin b)) ->
  color_opts self e element ranges style = Ok (opts, style') ->
  exists m,
    dict_get "cmin" opts = Some (VNum (Fin (- m))) /\
    dict_get "cmax" opts = Some (VNum (Fin m)) /\
    (0 <= m)%Z /\ (- m <= a <= m)%Z /\ (- m <= b <= m)%Z /\
    (m = Z.abs a \/ m = Z.abs b).
Proof.
  intros Hs Ht Hb H. apply get_color_opts_Ok in H as (_ & _ & Hres).
  revert Hres. unfold resolve_bounds. rewrite Ht, Hs, Hb. simpl.
  intros [Hmin Hmax]. exists (Z.max (Z.abs a) (Z.abs b)).
  split; [done|]. split; [done|]. lia.
Qed.

(** X4.  The colour scale is made from the style's [cmap] entry, or
    ['viridis'] when there is none, the colour levels and the bounds as
    finally resolved (after the symmetric option); the style comes back
    without [cmap] and otherwise as it was. *)
Theorem colorscale_from_cmap self e element ranges style opts style' :
  color_opts self e element ranges style = Ok (opts, style') ->
  dict_get "colorscale" opts
  = Some (get_colorscale
            (default (VStr "viridis") (dict_get "cmap" style))
            (color_levels self)
            (fst <$> (resolve_bounds dim_range_key self e element ranges).2)
            (snd <$> (resolve_bounds dim_range_key self e element ranges).2)) /\
  dict_get "cmap" style' = None /\
  (forall k, k <> "cmap" -> dict_get k style' = dict_get k style).
Proof.
  unfold get_color_opts. intros H.
  destruct (colorbar_entry dim_str self e) as [opts0|]; simpl in H;
    [|discriminate].
  destruct (resolve_bounds dim_range_key self e element ranges) as [auto b].
  injection H as <- <-. split; [apply dict_get_set_eq|]. split.
  - apply dict_get_pop_eq.
  - intros k Hk. by apply dict_get_pop_ne.
Qed.

End ColorScale.

Lemma symmetric_range_encloses_witness :
  let self := Demo.mk_plot false (Some "marker") false [] [] false true in
  let ranges : range_table := {[ "z" := {| combined := (Fin (-3), Fin 2) |} ]} in
  exists opts,
    get_color_opts Demo.dim_range_key Demo.dim_str Demo.get_colorscale
      self (ElDim (Dim "z" [])) Demo.points ranges [] = Ok (opts, []) /\
    exists m,
      dict_get "cmin" opts = Some (VNum (Fin (- m))) /\
      dict_get "cmax" opts = Some (VNum (Fin m)) /\
      (- m <= -3 <= m)%Z /\ (- m <= 2 <= m)%Z.
Proof.
  intros self ranges.
  pose (opts := [("showscale", VBool false); ("cmin", VNum (Fin (-3)));
                 ("cmax", VNum (Fin 3)); ("cauto", VBool false);
                 ("colorscale", VStr "viridis")]).
  assert (get_color_opts Demo.dim_range_key Demo.dim_str Demo.get_colorscale
            self (ElDim (Dim "z" [])) Demo.points ranges [] = Ok (opts, []))
    as Hrun by reflexivity.
  exists opts. split; [exact Hrun|].
  destruct (symmetric_range_encloses Demo.dim_range_key Demo.dim_str
              Demo.get_colorscale self (ElDim (Dim "z" [])) Demo.points
              ranges [] opts [] false (-3)%Z 2%Z eq_refl eq_refl eq_refl Hrun)
    as (m & Hmin & Hmax & _ & Ha & Hb & _).
  exists m. split; [exact Hmin|]. split; [exact Hmax|].
  split; [exact Ha|exact Hb].
Defined.

Lemma colorscale_from_cmap_witness :
  exists opts style',
    get_color_opts Demo.dim_range_key Demo.dim_str Demo.get_colorscale
      Demo.plot0 (ElDim (Dim "z" [])) Demo.points ∅
      [("cmap", VStr "reds"); ("size", VNum (Fin 4))] = Ok (opts, style') /\
    dict_get "colorscale" opts = Some (VStr "reds") /\
    dict_get "cmap" style' = None /\
    dict_get "size" style' = Some (VNum (Fin 4)).
Proof.
  pose (style := [("cmap", VStr "reds"); ("size", VNum (Fin 4))]).
  pose (opts := [("showscale", VBool false); ("cmin", VNum NaN);
                 ("cmax", VNum NaN); ("cauto", VBool true);
                 ("colorscale", VStr "reds")]).
  assert (get_color_opts Demo.dim_range_key Demo.dim_str Demo.get_colorscale
            Demo.plot0 (ElDim (Dim "z" [])) Demo.points ∅ style
          = Ok (opts, [("size", VNum (Fin 4))])) as Hrun by reflexivity.
  exists opts, [("size", VNum (Fin 4))]. split; [exact Hrun|].
  destruct (colorscale_from_cmap Demo.dim_range_key Demo.dim_str
              Demo.get_colorscale Demo.plot0 (ElDim (Dim "z" [])) Demo.points
              ∅ style opts _ Hrun) as (Hscale & Hcmap & Hrest).
  split; [exact Hscale|]. split; [exact Hcmap|].
  exact (Hrest "size" ltac:(done)).
Defined.

(** ** More on style transforms *)

Section TransformsMore.

Variable dim_range_key : eldim -> string.
Variable dim_str : dim -> string.
Variable get_colorscale : value -> value -> option num -> option num -> value.
Variable dim_applies : dim -> Element -> bool.
Variable dim_apply : dim -> Element -> range_table -> evalue.

Local Abbreviation step :=
  (transform_step dim_range_key dim_str get_colorscale dim_applies dim_apply).
Local Abbreviation apply_transforms :=
  (_apply_transforms dim_range_key dim_str get_colorscale dim_applies dim_apply).

Lemma literal_items_skip self element ranges items st :
  (forall k v, (k, v) ∈ items ->
               forall d, coerce self element v <> VDim d) ->
  for_each (step self element ranges) items st = Ok st.
Proof.
  induction items as [|[k v] items IH]; intros Hlit; [done|].
  cbn [for_each].
  assert (step self element ranges st (k, v) = Ok st) as ->.
  { unfold transform_step.
    assert (forall d, coerce self element v <> VDim d) as Hv
      by (apply (Hlit k); apply list_elem_of_here).
    destruct (coerce self element v); try done. by destruct (Hv d). }
  apply IH. intros k' v' Hin. apply (Hlit k'). by apply list_elem_of_further.
Qed.

(** X5.  A style that holds only literals for this plot and element (no
    transform, no string naming a dimension of the element or of the
    overlay) is returned as it is: no attribute changes, no warning, no
    error, and the caller's style is untouched. *)
Theorem literal_style_unchanged self element ranges style :
  (forall k v, (k, v) ∈ style ->
               forall d, coerce self element v <> VDim d) ->
  apply_transforms self element ranges style = Ok (start style).
Proof. intros Hlit. unfold _apply_transforms. by apply literal_items_skip. Qed.


End TransformsMore.

Lemma literal_style_unchanged_witness :
  _apply_transforms Demo.dim_range_key Demo.dim_str Demo.get_colorscale
    Demo.dim_applies Demo.dim_apply Demo.plot0 Demo.points ∅
    [("color", VStr "red"); ("size", VNum (Fin 4)); ("cmap", VStr "reds")]
  = Ok (start [("color", VStr "red"); ("size", VNum (Fin 4));
               ("cmap", VStr "reds")]).
Proof.
  apply literal_style_unchanged.
  intros k v Hin d.
  repeat (apply elem_of_cons in Hin as [[= -> ->]|Hin]; [by vm_compute|]).
  by apply elem_of_nil in Hin.
Defined.


Section TransformInvariants.

Variable dim_range_key : eldim -> string.
Variable dim_str : dim -> string.
Variable get_colorscale : value -> value -> option num -> option num -> value.
Variable dim_applies : dim -> Element -> bool.
Variable dim_apply : dim -> Element -> range_table -> evalue.

Local Abbreviation step :=
  (transform_step dim_range_key dim_str get_colorscale dim_applies dim_apply).
Local Abbreviation apply_transforms :=
  (_apply_transforms dim_range_key dim_str get_colorscale dim_applies dim_apply).
Local Abbreviation applic := (applicable dim_applies).

(** What an iteration does to its own attribute: it drops it with a
    warning, or leaves it in the copy and warns about nothing. *)
Lemma transform_step_own_key self element ranges st k v st' :
  step self element ranges st (k, v) = Ok st' ->
  is_Some (dict_get k (new_style st)) ->
  (exists d, coerce self element v = VDim d /\
             applic self element d = false /\ st' = dropped st k d) \/
  (is_Some (dict_get k (new_style st')) /\ warnings st' = warnings st).
Proof.
  unfold transform_step. intros H Hin.
  destruct (coerce self element v) as [| | |d| | |] eqn:Hc;
    try (injection H as <-; by right).
  destruct (applicable dim_applies self element d) eqn:Ha; simpl in H.
  - right. destruct (negb _ && bool_decide _); [done|].
    destruct (contains "color" k && numeric _).
    + destruct (get_color_opts _ _ _ _ _ _ _ _) as [[copts style']|];
        simpl in H; [|done].
      injection H as <-. simpl. rewrite dict_get_set_eq. split; [by eexists|done].
    + injection H as <-. simpl. rewrite dict_get_set_eq. split; [by eexists|done].
  - left. exists d. destruct (dict_mem k (new_style st)); [|done].
    by injection H as <-.
Qed.

(** A warning of an iteration is an old one or names the iteration's own
    attribute and its transform, which is not applicable. *)
Lemma transform_step_warned self element ranges st k v st' w :
  step self element ranges st (k, v) = Ok st' ->
  w ∈ warnings st' ->
  w ∈ warnings st \/
  exists d, w = (k, d) /\ coerce self element v = VDim d /\
            applic self element d = false.
Proof.
  unfold transform_step. intros H Hw.
  destruct (coerce self element v) as [| | |d| | |] eqn:Hc;
    try (injection H as <-; by left).
  destruct (applicable dim_applies self element d) eqn:Ha; simpl in H.
  - left. destruct (negb _ && bool_decide _); [done|].
    destruct (contains "color" k && numeric _).
    + destruct (get_color_opts _ _ _ _ _ _ _ _) as [[copts style']|];
        simpl in H; [|done].
      by injection H as <-.
    + by injection H as <-.
  - destruct (dict_mem k (new_style st)); [|done].
    injection H as <-. simpl in Hw.
    apply elem_of_app in Hw as [Hw|Hw]; [by left|].
    apply list_elem_of_singleton in Hw as ->. right. by exists d.
Qed.

Lemma apply_transforms_warned self element ranges items st st' w :
  for_each (step self element ranges) items st = Ok st' ->
  w ∈ warnings st' ->
  w ∈ warnings st \/
  exists v, (w.1, v) ∈ items /\ coerce self element v = VDim w.2 /\
            applic self element w.2 = false.
Proof.
  revert st. induction items as [|[k v] items IH]; intros st H Hw;
    cbn [for_each] in H.
  - injection H as <-. by left.
  - destruct (step self element ranges st (k, v)) as [st1|] eqn:Hs; [|done].
    destruct (IH _ H Hw) as [Hw1|(v' & Hin & Hc & Ha)].
    + destruct (transform_step_warned _ _ _ _ _ _ _ _ Hs Hw1)
        as [?|(d & -> & Hc & Ha)]; [by left|].
      right. exists v. split; [apply list_elem_of_here|done].
    + right. exists v'. split; [by apply list_elem_of_further|done].
Qed.

(** X7.  Every warning of a returned style names an attribute of the
    input style whose value is a transform that is not applicable. *)
Theorem warnings_are_sound self element ranges style st k d :
  apply_transforms self element ranges style = Ok st ->
  (k, d) ∈ warnings st ->
  exists v, (k, v) ∈ style /\ coerce self element v = VDim d /\
            applic self element d = false.
Proof.
  unfold _apply_transforms. intros H Hw.
  destruct (apply_transforms_warned _ _ _ _ _ _ _ H Hw) as [Hnil|Hv]; [|done].
  by apply elem_of_nil in Hnil.
Qed.

Lemma dict_key_in {A} (items : list (string * A)) k (v : A) :
  (k, v) ∈ items -> k ∈ dict_keys items.
Proof.
  unfold dict_keys. induction items as [|[k' v'] items IH]; intros Hin.
  - by apply elem_of_nil in Hin.
  - simpl. apply elem_of_cons in Hin as [[= -> ->]|Hin].
    + apply list_elem_of_here.
    + apply list_elem_of_further. by apply IH.
Qed.

(** X8.  In a returned style every attribute of the input (other than
    the keys of colour mapping) is accounted for in exactly one way: it
    is present in the resolved style and no warning names it, or it is
    absent and a warning names it. *)
Theorem resolved_or_warned self element ranges style k v st :
  NoDup (dict_keys style) -> (k, v) ∈ style -> k ∉ color_keys ->
  apply_transforms self element ranges style = Ok st ->
  (is_Some (dict_get k (new_style st)) /\
   forall d, (k, d) ∉ warnings st) \/
  (dict_get k (new_style st) = None /\ exists d, (k, d) ∈ warnings st).
Proof.
  intros Hnd (pre & post & ->)%list_elem_of_split Hk Hrun.
  destruct (keys_after_unique _ _ _ _ Hnd) as [Hpre Hpost].
  assert (k <> "cmap") as Hcmap
    by (intros ->; apply Hk; apply list_elem_of_here).
  rewrite apply_transforms_split in Hrun.
  destruct (for_each _ pre _) as [st1|] eqn:H1; [|done].
  destruct (step self element ranges st1 (k, v)) as [st2|] eqn:H2; [|done].
  assert (is_Some (dict_get k (new_style st1))) as Hmem1.
  { eapply apply_transforms_keeps; [exact H1|done..|].
    simpl. rewrite dict_get_app_notin by (by apply dict_get_None_notin).
    simpl. rewrite decide_True by done. by eexists. }
  assert (forall d, (k, d) ∉ warnings st1) as Hw1.
  { intros d Hw.
    destruct (apply_transforms_warned _ _ _ _ _ _ _ H1 Hw)
      as [Hnil|(v' & Hin' & _)].
    - by apply elem_of_nil in Hnil.
    - apply Hpre. by eapply dict_key_in. }
  destruct (transform_step_own_key _ _ _ _ _ _ _ H2 Hmem1)
    as [(d & Hc & Ha & ->)|[Hmem2 Hw2]].
  - right. split.
    + erewrite apply_transforms_frame by done. simpl. apply dict_get_pop_eq.
    + exists d. eapply apply_transforms_warnings; [exact Hrun|].
      simpl. apply elem_of_app. right. apply list_elem_of_here.
  - left. split.
    + by erewrite apply_transforms_frame by done.
    + intros d Hw.
      destruct (apply_transforms_warned _ _ _ _ _ _ _ Hrun Hw)
        as [Hw'|(v' & Hin' & _)].
      * rewrite Hw2 in Hw'. by apply (Hw1 d).
      * apply Hpost. by eapply dict_key_in.
Qed.

End TransformInvariants.

Lemma warnings_are_sound_witness :
  exists st,
    _apply_transforms Demo.dim_range_key Demo.dim_str Demo.get_colorscale
      Demo.dim_applies Demo.dim_apply Demo.plot0 Demo.points ∅
      [("size", VStr "size"); ("alpha", VDim (Dim "w" [1]))] = Ok st /\
    warnings st = [("alpha", Dim "w" [1])] /\
    exists v, (("alpha", v) ∈ [("size", VStr "size");
                               ("alpha", VDim (Dim "w" [1]))]) /\
              coerce Demo.plot0 Demo.points v = VDim (Dim "w" [1]) /\
              applicable Demo.dim_applies Demo.plot0 Demo.points (Dim "w" [1])
              = false.
Proof.
  pose (style := [("size", VStr "size"); ("alpha", VDim (Dim "w" [1]))]).
  pose (st := {| new_style := [("size", VScalar (Demo.n 5))];
                 cur_style := style;
                 warnings := [("alpha", Dim "w" [1])] |}).
  assert (_apply_transforms Demo.dim_range_key Demo.dim_str
            Demo.get_colorscale Demo.dim_applies Demo.dim_apply Demo.plot0
            Demo.points ∅ style = Ok st) as Hrun by reflexivity.
  exists st. split; [exact Hrun|]. split; [reflexivity|].
  exact (warnings_are_sound Demo.dim_range_key Demo.dim_str
           Demo.get_colorscale Demo.dim_applies Demo.dim_apply Demo.plot0
           Demo.points ∅ style st "alpha" (Dim "w" [1]) Hrun
           ltac:(apply list_elem_of_here)).
Defined.

Lemma resolved_or_warned_witness :
  exists st,
    _apply_transforms Demo.dim_range_key Demo.dim_str Demo.get_colorscale
      Demo.dim_applies Demo.dim_apply Demo.plot0 Demo.points ∅
      [("size", VStr "size"); ("alpha", VDim (Dim "w" [1]))] = Ok st /\
    ((is_Some (dict_get "alpha" (new_style st)) /\
      forall d, ("alpha", d) ∉ warnings st) \/
     (dict_get "alpha" (new_style st) = None /\
      exists d, ("alpha", d) ∈ warnings st)).
Proof.
  pose (style := [("size", VStr "size"); ("alpha", VDim (Dim "w" [1]))]).
  pose (st := {| new_style := [("size", VScalar (Demo.n 5))];
                 cur_style := style;
                 warnings := [("alpha", Dim "w" [1])] |}).
  assert (_apply_transforms Demo.dim_range_key Demo.dim_str
            Demo.get_colorscale Demo.dim_applies Demo.dim_apply Demo.plot0
            Demo.points ∅ style = Ok st) as Hrun by reflexivity.
  exists st. split; [exact Hrun|].
  exact (resolved_or_warned Demo.dim_range_key Demo.dim_str
           Demo.get_colorscale Demo.dim_applies Demo.dim_apply Demo.plot0
           Demo.points ∅ style "alpha" (VDim (Dim "w" [1])) st
           ltac:(by_evaluation)
           ltac:(apply list_elem_of_further, list_elem_of_here)
           ltac:(by_evaluation) Hrun).
Defined.

Section TransformsReturn.

Variable dim_range_key : eldim -> string.
Variable dim_str : dim -> string.
Variable get_colorscale : value -> value -> option num -> option num -> value.
Variable dim_applies : dim -> Element -> bool.
Variable dim_apply : dim -> Element -> range_table -> evalue.

Local Abbreviation step :=
  (transform_step dim_range_key dim_str get_colorscale dim_applies dim_apply).
Local Abbreviation apply_transforms :=
  (_apply_transforms dim_range_key dim_str get_colorscale dim_applies dim_apply).
Local Abbreviation applic := (applicable dim_applies).

(** For a transform, [get_color_opts] raises only on a title clash. *)
Lemma get_color_opts_returns self d element ranges style :
  (colorbar self = true -> dict_mem "title" (colorbar_opts self) = false) ->
  exists r,
    get_color_opts dim_range_key dim_str get_colorscale
      self (ElDim d) element ranges style = Ok r.
Proof.
  intros Ht. unfold get_color_opts, colorbar_entry.
  destruct (colorbar self); simpl.
  - rewrite Ht by done. simpl.
    destruct (resolve_bounds _ _ _ _ _) as [auto b]. by eexists.
  - destruct (resolve_bounds _ _ _ _ _) as [auto b]. by eexists.
Qed.

Lemma dict_get_in_is_Some {A} (items : list (string * A)) k (v : A) :
  (k, v) ∈ items -> is_Some (dict_get k items).
Proof.
  intros Hin. destruct (dict_get k items) eqn:Hg; [by eexists|].
  apply dict_get_None_notin in Hg. destruct Hg. by eapply dict_key_in.
Qed.

Lemma transform_loop_returns self element ranges items st :
  _nonvectorized_styles self = [] ->
  (colorbar self = true -> dict_mem "title" (colorbar_opts self) = false) ->
  NoDup (dict_keys items) ->
  (forall k v, (k, v) ∈ items -> k <> "cmap" ->
               is_Some (dict_get k (new_style st))) ->
  (forall v d, ("cmap", v) ∈ items -> coerce self element v = VDim d ->
               applic self element d = true) ->
  exists st', for_each (step self element ranges) items st = Ok st'.
Proof.
  intros Hnv Ht. revert st.
  induction items as [|[k v] items IH]; intros st Hnd Hmem Hcmap;
    [by eexists|].
  cbn [for_each]. unfold dict_keys in Hnd. simpl in Hnd.
  apply NoDup_cons in Hnd as [Hk Hnd].
  assert (exists st1, step self element ranges st (k, v) = Ok st1)
    as [st1 Hs].
  { unfold transform_step.
    destruct (coerce self element v) as [| | |d| | |] eqn:Hc;
      try by eexists.
    destruct (applicable dim_applies self element d) eqn:Ha; simpl.
    - rewrite Hnv. rewrite bool_decide_false by apply not_elem_of_nil.
      rewrite andb_false_r.
      destruct (contains "color" k && numeric _); [|by eexists].
      destruct (get_color_opts_returns self d element ranges (cur_style st) Ht)
        as [[copts style'] ->].
      by eexists.
    - assert (k <> "cmap") as Hne.
      { intros ->.
        rewrite (Hcmap v d (list_elem_of_here _ _) Hc) in Ha. done. }
      destruct (Hmem k v (list_elem_of_here _ _) Hne) as [x Hx].
      unfold dict_mem. rewrite Hx. by eexists. }
  rewrite Hs. apply IH; [done| |].
  - intros k' v' Hin Hne.
    eapply transform_step_keeps; [exact Hs| |done|].
    + intros ->. apply Hk. by eapply dict_key_in.
    + apply (Hmem k' v'); [by apply list_elem_of_further|done].
  - intros v' d Hin. apply Hcmap. by apply list_elem_of_further.
Qed.

(** Where the collaborators return, as the functions standing for them
    here do, the loop itself raises nothing when the plot declares no
    non-vectorizable style, its colorbar options do not clash with the
    title, and a [cmap] entry of the style is not an unresolvable
    transform. *)
Lemma apply_transforms_returns self element ranges style :
  _nonvectorized_styles self = [] ->
  (colorbar self = true -> dict_mem "title" (colorbar_opts self) = false) ->
  NoDup (dict_keys style) ->
  (forall v d, ("cmap", v) ∈ style -> coerce self element v = VDim d ->
               applic self element d = true) ->
  exists st, apply_transforms self element ranges style = Ok st.
Proof.
  intros Hnv Ht Hnd Hcmap. unfold _apply_transforms.
  apply transform_loop_returns; try done.
  intros k v Hin _. simpl. by eapply dict_get_in_is_Some.
Qed.

End TransformsReturn.

Lemma apply_transforms_returns_witness :
  exists st,
    _apply_transforms Demo.dim_range_key Demo.dim_str Demo.get_colorscale
      Demo.dim_applies Demo.dim_apply Demo.plot0 Demo.points ∅
      [("color", VStr "z"); ("alpha", VDim (Dim "w" [])); ("cmap", VStr "reds")]
    = Ok st.
Proof.
  apply (apply_transforms_returns Demo.dim_range_key Demo.dim_str
           Demo.get_colorscale Demo.dim_applies Demo.dim_apply Demo.plot0
           Demo.points ∅).
  - reflexivity.
  - discriminate.
  - by_evaluation.
  - intros v d Hin.
    apply elem_of_cons in Hin as [Heq|Hin]; [discriminate Heq|].
    apply elem_of_cons in Hin as [Heq|Hin]; [discriminate Heq|].
    apply elem_of_cons in Hin as [Heq|Hin]; [|by apply elem_of_nil in Hin].
    injection Heq as ->. intros Hc. vm_compute in Hc. discriminate Hc.
Defined.

(** ** The collapse of constant arrays *)

Lemma elem_of_unique_array y xs : y ∈ unique_array xs <-> y ∈ xs.
Proof.
  induction xs as [|x xs IH]; simpl; [done|].
  rewrite !elem_of_cons, list_elem_of_filter, IH.
  destruct (decide (y = x)); intuition.
Qed.

Lemma unique_array_one x xs :
  length (unique_array (x :: xs)) = 1 <-> forall y, y ∈ xs -> y = x.
Proof.
  simpl. split.
  - intros Hlen y Hy. destruct (decide (y = x)) as [|Hne]; [done|].
    assert (y ∈ filter (fun y => y <> x) (unique_array xs)) as Hin
      by (apply list_elem_of_filter; split;
          [done|by apply (proj2 (elem_of_unique_array _ _))]).
    injection Hlen as Hlen. apply nil_length_inv in Hlen.
    rewrite Hlen in Hin. by apply elem_of_nil in Hin.
  - intros Hall.
    destruct (filter (fun y => y <> x) (unique_array xs)) as [|z zs] eqn:Hf;
      [done|].
    assert (z ∈ filter (fun y => y <> x) (unique_array xs)) as Hin
      by (rewrite Hf; apply list_elem_of_here).
    apply list_elem_of_filter in Hin as [Hne Hin].
    apply (proj1 (elem_of_unique_array _ _)) in Hin.
    by destruct (Hne (Hall z Hin)).
Qed.

(** X10.  An evaluated array is collapsed to a scalar exactly when the
    attribute name does not contain [color], the array is not empty and
    all its entries are equal; the scalar is then its first entry.
    Arrays with two distinct entries and empty arrays stay arrays. *)
Theorem collapse_exactly k xs s :
  collapse k (EArr xs) = EScalar s <->
  contains "color" k = false /\ head xs = Some s /\
  (forall y, y ∈ xs -> y = s).
Proof.
  unfold collapse. destruct xs as [|x xs].
  - simpl. split; [done|]. by intros (_ & ? & _).
  - destruct (bool_decide (length (unique_array (x :: xs)) = 1)) eqn:Hu.
    + apply bool_decide_eq_true in Hu.
      pose proof (proj1 (unique_array_one x xs) Hu) as Hsame. clear Hu.
      destruct (contains "color" k); cbn [andb negb head].
      * split; [done|]. by intros (? & _).
      * split.
        -- intros [= <-]. split; [done|]. split; [done|].
           intros y [->|Hy]%elem_of_cons; [done|by apply Hsame].
        -- by intros (_ & [= ->] & _).
    + apply bool_decide_eq_false in Hu. cbn [andb head]. split; [done|].
      intros (_ & [= ->] & Hall). destruct Hu.
      apply (proj2 (unique_array_one s xs)).
      intros y Hy. apply Hall. by apply list_elem_of_further.
Qed.

Section StyleFrame.

Variable dim_range_key : eldim -> string.
Variable dim_str : dim -> string.
Variable get_colorscale : value -> value -> option num -> option num -> value.
Variable dim_applies : dim -> Element -> bool.
Variable dim_apply : dim -> Element -> range_table -> evalue.

Local Abbreviation step :=
  (transform_step dim_range_key dim_str get_colorscale dim_applies dim_apply).
Local Abbreviation apply_transforms :=
  (_apply_transforms dim_range_key dim_str get_colorscale dim_applies dim_apply).

(** An iteration for an attribute without [color] in its name leaves the
    caller's style alone and adds no key but its own to the copy. *)
Lemma transform_step_plain self element ranges st k v st' :
  step self element ranges st (k, v) = Ok st' ->
  contains "color" k = false ->
  cur_style st' = cur_style st /\
  forall k0, is_Some (dict_get k0 (new_style st')) ->
             is_Some (dict_get k0 (new_style st)) \/ k0 = k.
Proof.
  unfold transform_step. intros H Hc.
  destruct (coerce self element v) as [| | |d| | |];
    try (injection H as <-; split; [done|by left]).
  destruct (negb (applicable dim_applies self element d)).
  { destruct (dict_mem k (new_style st)); [|done].
    injection H as <-. simpl. split; [done|]. intros k0 Hk0.
    destruct (decide (k0 = k)) as [->|Hne]; [by right|left].
    by rewrite dict_get_pop_ne in Hk0. }
  destruct (negb _ && bool_decide _); [done|].
  rewrite Hc in H. simpl in H. injection H as <-. simpl.
  split; [done|]. intros k0 Hk0.
  destruct (decide (k0 = k)) as [->|Hne]; [by right|left].
  by rewrite dict_get_set_ne in Hk0.
Qed.

(** X11.  When no attribute name of the style contains [color], the
    caller's style is exactly as it was when the call returns, and the
    resolved style has no key that the input did not have. *)
Theorem style_untouched_without_color self element ranges style st :
  (forall k v, (k, v) ∈ style -> contains "color" k = false) ->
  apply_transforms self element ranges style = Ok st ->
  cur_style st = style /\
  (forall k, is_Some (dict_get k (new_style st)) ->
             is_Some (dict_get k style)).
Proof.
  intros Hplain. unfold _apply_transforms.
  apply (for_each_invariant (step self element ranges)
           (fun s => cur_style s = style /\
                     forall k, is_Some (dict_get k (new_style s)) ->
                               is_Some (dict_get k style))); [|done].
  intros s [k v] s' Hin [Hcur Hkeys] Hs.
  destruct (transform_step_plain _ _ _ _ _ _ _ Hs (Hplain k v Hin))
    as [Hcur' Hkeys'].
  split; [congruence|]. intros k0 Hk0.
  destruct (Hkeys' k0 Hk0) as [?| ->]; [by apply Hkeys|].
  by eapply dict_get_in_is_Some.
Qed.

End StyleFrame.

Lemma style_untouched_without_color_witness :
  exists st,
    _apply_transforms Demo.dim_range_key Demo.dim_str Demo.get_colorscale
      Demo.dim_applies Demo.dim_apply Demo.plot0 Demo.points ∅
      [("size", VStr "z"); ("cmap", VStr "reds")] = Ok st /\
    cur_style st = [("size", VStr "z"); ("cmap", VStr "reds")].
Proof.
  pose (style := [("size", VStr "z"); ("cmap", VStr "reds")]).
  pose (st := {| new_style := [("size", VArr [Demo.n (-3); Demo.n 1; Demo.n 2]);
                               ("cmap", VStr "reds")];
                 cur_style := style; warnings := [] |}).
  assert (_apply_transforms Demo.dim_range_key Demo.dim_str
            Demo.get_colorscale Demo.dim_applies Demo.dim_apply Demo.plot0
            Demo.points ∅ style = Ok st) as Hrun by reflexivity.
  exists st. split; [exact Hrun|].
  refine (proj1 (style_untouched_without_color Demo.dim_range_key Demo.dim_str
                   Demo.get_colorscale Demo.dim_applies Demo.dim_apply
                   Demo.plot0 Demo.points ∅ style st _ Hrun)).
  intros k v Hin.
  apply elem_of_cons in Hin as [[= -> ->]|Hin]; [reflexivity|].
  apply elem_of_cons in Hin as [[= -> ->]|Hin]; [reflexivity|].
  by apply elem_of_nil in Hin.
Defined.

(** ** More on traces *)

Lemma dict_keys_set_mem {A} k (v : A) (d : list (string * A)) :
  is_Some (dict_get k d) -> dict_keys (dict_set k v d) = dict_keys d.
Proof.
  unfold dict_keys. induction d as [|[k' v'] d IH]; simpl.
  - by intros [? ?].
  - destruct (decide (k = k')) as [->|Hne]; simpl; [done|].
    intros H. f_equal. by apply IH.
Qed.

Lemma read_trace_set options t k v :
  read_trace options (dict_set k (Own v) t)
  = dict_set k v (read_trace options t).
Proof.
  unfold read_trace. induction t as [|[k' tv] t IH]; simpl; [done|].
  destruct (decide (k = k')) as [->|Hne]; simpl.
  - by destruct tv; simpl; rewrite decide_True.
  - destruct tv; simpl; rewrite decide_False by done; f_equal; apply IH.
Qed.

Lemma dict_get_NoDup_in {A} (d : list (string * A)) k (v : A) :
  NoDup (dict_keys d) -> (k, v) ∈ d -> dict_get k d = Some v.
Proof.
  unfold dict_keys. induction d as [|[k' v'] d IH]; simpl; intros Hnd Hin.
  - by apply elem_of_nil in Hin.
  - apply NoDup_cons in Hnd as [Hk Hnd].
    apply elem_of_cons in Hin as [[= -> ->]|Hin].
    + by rewrite decide_True.
    + rewrite decide_False; [by apply IH|].
      intros ->. apply Hk. by eapply dict_key_in.
Qed.

Lemma read_trace_shallow_copy options :
  NoDup (dict_keys options) ->
  read_trace options (shallow_copy options) = options.
Proof.
  intros Hnd.
  assert (forall l, (forall k v, (k, v) ∈ l -> dict_get k options = Some v) ->
                    read_trace options (shallow_copy l) = l) as Hgen.
  { induction l as [|[k v] l IH]; intros Hl; [done|].
    assert (read_trace options (shallow_copy l) = l) as IH'
      by (apply IH; intros ? ? ?; apply Hl; by apply list_elem_of_further).
    unfold read_trace, shallow_copy in *. simpl. f_equal; [|exact IH'].
    destruct v; simpl; try done.
    by rewrite (Hl k (VDict d) (list_elem_of_here _ _)). }
  apply Hgen. intros k v. by apply dict_get_NoDup_in.
Qed.

(** A data item whose key holds no nested record in the trace is
    assigned. *)
Lemma merge_item_assigns (t : trace) (o : pydict) k v :
  (forall tv, dict_get k t = Some tv ->
              exists x, tv = Own x /\ is_dict x = false) ->
  merge_item (t, o) (k, v) = (None, (dict_set k (Own v) t, o)).
Proof.
  unfold merge_item. intros H.
  destruct (dict_get k t) as [tv|]; [|done].
  destruct (H tv eq_refl) as (x & -> & Hx). by destruct x.
Qed.

Lemma merge_loop_flat data (t : trace) (o : pydict) :
  NoDup (dict_keys data) ->
  (forall k tv, k ∈ dict_keys data -> dict_get k t = Some tv ->
                exists x, tv = Own x /\ is_dict x = false) ->
  exists t' : trace,
    for_each_st merge_item data (t, o) = (None, (t', o)) /\
    read_trace o t' = dict_update (read_trace o t) data.
Proof.
  revert t. induction data as [|[k v] data IH]; intros t Hnd Hflat.
  - by exists t.
  - unfold dict_keys in Hnd. simpl in Hnd.
    apply NoDup_cons in Hnd as [Hk Hnd]. cbn [for_each_st].
    rewrite merge_item_assigns
      by (intros tv; apply Hflat; apply list_elem_of_here).
    destruct (IH (dict_set k (Own v) t) Hnd) as (t' & Hloop & Hread).
    + intros k' tv Hin. rewrite dict_get_set_ne by (by intros ->).
      apply Hflat. by apply list_elem_of_further.
    + exists t'. split; [done|].
      rewrite Hread, read_trace_set. done.
Qed.

Lemma per_trace_styles_off self index t options :
  _per_trace self = false -> per_trace_styles self index t options = Ok t.
Proof.
  unfold per_trace_styles. intros ->.
  destruct (_style_key self); [|done]. by rewrite andb_false_r.
Qed.

(** X12.  For a plot without per-trace styles, when no data field has
    the key of a nested record of the options, [init_graph] returns the
    options updated with the data, like [dict(options, **data)], and
    leaves the options as they were. *)
Theorem init_graph_flat self data options index :
  _per_trace self = false ->
  NoDup (dict_keys data) -> NoDup (dict_keys options) ->
  (forall k d, k ∈ dict_keys data -> dict_get k options <> Some (VDict d)) ->
  exists t,
    init_graph self data options index = (Ok t, options) /\
    read_trace options t = dict_update options data.
Proof.
  intros Hpt Hdata Hopts Hflat.
  destruct (merge_loop_flat data (shallow_copy options) options Hdata)
    as (t & Hloop & Hread).
  - intros k tv Hin. rewrite dict_get_shallow_copy.
    destruct (dict_get k options) as [v|] eqn:Hv; [|done].
    intros [= <-]. destruct v; try (by eexists).
    by destruct (Hflat k d Hin).
  - exists t. unfold init_graph. rewrite Hloop, per_trace_styles_off by done.
    split; [done|]. by rewrite Hread, read_trace_shallow_copy.
Qed.

Lemma init_graph_flat_witness :
  let options := [("name", VStr "pts"); ("mode", VStr "lines");
                  ("marker", VDict [("size", VNum (Fin 5))])] in
  let data := [("x", VArr [Demo.n 0; Demo.n 1]); ("mode", VStr "markers")] in
  exists t,
    init_graph Demo.plot0 data options 0 = (Ok t, options) /\
    read_trace options t
    = [("name", VStr "pts"); ("mode", VStr "markers");
       ("marker", VDict [("size", VNum (Fin 5))]);
       ("x", VArr [Demo.n 0; Demo.n 1])].
Proof.
  intros options data.
  destruct (init_graph_flat Demo.plot0 data options 0 eq_refl
              ltac:(by_evaluation) ltac:(by_evaluation)) as (t & Hrun & Hread).
  - intros k d Hin.
    apply elem_of_cons in Hin as [->|Hin]; [discriminate|].
    apply elem_of_cons in Hin as [->|Hin]; [discriminate|].
    by apply elem_of_nil in Hin.
  - exists t. split; [exact Hrun|]. rewrite Hread. reflexivity.
Defined.

Lemma nested_update_refl keys o : nested_update keys o o.
Proof. split; [done|]. by left. Qed.

Lemma nested_update_step k0 keys o o1 o' :
  nested_update [k0] o o1 -> nested_update keys o1 o' ->
  nested_update (k0 :: keys) o o'.
Proof.
  intros [Hk1 H1] [Hk2 H2]. split; [congruence|]. intros k.
  destruct (H2 k) as [E2|(Hin & d1 & d2 & Ho1 & Ho')],
           (H1 k) as [E1|(Hin0 & d & d' & Ho & Ho1')].
  - left. congruence.
  - right. apply list_elem_of_singleton in Hin0 as ->.
    split; [apply list_elem_of_here|]. exists d, d'. split; [done|congruence].
  - right. split; [by apply list_elem_of_further|].
    exists d1, d2. split; [congruence|done].
  - right. split; [by apply list_elem_of_further|]. by exists d, d2.
Qed.

Lemma merge_item_options (t : trace) (o : pydict) k v e t' o' :
  merge_item (t, o) (k, v) = (e, (t', o')) -> nested_update [k] o o'.
Proof.
  unfold merge_item. intros H.
  destruct (dict_get k t) as [[x|]|].
  - destruct x; try (injection H as <- <- <-; apply nested_update_refl).
    destruct (py_update d v) as [e' d'].
    injection H as <- <- <-. apply nested_update_refl.
  - destruct (dict_get k o) as [[]|] eqn:Ho;
      try (injection H as <- <- <-; apply nested_update_refl).
    destruct (py_update d v) as [e' d']. injection H as <- <- <-. split.
    + apply dict_keys_set_mem. rewrite Ho. by eexists.
    + intros k'. destruct (decide (k' = k)) as [->|Hne].
      * right. split; [apply list_elem_of_here|].
        eexists _, _. split; [exact Ho|apply dict_get_set_eq].
      * left. by apply dict_get_set_ne.
  - injection H as <- <- <-. apply nested_update_refl.
Qed.

Lemma merge_loop_options data (t : trace) (o : pydict) :
  nested_update (dict_keys data) o
    (for_each_st merge_item data (t, o)).2.2.
Proof.
  revert t o. induction data as [|[k v] data IH]; intros t o;
    cbn [for_each_st].
  - apply nested_update_refl.
  - destruct (merge_item (t, o) (k, v)) as [[e|] [t1 o1]] eqn:Hm.
    + simpl. eapply nested_update_step;
        [by eapply merge_item_options|apply nested_update_refl].
    + eapply nested_update_step; [by eapply merge_item_options|apply IH].
Qed.

(** X13.  Whether it returns or raises, [init_graph] leaves the keys of
    the options and their order alone, and changes no entry except
    nested records under keys of the data: entries under other keys and
    entries that are not nested records are what they were, and a nested
    record stays a nested record. *)
Theorem init_graph_options_frame self data options index :
  nested_update (dict_keys data) options
    (init_graph self data options index).2 /\
  (forall k, k ∉ dict_keys data ->
             dict_get k (init_graph self data options index).2
             = dict_get k options) /\
  (forall k, (forall d, dict_get k options <> Some (VDict d)) ->
             dict_get k (init_graph self data options index).2
             = dict_get k options).
Proof.
  assert (nested_update (dict_keys data) options
            (init_graph self data options index).2) as Hup.
  { pose proof (merge_loop_options data (shallow_copy options) options) as H.
    unfold init_graph.
    by destruct (for_each_st merge_item data (shallow_copy options, options))
      as [[e|] [t o']]. }
  split; [exact Hup|]. destruct Hup as [_ Hup]. split.
  - intros k Hk. by destruct (Hup k) as [?|[? _]].
  - intros k Hk. destruct (Hup k) as [?|(_ & d & _ & Hd & _)]; [done|].
    by destruct (Hk d).
Qed.

(** ** Per-trace styles *)

Lemma shared_inv_start options : shared_inv (shallow_copy options) options.
Proof.
  intros k. rewrite dict_get_shallow_copy.
  destruct (dict_get k options) as [v|]; simpl.
  - destruct v; split; try done; try (by intros [? ?]). by eexists.
  - split; [done|]. by intros [? ?].
Qed.

Lemma merge_item_shared_inv (t : trace) (o : pydict) k v e t' o' :
  merge_item (t, o) (k, v) = (e, (t', o')) ->
  shared_inv t o -> shared_inv t' o'.
Proof.
  unfold merge_item. intros H Hinv.
  assert (forall x, dict_get k t <> Some Shared ->
                    shared_inv (dict_set k (Own x) t) o) as Hown.
  { intros x Hns k'. destruct (decide (k' = k)) as [->|Hne].
    - rewrite dict_get_set_eq. split; [done|].
      intros Hd. by apply Hinv in Hd.
    - rewrite dict_get_set_ne by done. apply Hinv. }
  destruct (dict_get k t) as [[x|]|] eqn:Ht.
  - destruct x; try (injection H as <- <- <-; by apply Hown).
    destruct (py_update d v) as [e' d'].
    injection H as <- <- <-. by apply Hown.
  - destruct (dict_get k o) as [[]|] eqn:Ho;
      try (by injection H as <- <- <-).
    destruct (py_update d v) as [e' d']. injection H as <- <- <-.
    intros k'. destruct (decide (k' = k)) as [->|Hne].
    + rewrite dict_get_set_eq, Ht. split; [by eexists|done].
    + rewrite dict_get_set_ne by done. apply Hinv.
  - injection H as <- <- <-. by apply Hown.
Qed.

Lemma merge_loop_shared_inv data (t : trace) (o : pydict) t' o' :
  for_each_st merge_item data (t, o) = (None, (t', o')) ->
  shared_inv t o -> shared_inv t' o'.
Proof.
  revert t o. induction data as [|[k v] data IH]; intros t o H Hinv;
    cbn [for_each_st] in H.
  - by injection H as <- <-.
  - destruct (merge_item (t, o) (k, v)) as [[e|] [t1 o1]] eqn:Hm; [done|].
    eapply IH; [exact H|]. by eapply merge_item_shared_inv.
Qed.

Lemma dict_get_filter_None {A} (P : string * A -> Prop)
    `{!forall x, Decision (P x)} (l : list (string * A)) s :
  dict_get s l = None -> dict_get s (filter P l) = None.
Proof.
  induction l as [|[k v] l IH]; simpl; [done|].
  destruct (decide (s = k)) as [->|Hne]; [done|]. intros Hs.
  rewrite filter_cons. destruct (decide (P (k, v))); simpl; [|by apply IH].
  rewrite decide_False by done. by apply IH.
Qed.

Lemma dict_get_filter {A} (P : string * A -> Prop)
    `{!forall x, Decision (P x)} (l : list (string * A)) s :
  NoDup (dict_keys l) ->
  dict_get s (filter P l)
  = match dict_get s l with
    | Some v => if decide (P (s, v)) then Some v else None
    | None => None
    end.
Proof.
  unfold dict_keys. induction l as [|[k v] l IH]; simpl; [done|].
  intros [Hk Hnd]%NoDup_cons. rewrite filter_cons.
  destruct (decide (s = k)) as [->|Hne].
  - destruct (decide (P (k, v))); simpl.
    + by rewrite decide_True.
    + apply dict_get_filter_None. by apply dict_get_None_notin.
  - destruct (decide (P (k, v))); simpl; [rewrite decide_False by done|];
      by apply IH.
Qed.

Lemma NoDup_keys_filter {A} (P : string * A -> Prop)
    `{!forall x, Decision (P x)} (l : list (string * A)) :
  NoDup (dict_keys l) -> NoDup (dict_keys (filter P l)).
Proof.
  unfold dict_keys. induction l as [|[k v] l IH]; simpl; [done|].
  intros [Hk Hnd]%NoDup_cons. rewrite filter_cons.
  destruct (decide (P (k, v))); simpl; [|by apply IH].
  apply NoDup_cons. split; [|by apply IH].
  apply (dict_get_None_notin k (filter P l)).
  apply dict_get_filter_None. by apply dict_get_None_notin.
Qed.

(** The loop of lines 178-179 over the array valued styles. *)
Lemma select_loop index (vec : pydict) :
  NoDup (dict_keys vec) ->
  forall copy copy',
    for_each (select_index index) vec copy = Ok copy' ->
    forall s,
      match dict_get s vec with
      | Some (VArr xs) =>
          exists x, xs !! index = Some x /\
                    dict_get s copy' = Some (VScalar x)
      | _ => dict_get s copy' = dict_get s copy
      end.
Proof.
  unfold dict_keys. induction vec as [|[s0 v0] vec IH]; intros Hnd copy copy' H s.
  - simpl in *. by injection H as <-.
  - simpl in Hnd. apply NoDup_cons in Hnd as [Hs0 Hnd]. cbn [for_each] in H.
    destruct (select_index index copy (s0, v0)) as [copy1|] eqn:Hsel; [|done].
    pose proof (IH Hnd copy1 copy' H) as Hrest.
    simpl. destruct (decide (s = s0)) as [->|Hne].
    + specialize (Hrest s0).
      rewrite (proj2 (dict_get_None_notin s0 vec) Hs0) in Hrest.
      unfold select_index in Hsel. simpl in Hsel.
      destruct v0; try (injection Hsel as <-; exact Hrest).
      destruct (xs !! index) as [x|]; [|done]. injection Hsel as <-.
      exists x. split; [done|]. by rewrite Hrest, dict_get_set_eq.
    + specialize (Hrest s).
      assert (dict_get s copy1 = dict_get s copy) as Hc.
      { unfold select_index in Hsel. simpl in Hsel.
        destruct v0; try (by injection Hsel as <-).
        destruct (xs !! index); [|done]. injection Hsel as <-.
        by apply dict_get_set_ne. }
      destruct (dict_get s vec) as [[]|]; by rewrite <- ?Hc.
Qed.

(** An array without an entry at the index stops the loop. *)
Lemma select_loop_raises index (vec : pydict) s xs :
  (s, VArr xs) ∈ vec -> xs !! index = None ->
  forall copy, for_each (select_index index) vec copy = Raise IndexError.
Proof.
  induction vec as [|[s0 v0] vec IH]; intros Hin Hx copy.
  - by apply elem_of_nil in Hin.
  - cbn [for_each]. unfold select_index at 1. simpl.
    destruct v0 as [| |ys| | | |];
      try (apply IH; [|done];
           by apply elem_of_cons in Hin as [[=]|Hin]).
    destruct (ys !! index) as [y|] eqn:Hy; [|done].
    apply IH; [|done].
    apply elem_of_cons in Hin as [[= -> ->]|Hin]; [congruence|done].
Qed.

(** What [x.update(v)] raises. *)
Lemma pair_of_raises x e :
  pair_of x = Raise e -> e = TypeError \/ e = ValueError.
Proof.
  unfold pair_of. intros H.
  repeat case_match; simplify_eq; auto.
Qed.

Lemma update_seq_raises xs d e d' :
  update_seq d xs = (Some e, d') -> e = TypeError \/ e = ValueError.
Proof.
  revert d. induction xs as [|x xs IH]; intros d H; simpl in H; [done|].
  destruct (pair_of x) as [[k y]|e'] eqn:Hp.
  - by eapply IH.
  - injection H as <- _. by eapply pair_of_raises.
Qed.

Lemma py_update_raises d v e d' :
  py_update d v = (Some e, d') -> e = TypeError \/ e = ValueError.
Proof.
  unfold py_update. intros H.
  destruct v as [|[n|str|b]|xs|dm|xs|xs|u].
  - injection H as <- _. by left.
  - injection H as <- _. by left.
  - exact (update_seq_raises _ _ _ _ H).
  - injection H as <- _. by left.
  - exact (update_seq_raises _ _ _ _ H).
  - injection H as <- _. by left.
  - exact (update_seq_raises _ _ _ _ H).
  - exact (update_seq_raises _ _ _ _ H).
  - done.
Qed.

Lemma merge_item_raises (t : trace) (o : pydict) kv e st :
  merge_item (t, o) kv = (Some e, st) -> e = TypeError \/ e = ValueError.
Proof.
  unfold merge_item. destruct kv as [k v]. intros H.
  destruct (dict_get k t) as [[x|]|]; [| |done].
  - destruct x; try done.
    destruct (py_update d v) as [e' d'] eqn:Hu. injection H as -> _.
    by eapply py_update_raises.
  - destruct (dict_get k o) as [[]|]; try (injection H as <- _; by left).
    destruct (py_update d v) as [e' d'] eqn:Hu. injection H as -> _.
    by eapply py_update_raises.
Qed.

Lemma merge_loop_raises data (t : trace) (o : pydict) e st :
  for_each_st merge_item data (t, o) = (Some e, st) ->
  e = TypeError \/ e = ValueError.
Proof.
  revert t o. induction data as [|kv data IH]; intros t o H;
    cbn [for_each_st] in H; [done|].
  destruct (merge_item (t, o) kv) as [[e'|] [t1 o1]] eqn:Hm.
  - injection H as <- _. by eapply merge_item_raises.
  - by eapply IH.
Qed.

(** Merging mappings into the nested records never raises. *)
Lemma merge_loop_returns data (t : trace) (o : pydict) :
  NoDup (dict_keys data) ->
  shared_inv t o ->
  (forall k d, k ∈ dict_keys data -> dict_get k t <> Some (Own (VDict d))) ->
  merges_mappings o data ->
  exists (t' : trace) (o' : pydict),
    for_each_st merge_item data (t, o) = (None, (t', o')).
Proof.
  revert t o. induction data as [|[k v] data IH]; intros t o Hnd Hinv Hown Hmap.
  - by exists t, o.
  - unfold dict_keys in Hnd. simpl in Hnd.
    apply NoDup_cons in Hnd as [Hk Hnd]. cbn [for_each_st].
    assert (exists (t1 : trace) (o1 : pydict),
               merge_item (t, o) (k, v) = (None, (t1, o1)))
      as (t1 & o1 & Hm).
    { unfold merge_item. destruct (dict_get k t) as [[x|]|] eqn:Ht.
      - destruct x; try (by eexists _, _).
        by destruct (Hown k d (list_elem_of_here _ _)).
      - destruct (proj1 (Hinv k) Ht) as [d Hd]. rewrite Hd.
        pose proof (Hmap k v d (list_elem_of_here _ _) Hd) as Hv.
        destruct v; try done. by eexists _, _.
      - by eexists _, _. }
    rewrite Hm. apply IH; [done| | |].
    + by eapply merge_item_shared_inv.
    + intros k' d Hin.
      destruct (merge_item_frame _ _ _ _ _ _ _ k' Hm) as [-> _].
      * by intros ->.
      * apply Hown. by apply list_elem_of_further.
    + intros k' v' d Hin Hd. apply (Hmap k' v' d).
      * by apply list_elem_of_further.
      * destruct (merge_item_frame _ _ _ _ _ _ _ k' Hm) as [_ <-]; [|done].
        intros ->. apply Hk. apply list_elem_of_fmap.
        by exists (k, v').
Qed.

Lemma init_graph_merge_returns data options :
  NoDup (dict_keys data) -> merges_mappings options data ->
  exists (t' : trace) (o' : pydict),
    for_each_st merge_item data ((shallow_copy options : trace), options)
    = (None, (t', o')).
Proof.
  intros Hnd Hmap.
  apply merge_loop_returns; [done|apply shared_inv_start| |done].
  intros k d _. rewrite dict_get_shallow_copy.
  destruct (dict_get k options) as [[]|]; by simpl.
Qed.

(** X14.  For a per-trace plot, the trace's record under the style key
    is a copy of the one in the options in which every array valued
    style is replaced by its entry at [index]; the styles that are not
    arrays are the same in both. *)
Theorem per_trace_selects self data options index sk t options' styles :
  _style_key self = Some sk -> sk <> "" -> _per_trace self = true ->
  init_graph self data options index = (Ok t, options') ->
  dict_get sk options' = Some (VDict styles) ->
  NoDup (dict_keys styles) ->
  exists copy,
    dict_get sk t = Some (Own (VDict copy)) /\
    forall s,
      match dict_get s styles with
      | Some (VArr xs) =>
          exists x, xs !! index = Some x /\ dict_get s copy = Some (VScalar x)
      | other => dict_get s copy = other
      end.
Proof.
  intros Hsk Hne Hpt H Hstyles Hnd.
  apply init_graph_Ok in H as (t0 & Hloop & Hper).
  pose proof (merge_loop_shared_inv _ _ _ _ _ Hloop (shared_inv_start options))
    as Hinv.
  assert (dict_get sk t0 = Some Shared) as Hshared
    by (apply Hinv; by eexists).
  unfold per_trace_styles in Hper.
  rewrite Hsk, Hpt, bool_decide_true, Hstyles, Hshared in Hper by done.
  simpl in Hper.
  destruct (for_each (select_index index) _ styles) as [copy|] eqn:Hsel;
    simpl in Hper; [|done].
  injection Hper as <-. exists copy. split; [apply dict_get_set_eq|].
  intros s.
  pose proof (select_loop index _ (NoDup_keys_filter _ styles Hnd)
                styles copy Hsel s) as Hs.
  rewrite dict_get_filter in Hs by done.
  destruct (dict_get s styles) as [v|]; [|done].
  destruct v; simpl in Hs; try done.
Qed.

(** X15.  For a per-trace plot, an array valued style that has no entry
    at [index] means no trace is returned.  When every data field that
    meets a nested record of the options is a mapping, the data merge in
    and [init_graph] raises [IndexError]; in general it raises
    [IndexError] unless merging the data already raised, which is a
    [TypeError] or a [ValueError] of [dict.update]. *)
Theorem per_trace_index_error self data options index sk styles s xs :
  _style_key self = Some sk -> sk <> "" -> _per_trace self = true ->
  dict_get sk (init_graph self data options index).2 = Some (VDict styles) ->
  (s, VArr xs) ∈ styles -> length xs <= index ->
  (NoDup (dict_keys data) -> merges_mappings options data ->
   (init_graph self data options index).1 = Raise IndexError) /\
  ((init_graph self data options index).1 = Raise IndexError \/
   (init_graph self data options index).1 = Raise TypeError \/
   (init_graph self data options index).1 = Raise ValueError).
Proof.
  intros Hsk Hne Hpt. unfold init_graph.
  pose proof (init_graph_merge_returns data options) as Hret.
  destruct (for_each_st merge_item data ((shallow_copy options : trace), options))
    as [[e|] [t0 options']] eqn:Hloop; simpl.
  - intros _ _ _. split.
    + intros Hnd Hmap. by destruct (Hret Hnd Hmap) as (? & ? & ?).
    + right. by destruct (merge_loop_raises _ _ _ _ _ Hloop) as [-> | ->];
        [left|right].
  - intros Hstyles Hin Hlen.
    enough (per_trace_styles self index t0 options' = Raise IndexError)
      as -> by (split; [done|by left]).
    pose proof (merge_loop_shared_inv _ _ _ _ _ Hloop
                  (shared_inv_start options)) as Hinv.
    assert (dict_get sk t0 = Some Shared) as Hshared
      by (apply Hinv; by eexists).
    unfold per_trace_styles.
    rewrite Hsk, Hpt, bool_decide_true, Hstyles, Hshared by done. simpl.
    rewrite (select_loop_raises index _ s xs); [done| |].
    + apply list_elem_of_filter. by split.
    + by apply lookup_ge_None_2.
Qed.

Lemma per_trace_selects_witness :
  let self := Demo.mk_plot false (Some "line") true [] [] false false in
  let options :=
    [("name", VStr "pts");
     ("line", VDict [("color", VArr [SStr "red"; SStr "blue"]);
                     ("width", VNum (Fin 2))])] in
  exists t copy,
    init_graph self [("x", VArr [Demo.n 0])] options 1 = (Ok t, options) /\
    dict_get "line" t = Some (Own (VDict copy)) /\
    dict_get "color" copy = Some (VStr "blue") /\
    dict_get "width" copy = Some (VNum (Fin 2)).
Proof.
  intros self options.
  pose (t := [("name", Own (VStr "pts"));
              ("line", Own (VDict [("color", VStr "blue");
                                   ("width", VNum (Fin 2))]));
              ("x", Own (VArr [Demo.n 0]))]).
  assert (init_graph self [("x", VArr [Demo.n 0])] options 1 = (Ok t, options))
    as Hrun by reflexivity.
  destruct (per_trace_selects self [("x", VArr [Demo.n 0])] options 1 "line"
              t options _ eq_refl ltac:(done) eq_refl Hrun eq_refl
              ltac:(by_evaluation)) as (copy & Hcopy & Hsel).
  exists t, copy. split; [exact Hrun|]. split; [exact Hcopy|].
  split.
  - destruct (Hsel "color") as (x & Hx & Hc). injection Hx as <-. exact Hc.
  - exact (Hsel "width").
Defined.

Lemma per_trace_index_error_witness :
  let self := Demo.mk_plot false (Some "line") true [] [] false false in
  let options :=
    [("line", VDict [("color", VArr [SStr "red"; SStr "blue"])])] in
  let data := [("x", VArr [Demo.n 0]);
               ("line", VDict [("width", VNum (Fin 2))])] in
  (init_graph self data options 2).1 = Raise IndexError.
Proof.
  intros self options data.
  assert ((("color", VArr [SStr "red"; SStr "blue"]) : string * value)
          ∈ [("color", VArr [SStr "red"; SStr "blue"]);
             ("width", VNum (Fin 2))]) as Hin
    by apply list_elem_of_here.
  apply (proj1 (per_trace_index_error self data options 2 "line"
                  [("color", VArr [SStr "red"; SStr "blue"]);
                   ("width", VNum (Fin 2))] "color"
                  [SStr "red"; SStr "blue"] eq_refl ltac:(done) eq_refl
                  eq_refl Hin ltac:(simpl; lia))).
  - by_evaluation.
  - intros k v d Hk Hd.
    apply elem_of_cons in Hk as [[= -> ->]|Hk]; [discriminate Hd|].
    apply elem_of_cons in Hk as [[= -> ->]|Hk]; [reflexivity|].
    by apply elem_of_nil in Hk.
Defined.

(** ** More on layouts *)

Lemma unpack_extent_Ok extent :
  (exists ext, unpack_extent extent = Ok ext) <->
  length extent = 4 \/ length extent = 6.
Proof.
  unfold unpack_extent.
  destruct extent as [|a [|b [|c [|d [|e [|f [|g rest]]]]]]]; simpl;
    (split;
     [intros [? H]; try discriminate H; auto
     |intros [H|H]; try discriminate H; by eexists]).
Qed.

Lemma unpack_dims_axis element :
  match el_dims element with
  | [] => unpack_dims (_get_axis_dims element) = Raise ValueError
  | [d] => unpack_dims (_get_axis_dims element) = Ok (Some d, None)
  | d1 :: d2 :: _ =>
      unpack_dims (_get_axis_dims element) = Ok (Some d1, Some d2)
  end.
Proof.
  unfold _get_axis_dims. by destruct (el_dims element) as [|d1 [|d2 rest]].
Qed.

Section LayoutMore.

Variable py_str : value -> string.
Variable get_extents : Plot -> Element -> range_table -> list num.
Variable _get_axis_labels : Plot -> list (option string) -> string * string * string.
Variable _format_title : Plot -> value -> string.

(** X16.  Without tick overrides, [init_layout] returns a layout exactly
    when the extent has four or six entries and the element has at least
    one dimension; otherwise it raises. *)
Theorem init_layout_returns self key element ranges :
  xticks self = VNone -> yticks self = VNone ->
  (exists layout, init_layout py_str get_extents _get_axis_labels _format_title
    self key element ranges = Ok layout) <->
  (length (get_extents self element ranges) = 4 \/
   length (get_extents self element ranges) = 6) /\
  el_dims element <> [].
Proof.
  intros Hx Hy. unfold init_layout. rewrite Hx, Hy.
  pose proof (unpack_dims_axis element) as Hdims. split.
  - intros [layout H].
    destruct (unpack_extent _) as [ext|] eqn:He; simpl in H; [|done].
    split; [apply unpack_extent_Ok; by eexists|].
    intros Hnil. rewrite Hnil in Hdims. by rewrite Hdims in H.
  - intros [[ext ->]%unpack_extent_Ok Hne]. simpl.
    destruct (_get_axis_labels self (_get_axis_dims element))
      as [[xl yl] zl].
    destruct (invert self (xl, yl) ext) as [[xl' yl'] [[[l b] r] t]].
    destruct (margins self) as [[[ml mb] mr] mt].
    destruct (el_dims element) as [|d1 [|d2 rest]]; [done| |];
      rewrite Hdims; simpl; by eexists.
Qed.

(** The anatomy of a returned layout: which axes it has and the axis
    records they hold. *)
Lemma init_layout_axes self key element ranges layout :
  init_layout py_str get_extents _get_axis_labels _format_title
    self key element ranges = Ok layout ->
  exists ext xl yl zl,
    unpack_extent (get_extents self element ranges) = Ok ext /\
    _get_axis_labels self (_get_axis_dims element) = (xl, yl, zl) /\
    let '((xl', yl'), (l, b, r, t)) := invert self (xl, yl) ext in
    match el_dims element with
    | [] => False
    | [d] =>
        exists xaxis,
          axis_record py_str l r (shown_label self "x" xl') (logx self)
            (xticks self) = Ok xaxis /\
          axis_of layout "xaxis" = Some xaxis /\
          dict_get "yaxis" layout = None
    | _ :: _ :: _ =>
        exists xaxis yaxis,
          axis_record py_str l r (shown_label self "x" xl') (logx self)
            (xticks self) = Ok xaxis /\
          axis_record py_str b t (shown_label self "y" yl') (logy self)
            (yticks self) = Ok yaxis /\
          axis_of layout "xaxis" = Some xaxis /\
          axis_of layout "yaxis" = Some yaxis
    end.
Proof.
  unfold init_layout, shown_label. intros H.
  pose proof (unpack_dims_axis element) as Hdims.
  destruct (unpack_extent _) as [ext|] eqn:He; simpl in H; [|done].
  destruct (_get_axis_labels self (_get_axis_dims element))
    as [[xl yl] zl] eqn:Hl.
  exists ext, xl, yl, zl. split; [done|]. split; [done|].
  destruct (invert self (xl, yl) ext) as [[xl' yl'] [[[l b] r] t]].
  destruct (margins self) as [[[ml mb] mr] mt].
  destruct (el_dims element) as [|d1 [|d2 rest]]; rewrite Hdims in H;
    simpl in H; [done| |].
  - destruct (axis_record py_str l r _ (logx self) (xticks self))
      as [xaxis|] eqn:Hx; simpl in H; [|done].
    injection H as <-. by exists xaxis.
  - destruct (axis_record py_str l r _ (logx self) (xticks self))
      as [xaxis|] eqn:Hx; simpl in H; [|done].
    destruct (axis_record py_str b t _ (logy self) (yticks self))
      as [yaxis|] eqn:Hy; simpl in H; [|done].
    injection H as <-. by exists xaxis, yaxis.
Qed.

(** X17.  For an element with a single dimension the layout has an x
    axis and no y axis. *)
Theorem single_dimension_layout self key element ranges layout d :
  el_dims element = [d] ->
  init_layout py_str get_extents _get_axis_labels _format_title
    self key element ranges = Ok layout ->
  is_Some (axis_of layout "xaxis") /\ dict_get "yaxis" layout = None.
Proof.
  intros Hd H.
  destruct (init_layout_axes _ _ _ _ _ H) as (ext & xl & yl & zl & _ & _ & Hax).
  destruct (invert self (xl, yl) ext) as [[xl' yl'] [[[l b] r] t]].
  rewrite Hd in Hax. destruct Hax as (xaxis & _ & Hx & Hy).
  split; [by eexists|done].
Qed.

Lemma axis_record_type lo hi title log ticker axis :
  axis_record py_str lo hi title log ticker = Ok axis ->
  dict_get "type" axis = if log then Some (VStr "log") else None.
Proof.
  unfold axis_record. intros H.
  rewrite (get_ticks_frame _ _ _ _ _ H) by done. by destruct log.
Qed.

(** X18.  The scale type of an axis follows the axis, not the data: the
    x axis is logarithmic exactly when [logx] is set and the y axis
    exactly when [logy] is set, with or without axis inversion. *)
Theorem log_scale_follows_axis self key element ranges layout :
  init_layout py_str get_extents _get_axis_labels _format_title
    self key element ranges = Ok layout ->
  (forall xaxis, axis_of layout "xaxis" = Some xaxis ->
     dict_get "type" xaxis = if logx self then Some (VStr "log") else None) /\
  (forall yaxis, axis_of layout "yaxis" = Some yaxis ->
     dict_get "type" yaxis = if logy self then Some (VStr "log") else None).
Proof.
  intros H.
  destruct (init_layout_axes _ _ _ _ _ H) as (ext & xl & yl & zl & _ & _ & Hax).
  destruct (invert self (xl, yl) ext) as [[xl' yl'] [[[l b] r] t]].
  destruct (el_dims element) as [|d1 [|d2 rest]]; [done| |].
  - destruct Hax as (xaxis & Hx & Hxa & Hya). split.
    + intros xaxis' Hx'. rewrite Hxa in Hx'. injection Hx' as <-.
      by eapply axis_record_type.
    + intros yaxis Hy. unfold axis_of in Hy. by rewrite Hya in Hy.
  - destruct Hax as (xaxis & yaxis & Hx & Hy & Hxa & Hya). split.
    + intros xaxis' Hx'. rewrite Hxa in Hx'. injection Hx' as <-.
      by eapply axis_record_type.
    + intros yaxis' Hy'. rewrite Hya in Hy'. injection Hy' as <-.
      by eapply axis_record_type.
Qed.

End LayoutMore.

Lemma init_layout_returns_witness :
  let X := Demo.externals [] [] in
  exists layout,
    init_layout (ext_py_str X) (ext_get_extents X) (ext_get_axis_labels X)
      (ext_format_title X) Demo.plot0 VNone Demo.points ∅ = Ok layout.
Proof.
  intros X.
  apply (init_layout_returns (ext_py_str X) (ext_get_extents X)
           (ext_get_axis_labels X) (ext_format_title X) Demo.plot0 VNone
           Demo.points ∅ eq_refl eq_refl).
  split; [by left|done].
Defined.

Lemma single_dimension_layout_witness :
  let X := Demo.externals [] [] in
  exists layout,
    init_layout (ext_py_str X) (ext_get_extents X) (ext_get_axis_labels X)
      (ext_format_title X) Demo.plot0 VNone DemoLayout.series ∅ = Ok layout /\
    is_Some (axis_of layout "xaxis") /\ dict_get "yaxis" layout = None.
Proof.
  intros X.
  assert (exists layout,
             init_layout (ext_py_str X) (ext_get_extents X)
               (ext_get_axis_labels X) (ext_format_title X) Demo.plot0 VNone
               DemoLayout.series ∅ = Ok layout) as [layout Hrun]
    by (eexists; reflexivity).
  exists layout. split; [exact Hrun|].
  exact (single_dimension_layout (ext_py_str X) (ext_get_extents X)
           (ext_get_axis_labels X) (ext_format_title X) Demo.plot0 VNone
           DemoLayout.series ∅ layout "t" eq_refl Hrun).
Defined.

Lemma log_scale_follows_axis_witness :
  let X := Demo.externals [] [] in
  exists layout xaxis yaxis,
    init_layout (ext_py_str X) (ext_get_extents X) (ext_get_axis_labels X)
      (ext_format_title X) DemoLayout.log_inverted VNone Demo.points ∅
    = Ok layout /\
    axis_of layout "xaxis" = Some xaxis /\
    axis_of layout "yaxis" = Some yaxis /\
    dict_get "title" xaxis = Some (VStr "y") /\
    dict_get "type" xaxis = Some (VStr "log") /\
    dict_get "type" yaxis = None.
Proof.
  intros X.
  assert (exists layout,
             init_layout (ext_py_str X) (ext_get_extents X)
               (ext_get_axis_labels X) (ext_format_title X)
               DemoLayout.log_inverted VNone Demo.points ∅ = Ok layout)
    as [layout Hrun] by (eexists; reflexivity).
  destruct (log_scale_follows_axis (ext_py_str X) (ext_get_extents X)
              (ext_get_axis_labels X) (ext_format_title X)
              DemoLayout.log_inverted VNone Demo.points ∅ layout Hrun)
    as [Hxlog Hylog].
  injection Hrun as <-.
  eexists _, _, _. split; [reflexivity|].
  split; [reflexivity|]. split; [reflexivity|]. split; [reflexivity|].
  split; [exact (Hxlog _ eq_refl)|exact (Hylog _ eq_refl)].
Defined.

Section LayoutEdges.

Variable py_str : value -> string.
Variable get_extents : Plot -> Element -> range_table -> list num.
Variable _get_axis_labels : Plot -> list (option string) -> string * string * string.
Variable _format_title : Plot -> value -> string.

(** X19.  The layout has nothing of the third dimension: a 3D extent
    gives the layout of the 2D extent with the same left, bottom, right
    and top, and the z label does not matter. *)
Theorem init_layout_ignores_z
    (get_extents' : Plot -> Element -> range_table -> list num)
    (_get_axis_labels' : Plot -> list (option string) -> string * string * string)
    self key element ranges l b z0 r t z1 :
  get_extents self element ranges = [l; b; z0; r; t; z1] ->
  get_extents' self element ranges = [l; b; r; t] ->
  (_get_axis_labels' self (_get_axis_dims element)).1
  = (_get_axis_labels self (_get_axis_dims element)).1 ->
  init_layout py_str get_extents _get_axis_labels _format_title
    self key element ranges
  = init_layout py_str get_extents' _get_axis_labels' _format_title
      self key element ranges.
Proof.
  intros He He' Hl. unfold init_layout. rewrite He, He'. simpl.
  destruct (unpack_dims (_get_axis_dims element)) as [xy|]; simpl; [|done].
  destruct (_get_axis_labels self (_get_axis_dims element)) as [[xl yl] zl].
  destruct (_get_axis_labels' self (_get_axis_dims element))
    as [[xl' yl'] zl'].
  simpl in Hl. by injection Hl as -> ->.
Qed.

Lemma unzip_pairs (pairs : list (value * value)) :
  pairs <> [] ->
  unzip_ticks ((fun p => VTuple [p.1; p.2]) <$> pairs)
  = Ok (fst <$> pairs, snd <$> pairs).
Proof.
  intros Hne. unfold unzip_ticks.
  assert (forall ps : list (value * value),
             foldr Nat.min 2
               (length <$> ((fun t => match t with VTuple xs => xs | _ => [] end)
                              <$> ((fun p => VTuple [p.1; p.2]) <$> ps))) = 2)
    as Hmin by (induction ps as [|p ps IH];
                [done|rewrite !fmap_cons; cbn [foldr]; by rewrite IH]).
  assert (forall ps : list (value * value),
             (fun xs => default VNone (xs !! 0))
               <$> ((fun t => match t with VTuple xs => xs | _ => [] end)
                      <$> ((fun p => VTuple [p.1; p.2]) <$> ps)) = fst <$> ps)
    as Hfst by (induction ps as [|p ps IH];
                [done|rewrite !fmap_cons; by rewrite IH]).
  assert (forall ps : list (value * value),
             (fun xs => default VNone (xs !! 1))
               <$> ((fun t => match t with VTuple xs => xs | _ => [] end)
                      <$> ((fun p => VTuple [p.1; p.2]) <$> ps)) = snd <$> ps)
    as Hsnd by (induction ps as [|p ps IH];
                [done|rewrite !fmap_cons; by rewrite IH]).
  destruct pairs as [|p ps]; [done|].
  cbv zeta. rewrite !fmap_cons. cbn [length].
  rewrite Hmin, bool_decide_true by done.
  by rewrite Hfst, Hsnd.
Qed.

(** X20.  A non-empty tick override of (position, label) pairs sets
    [tickvals] to the positions and [ticktext] to the labels, a label
    that is not a string being replaced by its [str]; the other entries
    of the axis stay. *)
Theorem get_ticks_pairs axis (pairs : list (value * value)) :
  pairs <> [] ->
  exists axis',
    _get_ticks py_str axis (VList ((fun p => VTuple [p.1; p.2]) <$> pairs))
    = Ok axis' /\
    dict_get "tickvals" axis' = Some (VTuple (fst <$> pairs)) /\
    dict_get "ticktext" axis'
    = Some (VList (tick_label py_str <$> (snd <$> pairs))) /\
    (forall k, k <> "tickvals" -> k <> "ticktext" ->
               dict_get k axis' = dict_get k axis).
Proof.
  intros Hne. unfold _get_ticks.
  assert (forallb is_tuple ((fun p => VTuple [p.1; p.2]) <$> pairs) = true)
    as -> by (clear Hne; induction pairs as [|p ps IH]; simpl; [done|exact IH]).
  rewrite unzip_pairs by done. simpl. eexists. split; [done|].
  unfold dict_update. simpl. split; [|split].
  - by rewrite dict_get_set_ne, dict_get_set_eq.
  - by rewrite dict_get_set_eq.
  - intros k ? ?. by rewrite !dict_get_set_ne.
Qed.

End LayoutEdges.

Section LayoutTicks.

Variable py_str : value -> string.
Variable get_extents : Plot -> Element -> range_table -> list num.
Variable _get_axis_labels : Plot -> list (option string) -> string * string * string.
Variable _format_title : Plot -> value -> string.

Lemma unpack_extent_raises extent e :
  unpack_extent extent = Raise e -> e = ValueError.
Proof.
  unfold unpack_extent.
  destruct extent as [|a [|b [|c [|d [|e' [|f [|g rest]]]]]]];
    intros H; try discriminate H; by injection H.
Qed.

Lemma axis_record_empty_ticks lo hi title log ticker :
  ticker = VList [] \/ ticker = VTuple [] ->
  axis_record py_str lo hi title log ticker = Raise ValueError.
Proof. by intros [-> | ->]. Qed.

(** X21.  An empty list (or tuple) of x ticks makes [init_layout] raise
    [ValueError], whatever the element, extent and other parameters:
    an empty sequence counts as a sequence of (position, label) tuples
    and cannot be unzipped into positions and labels. *)
Theorem empty_xticks_raise self key element ranges :
  xticks self = VList [] \/ xticks self = VTuple [] ->
  init_layout py_str get_extents _get_axis_labels _format_title
    self key element ranges = Raise ValueError.
Proof.
  intros Hx. unfold init_layout.
  destruct (unpack_extent _) as [ext|e] eqn:He; simpl.
  2: { f_equal. by eapply unpack_extent_raises. }
  pose proof (unpack_dims_axis element) as Hdims.
  destruct (_get_axis_labels self (_get_axis_dims element)) as [[xl yl] zl].
  destruct (invert self (xl, yl) ext) as [[xl' yl'] [[[l b] r] t]].
  destruct (el_dims element) as [|d1 [|d2 rest]]; rewrite Hdims;
    try done; cbn [mbind result_bind fst snd];
    (destruct (is_Some_dec (Some d1)) as [_|Hn];
     [|by destruct Hn; eexists]);
    by rewrite (axis_record_empty_ticks _ _ _ _ _ Hx).
Qed.

End LayoutTicks.

Lemma empty_xticks_raise_witness :
  let X := Demo.externals [] [] in
  init_layout (ext_py_str X) (ext_get_extents X) (ext_get_axis_labels X)
    (ext_format_title X) (DemoLayout.with_xticks (VList [])) VNone
    Demo.points ∅ = Raise ValueError.
Proof.
  intros X.
  exact (empty_xticks_raise (ext_py_str X) (ext_get_extents X)
           (ext_get_axis_labels X) (ext_format_title X)
           (DemoLayout.with_xticks (VList [])) VNone Demo.points ∅
           (or_introl eq_refl)).
Defined.

Lemma get_ticks_pairs_witness :
  exists axis',
    _get_ticks (fun _ => "1") [("title", VStr "x")]
      (VList [VTuple [VNum (Fin 0); VStr "low"];
              VTuple [VNum (Fin 9); VNum (Fin 1)]]) = Ok axis' /\
    dict_get "tickvals" axis' = Some (VTuple [VNum (Fin 0); VNum (Fin 9)]) /\
    dict_get "ticktext" axis' = Some (VList [VStr "low"; VStr "1"]) /\
    dict_get "title" axis' = Some (VStr "x").
Proof.
  destruct (get_ticks_pairs (fun _ => "1") [("title", VStr "x")]
              [(VNum (Fin 0), VStr "low"); (VNum (Fin 9), VNum (Fin 1))]
              ltac:(done)) as (axis' & Hrun & Hvals & Htext & Hrest).
  exists axis'. split; [exact Hrun|]. split; [exact Hvals|].
  split; [exact Htext|]. exact (Hrest "title" ltac:(done) ltac:(done)).
Defined.

Lemma init_layout_ignores_z_witness :
  let X := Demo.externals [] [] in
  init_layout (ext_py_str X)
    (fun _ _ _ => [Fin 0; Fin 0; Fin (-5); Fin 10; Fin 20; Fin 5])
    (fun _ _ => ("x", "y", "z")) (ext_format_title X)
    Demo.plot0 VNone Demo.points ∅
  = init_layout (ext_py_str X) (ext_get_extents X) (ext_get_axis_labels X)
      (ext_format_title X) Demo.plot0 VNone Demo.points ∅.
Proof.
  intros X.
  exact (init_layout_ignores_z (ext_py_str X)
           (fun _ _ _ => [Fin 0; Fin 0; Fin (-5); Fin 10; Fin 20; Fin 5])
           (fun _ _ => ("x", "y", "z")) (ext_format_title X)
           (ext_get_extents X) (ext_get_axis_labels X)
           Demo.plot0 VNone Demo.points ∅
           (Fin 0) (Fin 0) (Fin (-5)) (Fin 10) (Fin 20) (Fin 5)
           eq_refl eq_refl eq_refl).
Defined.

(** ** More on figure generation *)

Lemma init_graphs_length self data index opts ts opts' :
  init_graphs self data index opts = (Ok ts, opts') ->
  length ts = length data.
Proof.
  revert index opts ts opts'. induction data as [|d data IH];
    intros index opts ts opts' H; cbn [init_graphs] in H.
  - by injection H as <- _.
  - destruct (init_graph self d opts index) as [[t|e] opts1];
      [|by injection H].
    destruct (init_graphs self data (S index) opts1) as [[ts'|e] opts2] eqn:Hr;
      [|by injection H].
    injection H as <- _. simpl. f_equal. exact (IH _ _ _ _ Hr).
Qed.

(** X22.  A figure generated for an existing frame has one trace for
    each record that [get_data] gave, in the same number; with the base
    class's [get_data] it has no trace. *)
Theorem one_trace_per_record X st key ranges element fig st' :
  ext_get_frame X key = Some element ->
  generate_plot X st key ranges = (Ok fig, st') ->
  let self := set_param (ext_plot_options X element) (plot st) in
  let ranges' := ext_match_spec X element (ext_compute_ranges X key ranges) in
  let style := ext_lookup_style X element (cyclic_index self) in
  length (fig_data fig) = length (ext_get_data X self element ranges' style) /\
  (ext_get_data X self element ranges' style = get_data element ranges' style ->
   fig_data fig = []).
Proof.
  intros Hel H self ranges' style. unfold generate_plot in H. rewrite Hel in H.
  fold self in H.
  destruct (build_figure X self key element ranges) as [fig'|] eqn:Hb;
    [|by injection H].
  injection H as -> _. unfold build_figure in Hb.
  fold ranges' style in Hb.
  destruct (graph_options_of X self element ranges' style)
    as [[opts tst]|]; simpl in Hb; [|done].
  destruct (init_graphs self _ 0 opts) as [[graphs|] opts'] eqn:Hg;
    simpl in Hb; [|done].
  destruct (init_layout_of X self key element ranges') as [layout|];
    simpl in Hb; [|done].
  injection Hb as <-. simpl. rewrite length_fmap.
  assert (length graphs
          = length (ext_get_data X self element ranges' style)) as Hlen
    by (by eapply init_graphs_length).
  split; [done|]. intros Hbase. rewrite Hbase in Hlen. simpl in Hlen.
  apply nil_length_inv in Hlen. by rewrite Hlen.
Qed.

Lemma fig_handle_of_result X st key ranges fig st' :
  generate_plot X st key ranges = (Ok fig, st') -> fig_handle st' = Some fig.
Proof.
  unfold generate_plot. destruct (ext_get_frame X key) as [element|].
  - destruct (build_figure X _ key element ranges); intros [= <- <-]; done.
  - destruct (fig_handle st) eqn:Hh; intros [= <- <-]; done.
Qed.

(** After a call, [handles['fig']] holds the figure the call
    returned; a call that raised leaves it as it was. *)
Lemma handle_after_call X st key ranges :
  match (generate_plot X st key ranges).1 with
  | Ok fig => fig_handle (generate_plot X st key ranges).2 = Some fig
  | Raise _ => fig_handle (generate_plot X st key ranges).2 = fig_handle st
  end.
Proof.
  unfold generate_plot. destruct (ext_get_frame X key) as [element|].
  - by destruct (build_figure X _ key element ranges).
  - simpl. by destruct (fig_handle st).
Qed.

(** X23.  A call for a key that has no frame changes nothing and, on a
    plot left by a call that returned a figure, returns that figure
    again, whatever the ranges; on a plot that has no figure yet it
    raises [KeyError]. *)
Theorem missing_frame_returns_last X st key2 ranges2 :
  ext_get_frame X key2 = None ->
  (forall st0 key ranges fig,
      generate_plot X st0 key ranges = (Ok fig, st) ->
      generate_plot X st key2 ranges2 = (Ok fig, st)) /\
  (fig_handle st = None ->
   generate_plot X st key2 ranges2 = (Raise (KeyError "fig"), st)).
Proof.
  intros Hnone. split.
  - intros st0 key ranges fig H. apply fig_handle_of_result in H.
    unfold generate_plot. by rewrite Hnone, H.
  - intros Hh. unfold generate_plot. by rewrite Hnone, Hh.
Qed.

Lemma one_trace_per_record_witness :
  let X := DemoOverlay.child_b in
  exists fig st',
    generate_plot X DemoOverlay.fresh VNone ∅ = (Ok fig, st') /\
    length (fig_data fig) = 2.
Proof.
  intros X.
  assert (exists fig st',
             generate_plot X DemoOverlay.fresh VNone ∅ = (Ok fig, st'))
    as (fig & st' & Hrun) by (eexists _, _; reflexivity).
  exists fig, st'. split; [exact Hrun|].
  exact (proj1 (one_trace_per_record X DemoOverlay.fresh VNone ∅ Demo.points
                  fig st' eq_refl Hrun)).
Defined.

Lemma missing_frame_returns_last_witness :
  generate_plot DemoFrames.sparse DemoFrames.drawn_once.2 (VNum (Fin 7)) ∅
  = (Ok DemoFrames.drawn_once.1, DemoFrames.drawn_once.2) /\
  length (fig_data DemoFrames.drawn_once.1) = 1 /\
  generate_plot DemoFrames.sparse DemoFrames.fresh (VNum (Fin 7)) ∅
  = (Raise (KeyError "fig"), DemoFrames.fresh).
Proof.
  destruct (missing_frame_returns_last DemoFrames.sparse
              DemoFrames.drawn_once.2 (VNum (Fin 7)) ∅ eq_refl) as [Hlast _].
  destruct (missing_frame_returns_last DemoFrames.sparse
              DemoFrames.fresh (VNum (Fin 7)) ∅ eq_refl) as [_ Hnew].
  split; [|split; [reflexivity|exact (Hnew eq_refl)]].
  apply (Hlast DemoFrames.fresh (VNum (Fin 0)) ∅). reflexivity.
Defined.

(** ** Drawing and updating frames *)

Lemma generate_plot_again X st key ranges :
  generate_plot X (generate_plot X st key ranges).2 key ranges
  = generate_plot X st key ranges.
Proof.
  unfold generate_plot.
  destruct (ext_get_frame X key) as [element|] eqn:Hel.
  - destruct (build_figure X (set_param _ (plot st)) key element ranges)
      as [fig|e] eqn:Hb; simpl; rewrite set_param_idempotent, Hb; done.
  - simpl. by destruct (fig_handle st).
Qed.

(** X24.  When [initialize_plot] returns a figure, the plot has a last
    key, [drawn] is set, [handles['fig']] holds the figure, and an
    [update_frame] for that key with the same ranges leaves the plot
    exactly as it is.  When it raises, [drawn] keeps its value, and a
    plot without keys raises [IndexError] and is left untouched. *)
Theorem initialize_plot_draws X p ranges :
  match initialize_plot X p ranges with
  | (Ok fig, p') =>
      exists key,
        last (keys p) = Some key /\ drawn p' = true /\
        fig_handle (state p') = Some fig /\
        update_frame X p' key ranges = (Ok (), p')
  | (Raise e, p') =>
      drawn p' = drawn p /\ (keys p = [] -> e = IndexError /\ p' = p)
  end.
Proof.
  unfold initialize_plot. destruct (last (keys p)) as [key|] eqn:Hlast.
  - destruct (generate_plot X (state p) key ranges) as [[fig|e] st'] eqn:Hg.
    + exists key. split; [done|]. split; [done|].
      split; [by eapply fig_handle_of_result|].
      unfold update_frame. simpl.
      pose proof (generate_plot_again X (state p) key ranges) as Hagain.
      rewrite Hg in Hagain. simpl in Hagain. by rewrite Hagain.
    + split; [done|]. intros Hnil. by rewrite Hnil in Hlast.
  - split; [done|]. by intros _.
Qed.

(** ** More on overlays *)

Section OverlayMore.

Variable merge_layout : pydict -> pydict -> pydict.
Variable XO : Externals.

(** X25.  An overlay without subplots raises [TypeError] once its own
    layout is built (there is no figure to put the layout in), and
    keeps its state. *)
Theorem overlay_without_subplots st key ranges el layout :
  subplots st = [] ->
  ext_get_frame XO key = Some el ->
  init_layout_of XO (oplot st) key el (ext_compute_ranges XO key ranges)
  = Ok layout ->
  OverlayPlot.generate_plot merge_layout XO st key ranges
  = (Raise TypeError, st).
Proof.
  intros Hsubs Hel Hlay. unfold OverlayPlot.generate_plot.
  rewrite Hsubs, Hel, Hlay. simpl. destruct st. simpl in *. by subst.
Qed.

Lemma compose_raises key ranges pre figs X s post e acc :
  Forall2 (produces key ranges) pre figs ->
  (generate_plot X s key ranges).1 = Raise e ->
  exists acc' pre',
    OverlayPlot.compose merge_layout key ranges (app pre ((X, s) :: post)) acc
    = (Raise e, acc',
       app pre' ((X, (generate_plot X s key ranges).2) :: post)) /\
    length pre' = length pre /\
    (pre = [] -> acc' = acc) /\
    (is_Some acc \/ pre <> [] -> is_Some acc') /\
    traces_of acc' = app (traces_of acc) (concat (fig_data <$> figs)).
Proof.
  intros Hall He. revert acc.
  induction Hall as [|[X0 s0] fig pre figs Hfig Hall IH]; intros acc.
  - exists acc, []. simpl.
    destruct (generate_plot X s key ranges) as [r s']. simpl in *. subst r.
    rewrite app_nil_r. split; [done|]. split; [done|]. split; [done|].
    split; [|done]. by intros [?|?].
  - unfold produces in Hfig. simpl in Hfig.
    rewrite <- app_comm_cons. cbn [OverlayPlot.compose].
    destruct (generate_plot X0 s0 key ranges) as [r0 s0']. simpl in Hfig.
    subst r0.
    destruct (IH (Some (match acc with
                        | None => fig
                        | Some figure => merge_figure merge_layout figure fig
                        end))) as (acc' & pre' & -> & Hlen & _ & Hsome & Htr).
    exists acc', ((X0, s0') :: pre'). split; [done|].
    split; [simpl; by rewrite Hlen|]. split; [done|]. split.
    + intros _. apply Hsome. left. by eexists.
    + rewrite Htr. simpl. destruct acc; simpl; [|done].
      by rewrite <- app_assoc.
Qed.

Lemma seed_alias_app final pre rest :
  (pre = [] -> final = None) ->
  exists pre', length pre' = length pre /\
               OverlayPlot.seed_alias final (app pre rest) = app pre' rest.
Proof.
  intros Hnil. unfold OverlayPlot.seed_alias.
  destruct final as [figure|].
  - destruct pre as [|[X0 s0] pre]; [by specialize (Hnil eq_refl)|].
    by exists ((X0, {| plot := plot s0; fig_handle := Some figure |}) :: pre).
  - by exists pre.
Qed.

(** X26.  The overlay does not catch a subplot's error: when the
    subplots before it produce their figures and one raises, the overlay
    raises the same error, and the subplots after it are not run and
    keep their state.  The overlay's own [handles['fig']] keeps the value
    it had, unless it is the object that the first subplot holds and
    returns again for want of a frame: that object has then taken the
    figures of the subplots that ran, and the overlay's [handles['fig']]
    shows all their traces. *)
Theorem overlay_propagates_error st key ranges pre figs X s post e :
  subplots st = app pre ((X, s) :: post) ->
  Forall2 (produces key (ext_compute_ranges XO key ranges)) pre figs ->
  (generate_plot X s key (ext_compute_ranges XO key ranges)).1 = Raise e ->
  (OverlayPlot.generate_plot merge_layout XO st key ranges).1 = Raise e /\
  (exists pre',
    length pre' = length pre /\
    subplots (OverlayPlot.generate_plot merge_layout XO st key ranges).2
    = app pre'
        ((X, (generate_plot X s key (ext_compute_ranges XO key ranges)).2)
           :: post)) /\
  (handle_shared st = true -> first_is_stored key pre = true ->
   is_Some (ofig_handle
              (OverlayPlot.generate_plot merge_layout XO st key ranges).2) /\
   traces_of (ofig_handle
                (OverlayPlot.generate_plot merge_layout XO st key ranges).2)
   = concat (fig_data <$> figs)) /\
  (handle_shared st = false \/ first_is_stored key pre = false ->
   ofig_handle (OverlayPlot.generate_plot merge_layout XO st key ranges).2
   = ofig_handle st).
Proof.
  intros Hsubs Hall He. unfold OverlayPlot.generate_plot. rewrite Hsubs.
  destruct (compose_raises key _ pre figs X s post e None Hall He)
    as (acc' & pre' & -> & Hlen & Hacc & Hsome & Htr).
  assert (pre <> [] ->
          first_is_stored key (app pre ((X, s) :: post))
          = first_is_stored key pre) as Hfirst
    by (by destruct pre as [|[X0 s0] pre]).
  simpl. split; [done|]. split; [|split].
  - destruct (seed_alias_app acc' pre'
                ((X, (generate_plot X s key
                        (ext_compute_ranges XO key ranges)).2) :: post))
      as (pre2 & Hlen2 & ->).
    + intros ->. apply Hacc. by apply nil_length_inv.
    + exists pre2. split; [congruence|done].
  - intros Hshared Hstored.
    assert (pre <> []) as Hne by (by intros ->).
    destruct (Hsome (or_intror Hne)) as [f ->]. rewrite Hfirst, Hshared, Hstored by done.
    simpl. split; [by eexists|]. exact Htr.
  - intros Hor. destruct acc' as [f|]; [|done].
    destruct pre as [|p pre]; [by specialize (Hacc eq_refl)|].
    rewrite Hfirst by done. by destruct Hor as [-> | ->]; [|rewrite andb_false_r].
Qed.

End OverlayMore.

Lemma overlay_without_subplots_witness :
  OverlayPlot.generate_plot dict_update (Demo.externals [] [])
    DemoOverlayErrors.empty VNone ∅
  = (Raise TypeError, DemoOverlayErrors.empty).
Proof.
  assert (exists layout,
             init_layout_of (Demo.externals [] []) Demo.plot0 VNone
               Demo.points ∅ = Ok layout) as [layout Hlay]
    by (eexists; reflexivity).
  exact (overlay_without_subplots dict_update (Demo.externals [] [])
           DemoOverlayErrors.empty VNone ∅ Demo.points layout
           eq_refl eq_refl Hlay).
Defined.

Lemma overlay_propagates_error_witness :
  let st := DemoOverlayErrors.drawn in
  let out := OverlayPlot.generate_plot dict_update (Demo.externals [] [])
               st (VNum (Fin 7)) ∅ in
  handle_shared st = true /\
  length (traces_of (ofig_handle st)) = 4 /\
  out.1 = Raise ValueError /\
  length (traces_of (ofig_handle out.2)) = 6.
Proof.
  intros st out.
  pose (pre := take 2 (subplots st)).
  pose (post := drop 3 (subplots st)).
  pose (s := default DemoOverlay.fresh (snd <$> subplots st !! 2)).
  pose (figs := (fun sub : Externals * pstate =>
                   match (generate_plot sub.1 sub.2 (VNum (Fin 7)) ∅).1 with
                   | Ok fig => fig
                   | Raise _ => {| fig_data := []; fig_layout := [] |}
                   end) <$> pre).
  destruct (overlay_propagates_error dict_update (Demo.externals [] [])
              st (VNum (Fin 7)) ∅ pre figs DemoOverlayErrors.fails_later s
              post ValueError eq_refl
              ltac:(repeat constructor; reflexivity) eq_refl)
    as (Hraise & _ & Hshared & _).
  split; [reflexivity|]. split; [reflexivity|]. split; [exact Hraise|].
  destruct (Hshared eq_refl eq_refl) as [_ Htr].
  unfold out. rewrite Htr. reflexivity.
Defined.

(** An overlay that was never drawn: the second subplot has neither a
    frame nor a figure, and the overlay is left without a figure. *)
Example overlay_error_before_drawing :
  let out := OverlayPlot.generate_plot dict_update (Demo.externals [] [])
               DemoOverlayErrors.broken VNone ∅ in
  out.1 = Raise (KeyError "fig") /\ ofig_handle out.2 = None /\
  handle_shared out.2 = false.
Proof. by repeat split. Qed.

(** The keys of a layout are distinct. *)
Lemma init_layout_NoDup py_str get_extents _get_axis_labels _format_title
    self key element ranges layout :
  init_layout py_str get_extents _get_axis_labels _format_title
    self key element ranges = Ok layout ->
  NoDup (dict_keys layout).
Proof.
  unfold init_layout. intros H.
  destruct (unpack_extent _) as [ext|] eqn:He; simpl in H; [|done].
  destruct (unpack_dims _) as [[xdim ydim]|] eqn:Hd; simpl in H; [|done].
  destruct (_get_axis_labels self (_get_axis_dims element)) as [[xl yl] zl].
  destruct (invert self (xl, yl) ext) as [[xl' yl'] [[[l b] r] t]].
  destruct (margins self) as [[[ml mb] mr] mt].
  destruct (is_Some_dec xdim), (is_Some_dec ydim); simpl in H;
    repeat match type of H with
      | context [axis_record ?a ?b ?c ?d ?e ?f] =>
          destruct (axis_record a b c d e f); simpl in H; [|done]
      end;
    injection H as <-; by_evaluation.
Qed.

Lemma compose_first merge_layout key ranges subs acc final fin subs' :
  OverlayPlot.compose merge_layout key ranges subs acc = (Ok final, fin, subs') ->
  length subs' = length subs /\ fin = final /\ (subs' = [] -> final = acc) /\
  (acc <> None -> final <> None).
Proof.
  revert acc final fin subs'.
  induction subs as [|[X s] subs IH]; intros acc final fin subs' H.
  - simpl in H. by injection H as <- <- <-.
  - cbn [OverlayPlot.compose] in H.
    destruct (generate_plot X s key ranges) as [[fig|e] s1]; [|done].
    destruct (OverlayPlot.compose _ _ _ _ _) as [[r f] rest] eqn:Hc.
    injection H as -> <- <-.
    destruct (IH _ _ _ _ Hc) as (Hlen & -> & _ & Hsome).
    split; [simpl; by rewrite Hlen|]. split; [done|].
    split; [done|]. intros _. by apply Hsome.
Qed.

Section OverlayResult.

Variable merge_layout : pydict -> pydict -> pydict.
Variable XO : Externals.

(** X27.  The overlay's own layout is applied last: every entry of it
    reads the same in the returned figure's layout, whatever the merged
    subplot layouts held under that key. *)
Theorem overlay_layout_wins st key ranges figure st' el layout :
  OverlayPlot.generate_plot merge_layout XO st key ranges = (Ok figure, st') ->
  ext_get_frame XO key = Some el ->
  init_layout_of XO (oplot st) key el (ext_compute_ranges XO key ranges)
  = Ok layout ->
  forall k v, dict_get k layout = Some v ->
              dict_get k (fig_layout figure) = Some v.
Proof.
  unfold OverlayPlot.generate_plot. intros H Hel Hlay k v Hk.
  destruct (OverlayPlot.compose _ _ _ _ _) as [[r fin] subs].
  rewrite Hel, Hlay in H.
  destruct r as [[f|]|e]; [|done|done].
  injection H as <- _. simpl.
  apply dict_get_update_Some; [|done].
  by eapply init_layout_NoDup.
Qed.

(** X28.  After a call that returns, [handles['fig']] of the overlay and
    of its first subplot hold the returned figure (the first subplot's
    figure is the object the overlay composes into); no subplot is added
    or removed. *)
Theorem overlay_handles_alias st key ranges figure st' :
  OverlayPlot.generate_plot merge_layout XO st key ranges = (Ok figure, st') ->
  ofig_handle st' = Some figure /\
  length (subplots st') = length (subplots st) /\
  exists X s rest,
    subplots st' = (X, s) :: rest /\ fig_handle s = Some figure.
Proof.
  unfold OverlayPlot.generate_plot. intros H.
  destruct (OverlayPlot.compose _ _ _ _ _) as [[r fin] subs] eqn:Hc.
  destruct r as [[f|]|e].
  - apply compose_first in Hc as (Hlen & _ & Hnil & _).
    destruct (match ext_get_frame XO key with
              | Some el => _
              | None => _
              end) as [layout|e]; [|done].
    injection H as <- <-. simpl. split; [done|].
    destruct subs as [|[X s] rest]; [by specialize (Hnil eq_refl)|].
    simpl. split; [done|]. by eexists _, _, _.
  - by destruct (match ext_get_frame XO key with
                 | Some el => _
                 | None => _
                 end).
  - done.
Qed.

End OverlayResult.

Lemma overlay_layout_wins_witness :
  exists figure,
    (OverlayPlot.generate_plot dict_update (Demo.externals [] [])
       DemoOverlay.overlay VNone ∅).1 = Ok figure /\
    dict_get "width" (fig_layout figure)
    = Some (VNum (Fin (width Demo.plot0))).
Proof.
  assert (exists figure st',
             OverlayPlot.generate_plot dict_update (Demo.externals [] [])
               DemoOverlay.overlay VNone ∅ = (Ok figure, st'))
    as (figure & st' & Hrun) by (eexists _, _; reflexivity).
  assert (exists layout,
             init_layout_of (Demo.externals [] []) Demo.plot0 VNone
               Demo.points ∅ = Ok layout /\
             dict_get "width" layout = Some (VNum (Fin (width Demo.plot0))))
    as (layout & Hlay & Hw) by (eexists; split; reflexivity).
  exists figure. split; [by rewrite Hrun|].
  exact (overlay_layout_wins dict_update (Demo.externals [] [])
           DemoOverlay.overlay VNone ∅ figure st' Demo.points layout
           Hrun eq_refl Hlay "width" _ Hw).
Defined.

Lemma overlay_handles_alias_witness :
  exists figure st' X s rest,
    OverlayPlot.generate_plot dict_update (Demo.externals [] [])
      DemoOverlay.overlay VNone ∅ = (Ok figure, st') /\
    ofig_handle st' = Some figure /\
    subplots st' = (X, s) :: rest /\ fig_handle s = Some figure.
Proof.
  assert (exists figure st',
             OverlayPlot.generate_plot dict_update (Demo.externals [] [])
               DemoOverlay.overlay VNone ∅ = (Ok figure, st'))
    as (figure & st' & Hrun) by (eexists _, _; reflexivity).
  destruct (overlay_handles_alias dict_update (Demo.externals [] [])
              DemoOverlay.overlay VNone ∅ figure st' Hrun)
    as (Hh & _ & X & s & rest & Hs & Hf).
  by exists figure, st', X, s, rest.
Defined.

(** ** From the options to a trace *)

(** [x.update(v)] for values that are not mappings: a string that is not
    empty is a [ValueError] and a number a [TypeError], both leaving the
    record alone; an empty array changes nothing; pairs are entered one
    by one, and those before a bad element stay. *)
Example update_with_non_mappings :
  let d := [("size", VNum (Fin 5))] in
  py_update d (VStr "ab") = (Some ValueError, d) /\
  py_update d (VNum (Fin 1)) = (Some TypeError, d) /\
  py_update d (VArr []) = (None, d) /\
  py_update d (VList [VTuple [VStr "color"; VStr "red"]])
  = (None, [("size", VNum (Fin 5)); ("color", VStr "red")]) /\
  py_update d (VList [VTuple [VStr "color"; VStr "red"]; VNum (Fin 1)])
  = (Some TypeError, [("size", VNum (Fin 5)); ("color", VStr "red")]).
Proof. by repeat split. Qed.





